(** * SlideSage: rule-based detection, reconciliation and response parsing

    A shallow embedding of [core/detector.py], [core/analyzer.py],
    [utils/helpers.py] and the dispatch in [slide_sage.py], with the
    properties of the specification stated over it.

    Conventions.
    - A Python [str] is a list of Unicode code points ([N]); [py] turns a
      literal into one.
    - A Python [dict] is an association list in insertion order whose keys
      are pairwise different; [dict_set] and [dict_upsert] keep it so.
    - A Python [set] is a [gset].
    - The detector's values are read at the types the source declares (a
      finding's [slide_numbers] is a list of integers, its [description] a
      string); a key that [.get] may find missing is an [option] field.
    - What the oracle sends is a [Json] value.  Where it reaches the
      detector it is decoded to those types; the decoding says where the
      code raises and where the value is outside the data model.
    - Builtins of the interpreter whose tables are not part of the
      repository ([str.lower], [str.strip], the Unicode classes behind
      [\d] and [\s], [json.loads]) are section variables. *)

From Stdlib Require Import ZArith NArith String Ascii SpecFloat.
From stdpp Require Import base option list sets gmap sorting.

Local Open Scope Z_scope.
Local Open Scope list_scope.

(** ** Strings *)

Abbreviation char := N (only parsing).
Abbreviation str := (list N) (only parsing).

Definition py (s : string) : str :=
  (λ a, N_of_ascii a) <$> list_ascii_of_string s.

Global Arguments py : simpl never.

(** [sep.join(parts)] *)
Fixpoint str_join (sep : str) (parts : list str) : str :=
  match parts with
  | [] => []
  | [p] => p
  | p :: rest => p ++ sep ++ str_join sep rest
  end.

(** [s.startswith(prefix)] *)
Fixpoint startswith (prefix s : str) : bool :=
  match prefix, s with
  | [], _ => true
  | _ :: _, [] => false
  | a :: prefix', b :: s' => bool_decide (a = b) && startswith prefix' s'
  end.

(** [needle in hay] on strings: some suffix of [hay] starts with [needle]. *)
Fixpoint contains (needle hay : str) : bool :=
  startswith needle hay ||
  match hay with
  | [] => false
  | _ :: hay' => contains needle hay'
  end.

(** [any(word in text for word in words)] *)
Definition any_in (words : list str) (text : str) : bool :=
  existsb (λ word, contains word text) words.

(** The case mapping of ASCII letters, on which [str.lower] agrees with it
    for text in the ASCII range. *)
Definition ascii_lower_char (c : char) : char :=
  if bool_decide (65 ≤ c ≤ 90)%N then (c + 32)%N else c.

Definition ascii_lower (s : str) : str := ascii_lower_char <$> s.

(** ** Dictionaries in insertion order *)

Section Dict.
Context {K V : Type} `{EqDecision K}.

(** [d.get(k)] *)
Fixpoint dict_get (d : list (K * V)) (k : K) : option V :=
  match d with
  | [] => None
  | (k', v) :: d' => if decide (k' = k) then Some v else dict_get d' k
  end.

(** [d[k] = f(d[k])] when [k] is present, [d[k] = f(dflt)] otherwise:
    the one step behind [d[k] = v], [defaultdict(list)[k].append(x)] and
    [defaultdict(int)[k] += 1]. *)
Fixpoint dict_upsert (k : K) (f : V → V) (dflt : V) (d : list (K * V))
  : list (K * V) :=
  match d with
  | [] => [(k, f dflt)]
  | (k', v) :: d' =>
      if decide (k' = k) then (k', f v) :: d'
      else (k', v) :: dict_upsert k f dflt d'
  end.

Definition dict_set (k : K) (v : V) (d : list (K * V)) : list (K * V) :=
  dict_upsert k (λ _, v) v d.

Definition dict_keys (d : list (K * V)) : list K := fst <$> d.
Definition dict_values (d : list (K * V)) : list V := snd <$> d.
End Dict.

(** [d.get(k, [])] *)
Definition get_list {K A : Type} `{EqDecision K}
    (d : list (K * list A)) (k : K) : list A :=
  default [] (dict_get d k).

(** ** Data model *)

(** One entry of [slides_data], as [TextExtractor._extract_from_slide]
    builds it; only the keys the detector reads. *)
Record SlideData := mkSlide {
  text : list str;
  numbers : list str;
  percentages : list str;
  currency : list str;
  dates : list str
}.

(** A finding: the dict with keys ['slide_numbers'], ['description'],
    ['severity'] and ['type'].  Findings of the rule-based scans carry all
    four; one coming from the oracle may lack any of them. *)
Record Finding := mkFinding {
  slide_numbers : option (list Z);
  description : option str;
  severity : option str;
  type : option str
}.

Global Instance Finding_eq_dec : EqDecision Finding.
Proof. solve_decision. Defined.

Abbreviation Slides := (list (Z * SlideData)) (only parsing).
Abbreviation FindingMap := (list (str * list Finding)) (only parsing).

(** *** JSON values *)

(** What [json.loads] returns: [None], a [bool], an [int], a [float], a
    [str], a [list] or a [dict] with its members in insertion order. *)
#[warnings="-register-all"] Inductive Json :=
| JNull
| JBool (b : bool)
| JInt (z : Z)
| JFloat (x : spec_float)
| JString (s : str)
| JArray (items : list Json)
| JObject (members : list (str * Json)).

(** [bool(value)] *)
Definition json_truthy (value : Json) : bool :=
  match value with
  | JNull => false
  | JBool b => b
  | JInt z => bool_decide (z ≠ 0)
  | JFloat (S754_zero _) => false
  | JFloat _ => true
  | JString s => bool_decide (s ≠ [])
  | JArray [] => false
  | JArray (_ :: _) => true
  | JObject [] => false
  | JObject (_ :: _) => true
  end.

(** [isinstance(value, dict) and key in value] *)
Definition dict_with_key (key : str) (value : Json) : bool :=
  match value with
  | JObject members => bool_decide (is_Some (dict_get members key))
  | _ => false
  end.

(** The dict [GeminiAnalyzer.analyze_inconsistencies] returns
    (['analysis_timestamp'], a clock reading, is left out).  The value
    under ['inconsistencies'] is of type [A]: [Json] as the analyzer
    returns it, lists of findings once decoded for the detector. *)
Record Analysis (A : Type) := mkAnalysis {
  ai_error : option str;
  ai_intelligence_report : option Json;
  ai_inconsistencies : option A;
  ai_analysis_type : option str;
  ai_slides_analyzed : option nat
}.

Global Arguments mkAnalysis {A} _ _ _ _ _.
Global Arguments ai_error {A} _.
Global Arguments ai_intelligence_report {A} _.
Global Arguments ai_inconsistencies {A} _.
Global Arguments ai_analysis_type {A} _.
Global Arguments ai_slides_analyzed {A} _.

(** The analysis as [InconsistencyDetector] reads it. *)
Abbreviation AiAnalysis := (Analysis (list (str * list Finding))).

(** The dict [_calculate_summary] returns. *)
Record Summary := mkSummary {
  total_slides : nat;
  slides_analyzed : nat;
  inconsistencies_found : nat;
  severity_breakdown : list (str * nat);
  category_breakdown : list (str * nat)
}.

(** The dict [detect_inconsistencies] returns. *)
Record DetectionResult := mkDetectionResult {
  summary : Summary;
  inconsistencies : FindingMap;
  rule_based_count : nat;
  ai_based_count : nat
}.

Definition categories : list str :=
  [py "numerical_conflicts"; py "contradictory_statements";
   py "timeline_issues"; py "logical_inconsistencies"].

(** [_get_empty_inconsistencies] *)
Definition _get_empty_inconsistencies : FindingMap :=
  [(py "numerical_conflicts", []); (py "contradictory_statements", []);
   (py "timeline_issues", []); (py "logical_inconsistencies", [])].

(** [sorted(l)] on integers. *)
Definition sorted (l : list Z) : list Z := merge_sort Z.le l.

Section Detector.
(** [str.lower] *)
Variable lower : str → str.

(** *** Reconciliation *)

(** The key of [_deduplicate_items]:
    [(tuple(sorted(item.get('slide_numbers', []))),
      item.get('description', '').lower()[:50])]. *)
Definition dedup_key (item : Finding) : list Z * str :=
  (sorted (default [] (slide_numbers item)),
   take 50 (lower (default [] (description item)))).

(** The loop of [_deduplicate_items], with its two accumulators. *)
Fixpoint dedup_loop (items unique_items : list Finding)
    (seen_combinations : gset (list Z * str)) : list Finding :=
  match items with
  | [] => unique_items
  | item :: items' =>
      let key := dedup_key item in
      if decide (key ∉ seen_combinations)
      then dedup_loop items' (unique_items ++ [item])
                      ({[ key ]} ∪ seen_combinations)
      else dedup_loop items' unique_items seen_combinations
  end.

Definition _deduplicate_items (items : list Finding) : list Finding :=
  dedup_loop items [] ∅.

(** The keys of a list of findings, as a set. *)
Definition keys_of (items : list Finding) : gset (list Z * str) :=
  list_to_set (dedup_key <$> items).

(** [_combine_results]: the loop over the four category names. *)
Definition _combine_results (rule_based ai_based : FindingMap) : FindingMap :=
  foldl (λ combined category,
           let rule_items := get_list rule_based category in
           let ai_items := get_list ai_based category in
           let all_items := rule_items ++ ai_items in
           let unique_items := _deduplicate_items all_items in
           dict_set category unique_items combined)
        [] categories.

(** *** Rule-based scans *)

(** [' '.join(slide_data['text']).lower()] *)
Definition slide_text_of (slide_data : SlideData) : str :=
  lower (str_join (py " ") (text slide_data)).

Definition revenue_words : list str :=
  [py "revenue"; py "sales"; py "income"; py "earnings"].
Definition percentage_words : list str :=
  [py "market share"; py "growth"; py "increase"; py "decrease"].
Definition quantity_words : list str :=
  [py "employees"; py "customers"; py "users"; py "units"].

(** One of the three inner loops of [_detect_numerical_conflicts]:
    [for value in values: if any(...): data[value].append(slide_num)]
    on a [defaultdict(list)]. *)
Definition collect (words : list str) (slide_text : str) (slide_num : Z)
    (values : list str) (data : list (str * list Z)) : list (str * list Z) :=
  foldl (λ data value,
           if any_in words slide_text
           then dict_upsert value (λ nums, nums ++ [slide_num]) [] data
           else data)
        data values.

(** The outer loop over [slides_data.items()]. *)
Definition collect_numerical (slides_data : Slides)
  : list (str * list Z) * list (str * list Z) * list (str * list Z) :=
  foldl (λ '(revenue_data, percentage_data, quantity_data) '(slide_num, slide_data),
           let slide_text := slide_text_of slide_data in
           (collect revenue_words slide_text slide_num
                    (currency slide_data) revenue_data,
            collect percentage_words slide_text slide_num
                    (percentages slide_data) percentage_data,
            collect quantity_words slide_text slide_num
                    (numbers slide_data) quantity_data))
        ([], [], []) slides_data.

(** The loop over the slides for one of the three groupings alone. *)
Definition collect_group (words : list str) (facts : SlideData → list str)
    (slides_data : Slides) (data : list (str * list Z)) : list (str * list Z) :=
  foldl (λ data '(slide_num, slide_data),
           collect words (slide_text_of slide_data) slide_num
                   (facts slide_data) data)
        data slides_data.

(** Well-formed groupings: keys pairwise different, no empty list. *)
Definition grouping_ok (data : list (str * list Z)) : Prop :=
  NoDup (dict_keys data) ∧ ∀ entry, entry ∈ data → entry.2 ≠ [].

(** The slide numbers the scan records for [value]: for each slide whose
    text has one of [words], its number once per occurrence of [value] in
    the fact list [facts] of the slide. *)
Definition occurrences (words : list str) (facts : SlideData → list str)
    (value : str) (slides_data : Slides) : list Z :=
  concat ((λ entry : Z * SlideData,
             if any_in words (slide_text_of entry.2)
             then replicate (length (filter (λ x, x = value) (facts entry.2)))
                            entry.1
             else [])
            <$> slides_data).

(** The slides, in the order of the mapping, whose text has one of [words]
    and whose fact list holds [value]. *)
Definition slides_stating (words : list str) (facts : SlideData → list str)
    (value : str) (slides_data : Slides) : list Z :=
  fst <$> filter (λ entry : Z * SlideData,
                    any_in words (slide_text_of entry.2) = true
                    ∧ value ∈ facts entry.2)
                 slides_data.

Definition conflict (what sev ty metric : str) (slide_nums : list Z) : Finding :=
  {| slide_numbers := Some slide_nums;
     description :=
       Some (py "Conflicting " ++ what ++ py ": " ++ metric
               ++ py " appears on multiple slides");
     severity := Some sev;
     type := Some ty |}.

(** One of the three reporting loops:
    [for metric, slide_nums in data.items(): if len(slide_nums) > 1: ...]. *)
Definition report_conflicts (what sev ty : str) (data : list (str * list Z))
    (conflicts : list Finding) : list Finding :=
  foldl (λ conflicts '(metric, slide_nums),
           if bool_decide (1 < length slide_nums)%nat
           then conflicts ++ [conflict what sev ty metric slide_nums]
           else conflicts)
        conflicts data.

Definition _detect_numerical_conflicts (slides_data : Slides) : list Finding :=
  let '(revenue_data, percentage_data, quantity_data) :=
    collect_numerical slides_data in
  let conflicts := [] in
  let conflicts :=
    report_conflicts (py "revenue figures") (py "high") (py "revenue_conflict")
                     revenue_data conflicts in
  let conflicts :=
    report_conflicts (py "percentage data") (py "high") (py "percentage_conflict")
                     percentage_data conflicts in
  report_conflicts (py "quantity data") (py "medium") (py "quantity_conflict")
                   quantity_data conflicts.

Definition contradiction_patterns : list (str * str * str) :=
  [ (py "highly competitive", py "few competitors", py "market competition");
    (py "growing market", py "declining market", py "market growth");
    (py "market leader", py "small player", py "market position");
    (py "increasing revenue", py "decreasing revenue", py "revenue trend");
    (py "profitable", py "unprofitable", py "profitability");
    (py "successful", py "unsuccessful", py "success");
    (py "strong performance", py "weak performance", py "performance");
    (py "cost reduction", py "heavy investment", py "strategy");
    (py "focus on efficiency", py "expand rapidly", py "approach");
    (py "conservative", py "aggressive", py "strategy");
    (py "launch in 2024", py "launch in 2025", py "launch timeline");
    (py "phase 1 complete", py "phase 1 ongoing", py "project status");
    (py "ahead of schedule", py "behind schedule", py "project timeline") ].

(** [all_text[slide_num] = slide_text] for every slide. *)
Definition collect_all_text (slides_data : Slides) : list (Z * str) :=
  foldl (λ all_text '(slide_num, slide_data),
           dict_set slide_num (slide_text_of slide_data) all_text)
        [] slides_data.

(** The inner loop over [all_text.items()] for one pattern pair. *)
Definition slides_with_patterns (pattern1 pattern2 : str)
    (all_text : list (Z * str)) : list Z * list Z :=
  foldl (λ '(slides_with_pattern1, slides_with_pattern2) '(slide_num, text),
           (if contains pattern1 text
            then slides_with_pattern1 ++ [slide_num] else slides_with_pattern1,
            if contains pattern2 text
            then slides_with_pattern2 ++ [slide_num] else slides_with_pattern2))
        ([], []) all_text.

Definition contradiction (pattern1 pattern2 context : str)
    (slide_nums : list Z) : Finding :=
  {| slide_numbers := Some slide_nums;
     description :=
       Some (py "Contradictory " ++ context ++ py ": '" ++ pattern1
               ++ py "' vs '" ++ pattern2 ++ py "'");
     severity := Some (py "high");
     type := Some (py "contradictory_statements") |}.

Definition _detect_contradictory_statements (slides_data : Slides)
  : list Finding :=
  let all_text := collect_all_text slides_data in
  foldl (λ contradictions '(pattern1, pattern2, context),
           let '(slides_with_pattern1, slides_with_pattern2) :=
             slides_with_patterns pattern1 pattern2 all_text in
           if bool_decide (slides_with_pattern1 ≠ [])
              && bool_decide (slides_with_pattern2 ≠ [])
           then contradictions
                  ++ [contradiction pattern1 pattern2 context
                        (slides_with_pattern1 ++ slides_with_pattern2)]
           else contradictions)
        [] contradiction_patterns.

(** The slides, in the order of the mapping, whose lowercased text contains
    [pattern]. *)
Definition slides_containing (pattern : str) (slides_data : Slides) : list Z :=
  fst <$> filter (λ entry, contains pattern (slide_text_of entry.2) = true)
                 slides_data.

(** What the scan is to report for one entry of the table. *)
Definition contradiction_of (slides_data : Slides)
    (entry : str * str * str) : list Finding :=
  let '(pattern1, pattern2, context) := entry in
  let slidesA := slides_containing pattern1 slides_data in
  let slidesB := slides_containing pattern2 slides_data in
  if bool_decide (slidesA ≠ []) && bool_decide (slidesB ≠ [])
  then [contradiction pattern1 pattern2 context (slidesA ++ slidesB)]
  else [].

Definition _detect_timeline_issues (slides_data : Slides) : list Finding :=
  let all_dates :=
    foldl (λ all_dates '(slide_num, slide_data),
             if bool_decide (dates slide_data ≠ [])
             then dict_set slide_num (dates slide_data) all_dates
             else all_dates)
          ([] : list (Z * list str)) slides_data in
  if bool_decide (1 < length all_dates)%nat
  then [ {| slide_numbers := Some (dict_keys all_dates);
            description :=
              Some (py "Multiple dates found across slides - potential timeline conflicts");
            severity := Some (py "medium");
            type := Some (py "timeline_issues") |} ]
  else [].

(** [results[category].extend(items)] *)
Definition extend (category : str) (items : list Finding)
    (results : FindingMap) : FindingMap :=
  dict_upsert category (λ old, old ++ items) [] results.

Definition _rule_based_detection (slides_data : Slides) : FindingMap :=
  let results := _get_empty_inconsistencies in
  let numerical_conflicts := _detect_numerical_conflicts slides_data in
  let results := extend (py "numerical_conflicts") numerical_conflicts results in
  let contradictory_statements := _detect_contradictory_statements slides_data in
  let results :=
    extend (py "contradictory_statements") contradictory_statements results in
  let timeline_issues := _detect_timeline_issues slides_data in
  extend (py "timeline_issues") timeline_issues results.


(** *** Oracle results, summary and the combined run *)

Definition _extract_ai_results (ai_analysis : AiAnalysis) : FindingMap :=
  if bool_decide (is_Some (ai_error ai_analysis))
  then _get_empty_inconsistencies
  else
    let inconsistencies := default [] (ai_inconsistencies ai_analysis) in
    [(py "numerical_conflicts",
      get_list inconsistencies (py "numerical_conflicts"));
     (py "contradictory_statements",
      get_list inconsistencies (py "contradictory_statements"));
     (py "timeline_issues",
      get_list inconsistencies (py "timeline_issues"));
     (py "logical_inconsistencies",
      get_list inconsistencies (py "logical_inconsistencies"))].

(** [sum(...)] on natural numbers. *)
Definition sum (l : list nat) : nat := foldr Nat.add 0%nat l.

(** [item.get('severity', 'unknown')] *)
Definition severity_label (item : Finding) : str :=
  default (py "unknown") (severity item).

Definition _calculate_summary (inconsistencies : FindingMap)
    (slides_data : Slides) : Summary :=
  let total_inconsistencies := sum (length <$> dict_values inconsistencies) in
  let severity_counts :=
    foldl (λ severity_counts category_items,
             foldl (λ severity_counts item,
                      let severity := severity_label item in
                      dict_upsert severity S 0%nat severity_counts)
                   severity_counts category_items)
          ([] : list (str * nat)) (dict_values inconsistencies) in
  let category_counts :=
    foldl (λ category_counts '(category, items),
             dict_set category (length items) category_counts)
          ([] : list (str * nat)) inconsistencies in
  {| total_slides := length slides_data;
     slides_analyzed := length slides_data;
     inconsistencies_found := total_inconsistencies;
     severity_breakdown := severity_counts;
     category_breakdown := category_counts |}.

Definition _flatten_inconsistencies (inconsistencies : FindingMap)
  : list Finding :=
  foldl (λ flattened category_items, flattened ++ category_items)
        [] (dict_values inconsistencies).

Definition detect_inconsistencies (slides_data : Slides)
    (ai_analysis : AiAnalysis) : DetectionResult :=
  let rule_based_results := _rule_based_detection slides_data in
  let ai_results := _extract_ai_results ai_analysis in
  let combined_results := _combine_results rule_based_results ai_results in
  let summary := _calculate_summary combined_results slides_data in
  {| summary := summary;
     inconsistencies := combined_results;
     rule_based_count := length (_flatten_inconsistencies rule_based_results);
     ai_based_count := length (_flatten_inconsistencies ai_results) |}.

End Detector.

(** ** Pattern matching as [re] does it

    A pattern is matched by backtracking: a greedy quantifier takes as
    much as it can and gives back on failure of what follows.  [rmatch r s k]
    matches [r] at the head of [s] and hands the rest of the text to the
    continuation [k]; the first success wins. *)

Inductive regex :=
| Cls (p : char → bool)
| Seq (r1 r2 : regex)
| Opt (r : regex)
| Star (r : regex).

Definition Chr (c : char) : regex := Cls (λ x, bool_decide (x = c)).
Definition Plus (r : regex) : regex := Seq r (Star r).

(** The loop of a greedy [*]: one more round of [body] as long as it
    consumes something, the continuation otherwise. *)
Fixpoint star_loop (body : str → (str → option str) → option str)
    (k : str → option str) (fuel : nat) (s : str) : option str :=
  match fuel with
  | O => k s
  | S fuel' =>
      match body s (λ s1, if bool_decide (length s1 < length s)%nat
                          then star_loop body k fuel' s1 else None) with
      | Some rest => Some rest
      | None => k s
      end
  end.

Fixpoint rmatch (r : regex) (s : str) (k : str → option str) : option str :=
  match r with
  | Cls p =>
      match s with
      | c :: s' => if p c then k s' else None
      | [] => None
      end
  | Seq r1 r2 => rmatch r1 s (λ s1, rmatch r2 s1 k)
  | Opt r1 =>
      match rmatch r1 s k with
      | Some rest => Some rest
      | None => k s
      end
  | Star r1 => star_loop (rmatch r1) k (length s) s
  end.

(** The words of a pattern. *)
Inductive matches : regex → str → Prop :=
| matches_cls p c : p c = true → matches (Cls p) [c]
| matches_seq r1 r2 w1 w2 :
    matches r1 w1 → matches r2 w2 → matches (Seq r1 r2) (w1 ++ w2)
| matches_opt_skip r : matches (Opt r) []
| matches_opt_take r w : matches r w → matches (Opt r) w
| matches_star_stop r : matches (Star r) []
| matches_star_more r w1 w2 :
    matches r w1 → matches (Star r) w2 → matches (Star r) (w1 ++ w2).

(** The text matched at the head of [s], if any. *)
Definition match_at (r : regex) (s : str) : option str :=
  rest ← rmatch r s Some; Some (take (length s - length rest) s).

(** [re.findall]: the matches from left to right, none overlapping; [skip]
    counts the characters still covered by the last match. *)
Fixpoint findall_from (r : regex) (s : str) (skip : nat) : list str :=
  match s with
  | [] =>
      match skip, match_at r [] with
      | O, Some m => [m]
      | _, _ => []
      end
  | _ :: s' =>
      match skip with
      | S skip' => findall_from r s' skip'
      | O =>
          match match_at r s with
          | Some m => m :: findall_from r s' (length m - 1)
          | None => findall_from r s' 0
          end
      end
  end.

Definition findall (r : regex) (s : str) : list str := findall_from r s 0.

(** The dict [extract_numbers_and_dates] returns. *)
Record Extracted := mkExtracted {
  number_matches : list str;
  percentage_matches : list str;
  currency_matches : list str;
  date_matches : list str
}.

(** The classes of [\d] and [\s] on the ASCII range. *)
Definition ascii_digit (c : char) : bool := bool_decide (48 ≤ c ≤ 57)%N.
Definition ascii_space (c : char) : bool :=
  bool_decide (9 ≤ c ≤ 13)%N || bool_decide (28 ≤ c ≤ 32)%N.

Section Helpers.
(** The classes [\d] and [\s] of a [str] pattern. *)
Variables isdigit isspace : char → bool.
(** [re.findall(pattern, text)] for the patterns with word boundaries and
    letters matched without regard to case. *)
Variable re_findall : str → str → list str.

Definition digit : regex := Cls isdigit.

(** [\d+(?:\.\d+)?\s*%] *)
Definition percentage_pattern : regex :=
  Seq (Plus digit)
      (Seq (Opt (Seq (Chr 46) (Plus digit)))
           (Seq (Star (Cls isspace)) (Chr 37))).

(** The symbols [$], the euro, pound and yen signs and the rupee sign. *)
Definition currency_symbol (c : char) : bool :=
  bool_decide (c ∈ [36; 8364; 163; 165; 8377]%N).

(** [[$...]\s*\d{1,3}(?:,\d{3})*(?:\.\d{2})?] *)
Definition currency_pattern : regex :=
  Seq (Cls currency_symbol)
      (Seq (Star (Cls isspace))
           (Seq (Seq digit (Opt (Seq digit (Opt digit))))
                (Seq (Star (Seq (Chr 44) (Seq digit (Seq digit digit))))
                     (Opt (Seq (Chr 46) (Seq digit digit)))))).

(** Shapes of a percentage entry: digits, optionally a point and digits,
    then [%] at once, or after white space. *)
Definition all_of (p : char → bool) (w : str) : Prop :=
  Forall (λ c, p c = true) w.

Definition is_number (w : str) : Prop :=
  ∃ ds frac,
    w = ds ++ frac ∧ ds ≠ [] ∧ all_of isdigit ds
    ∧ (frac = [] ∨ ∃ fs, frac = 46%N :: fs ∧ fs ≠ [] ∧ all_of isdigit fs).

Definition number_then_percent (w : str) : Prop :=
  ∃ n, w = n ++ [37%N] ∧ is_number n.

Definition number_space_percent (w : str) : Prop :=
  ∃ n ws, w = n ++ ws ++ [37%N] ∧ is_number n ∧ all_of isspace ws.

Definition number_pattern : str := py "\b\d+(?:,\d{3})*(?:\.\d+)?\b".

Definition date_patterns : list str :=
  [ py "\b\d{1,2}[/-]\d{1,2}[/-]\d{2,4}\b";
    py "\b\d{4}[/-]\d{1,2}[/-]\d{1,2}\b";
    py "\b(?:Jan|Feb|Mar|Apr|May|Jun|Jul|Aug|Sep|Oct|Nov|Dec)[a-z]*\s+\d{1,2},?\s+\d{4}\b";
    py "\b\d{1,2}\s+(?:Jan|Feb|Mar|Apr|May|Jun|Jul|Aug|Sep|Oct|Nov|Dec)[a-z]*\s+\d{4}\b" ].

Definition extract_numbers_and_dates (text : str) : Extracted :=
  if bool_decide (text = [])
  then {| number_matches := []; percentage_matches := [];
          currency_matches := []; date_matches := [] |}
  else
    let currency_matches := findall currency_pattern text in
    let percentage_matches := findall percentage_pattern text in
    let number_matches := re_findall number_pattern text in
    let date_matches :=
      foldl (λ date_matches pattern, date_matches ++ re_findall pattern text)
            [] date_patterns in
    {| number_matches := number_matches;
       percentage_matches := percentage_matches;
       currency_matches := currency_matches;
       date_matches := date_matches |}.

(** The slide record [_extract_from_slide] leaves for the detector: the
    fragments and the facts extracted from their concatenation. *)
Definition slide_of_text (fragments : list str) : SlideData :=
  let extracted_data := extract_numbers_and_dates (str_join (py " ") fragments) in
  {| text := fragments;
     numbers := number_matches extracted_data;
     percentages := percentage_matches extracted_data;
     currency := currency_matches extracted_data;
     dates := date_matches extracted_data |}.

End Helpers.

(** ** The oracle's answer *)

(** The reply of the API: [response['candidates']] when the key is there,
    each candidate with the text at [['content']['parts'][0]['text']] when
    that path exists. *)
Record Response := mkResponse {
  candidates : option (list (option str))
}.

(** [_get_empty_intelligence_report] *)
Definition _get_empty_intelligence_report : Json :=
  JObject
    [ (py "executive_summary",
       JObject
         [ (py "overall_risk_level", JString (py "low"));
           (py "data_integrity_score", JString (py "8/10"));
           (py "strategic_coherence_score", JString (py "8/10"));
           (py "stakeholder_confidence_impact", JString (py "low"));
           (py "critical_findings_count", JInt 0);
           (py "business_impact_assessment",
            JString (py "No significant issues detected")) ]);
      (py "detailed_analysis", JArray []);
      (py "strategic_recommendations", JArray []);
      (py "data_quality_assessment",
       JObject
         [ (py "reliability_score", JString (py "8/10"));
           (py "consistency_score", JString (py "8/10"));
           (py "completeness_score", JString (py "8/10"));
           (py "accuracy_indicators", JArray []);
           (py "data_gaps", JArray []);
           (py "verification_needs", JArray []) ]);
      (py "stakeholder_impact_analysis",
       JObject
         [ (py "investor_confidence", JString (py "high"));
           (py "employee_trust", JString (py "high"));
           (py "customer_perception", JString (py "high"));
           (py "regulatory_risk", JString (py "low")) ]) ].

(** [_extract_intelligence_from_text] *)
Definition _extract_intelligence_from_text (text : str) : Json :=
  _get_empty_intelligence_report.

(** The dict of the legacy branch of [_parse_analysis_response]:
    [{category: parsed_data.get(category, []), ...}]. *)
Definition legacy_dict (members : list (str * Json)) : Json :=
  JObject ((λ category,
              (category, default (JArray []) (dict_get members category)))
             <$> categories).

(** [s.endswith(suffix)] *)
Definition endswith (suffix s : str) : bool :=
  startswith (reverse suffix) (reverse s).

(** [text.replace(old, new)] for single characters. *)
Definition replace_char (old new : char) (text : str) : str :=
  (λ c, if bool_decide (c = old) then new else c) <$> text.

(** The first element on which [f] succeeds:
    [for x in l: try: return f(x) except: continue]. *)
Fixpoint first_success {A B : Type} (f : A → option B) (l : list A) : option B :=
  match l with
  | [] => None
  | x :: l' =>
      match f x with
      | Some y => Some y
      | None => first_success f l'
      end
  end.

Section Analyzer.
(** [json.loads]; [None] stands for [json.JSONDecodeError]. *)
Variable json_loads : str → option Json.
(** [re.findall(pattern, text, re.DOTALL)] and [re.sub(pattern, repl, text)]. *)
Variable re_findall : str → str → list str.
Variable re_sub : str → str → str → str.
(** [str.strip] *)
Variable strip : str → str.
(** The prompt built from the slides and sent by [_call_gemini_api]: the
    reply, or the message of the exception raised. *)
Variable _call_gemini_api : Slides → str + Response.

Definition _fix_common_json_issues (text : str) : str :=
  let text := re_sub (py "[^\w\s\{\}\[\]" ++ [34%N] ++ py ",:.-]+$") [] text in
  let text := re_sub (py ",(\s*[}\]])") (py "\1") text in
  let text := re_sub (py "(\w+):") ([34%N] ++ py "\1" ++ [34%N] ++ py ":") text in
  let text := replace_char 39%N 34%N text in
  re_sub (py "\s+") (py " ") text.

(** The [cleaned_text] of strategy 4. *)
Definition cleaned_text_of (text : str) : str :=
  let cleaned_text := strip text in
  let cleaned_text :=
    if startswith (py "```") cleaned_text
    then drop 3 cleaned_text else cleaned_text in
  let cleaned_text :=
    if endswith (py "```") cleaned_text
    then take (length cleaned_text - 3) cleaned_text else cleaned_text in
  strip cleaned_text.

Definition fenced_pattern : str := py "```(?:json)?\s*(\{.*?\})\s*```".
Definition object_pattern : str := py "\{[^{}]*(?:\{[^{}]*\}[^{}]*)*\}".

Definition _robust_json_parse (text : str) : option Json :=
  (* Strategy 1: direct parse *)
  match json_loads text with
  | Some parsed => Some parsed
  | None =>
  (* Strategy 2: the first fenced code block *)
  let matches := re_findall fenced_pattern text in
  match match matches with m :: _ => json_loads m | [] => None end with
  | Some parsed => Some parsed
  | None =>
  (* Strategy 3: the first brace-balanced substring that parses *)
  let matches := re_findall object_pattern text in
  match first_success json_loads matches with
  | Some parsed => Some parsed
  | None =>
  (* Strategy 4: without the surrounding fence markers *)
  match json_loads (cleaned_text_of text) with
  | Some parsed => Some parsed
  | None =>
  (* Strategy 5: after the repair pass *)
  let fixed_text := _fix_common_json_issues text in
  json_loads fixed_text
  end end end end.

(** Every strategy of [_robust_json_parse] ends in [json.JSONDecodeError]. *)
Definition all_strategies_fail (text : str) : Prop :=
  json_loads text = None
  ∧ (∀ m, head (re_findall fenced_pattern text) = Some m → json_loads m = None)
  ∧ (∀ m, m ∈ re_findall object_pattern text → json_loads m = None)
  ∧ json_loads (cleaned_text_of text) = None
  ∧ json_loads (_fix_common_json_issues text) = None.

(** The [try] block of [_parse_analysis_response]; [None] when it raises.
    On a truthy value that is no dict it does: ['intelligence_report' in
    parsed_data] raises on a number or [True], and on a list or a string
    either the indexing that follows or [parsed_data.get] does. *)
Definition parse_response_body (response : Response) : option Json :=
  match candidates response with
  | Some (candidate :: _) =>
      text ← candidate;
      match _robust_json_parse text with
      | Some parsed_data =>
          if json_truthy parsed_data
          then
            match parsed_data with
            | JObject members =>
                match dict_get members (py "intelligence_report") with
                | Some report => Some report
                | None => Some (legacy_dict members)
                end
            | _ => None
            end
          else Some (_extract_intelligence_from_text text)
      | None => Some (_extract_intelligence_from_text text)
      end
  | _ => Some _get_empty_intelligence_report
  end.

Definition _parse_analysis_response (response : Response) : Json :=
  match parse_response_body response with
  | Some report => report
  | None => _get_empty_intelligence_report
  end.

Definition analyze_inconsistencies (api_key : option str)
    (slides_data : Slides) : Analysis Json :=
  if bool_decide (default [] api_key = [])
  then {| ai_error := Some (py "No API key available");
          ai_intelligence_report := None; ai_inconsistencies := None;
          ai_analysis_type := None; ai_slides_analyzed := None |}
  else
    match _call_gemini_api slides_data with
    | inl e =>
        {| ai_error := Some e;
           ai_intelligence_report := None; ai_inconsistencies := None;
           ai_analysis_type := None; ai_slides_analyzed := None |}
    | inr response =>
        let intelligence_report := _parse_analysis_response response in
        if dict_with_key (py "executive_summary") intelligence_report
        then {| ai_error := None;
                ai_intelligence_report := Some intelligence_report;
                ai_inconsistencies := None;
                ai_analysis_type := Some (py "intelligence");
                ai_slides_analyzed := Some (length slides_data) |}
        else {| ai_error := None;
                ai_intelligence_report := None;
                ai_inconsistencies := Some intelligence_report;
                ai_analysis_type := Some (py "legacy");
                ai_slides_analyzed := Some (length slides_data) |}
    end.

End Analyzer.

(** ** From the oracle's values to findings

    [detect_inconsistencies] receives what the oracle sent as it is.  The
    functions below say what becomes of a JSON value where the detector
    reads it: it is a value of the data model ([Returns]), or the detector
    raises on it ([Raises]), or it is neither ([Unmodelled]): the detector
    may go on with it, but not as a finding of the data model. *)

Inductive Outcome (A : Type) :=
| Returns (a : A)
| Raises
| Unmodelled.

Global Arguments Returns {A} a.
Global Arguments Raises {A}.
Global Arguments Unmodelled {A}.

(** Two steps that are both carried out unless one raises: an exception in
    either is an exception of the whole. *)
Definition outcome_both {A B C : Type} (f : A → B → C)
    (first : Outcome A) (second : Outcome B) : Outcome C :=
  match first, second with
  | Raises, _ => Raises
  | _, Raises => Raises
  | Unmodelled, _ => Unmodelled
  | _, Unmodelled => Unmodelled
  | Returns a, Returns b => Returns (f a b)
  end.

Definition outcome_map {A B : Type} (f : A → B) (o : Outcome A) : Outcome B :=
  match o with
  | Returns a => Returns (f a)
  | Raises => Raises
  | Unmodelled => Unmodelled
  end.

Definition outcome_list {A : Type} (steps : list (Outcome A)) : Outcome (list A) :=
  foldr (outcome_both cons) (Returns []) steps.

(** [item.get('slide_numbers', [])], which [_deduplicate_items] sorts and
    hashes: a list of integers in the data model. *)
Definition decode_slide_numbers (field : option Json) : Outcome (option (list Z)) :=
  match field with
  | None => Returns None
  | Some (JArray items) =>
      match mapM (λ item, match item with JInt z => Some z | _ => None end) items with
      | Some slide_nums => Returns (Some slide_nums)
      | None => Unmodelled
      end
  | Some _ => Unmodelled
  end.

(** [item.get('description', '').lower()]: only a [str] has [lower]. *)
Definition decode_description (field : option Json) : Outcome (option str) :=
  match field with
  | None => Returns None
  | Some (JString description) => Returns (Some description)
  | Some _ => Raises
  end.

(** [item.get('severity', 'unknown')], a key of the severity counts, and
    the value under ['type']: strings in the data model. *)
Definition decode_label (field : option Json) : Outcome (option str) :=
  match field with
  | None => Returns None
  | Some (JString label) => Returns (Some label)
  | Some _ => Unmodelled
  end.

(** One item of a list of findings: [item.get] needs a dict. *)
Definition decode_finding (item : Json) : Outcome Finding :=
  match item with
  | JObject members =>
      outcome_both (λ '(slide_nums, descr) '(sev, ty), mkFinding slide_nums descr sev ty)
        (outcome_both pair
           (decode_slide_numbers (dict_get members (py "slide_numbers")))
           (decode_description (dict_get members (py "description"))))
        (outcome_both pair
           (decode_label (dict_get members (py "severity")))
           (decode_label (dict_get members (py "type"))))
  | _ => Raises
  end.

(** The value under a category: [rule_items + ai_items] needs a list. *)
Definition decode_findings (value : Json) : Outcome (list Finding) :=
  match value with
  | JArray items => outcome_list (decode_finding <$> items)
  | _ => Raises
  end.

(** The value under ['inconsistencies']: [inconsistencies.get] needs a
    dict, of which the four categories are read. *)
Definition decode_inconsistencies (value : Json) : Outcome (list (str * list Finding)) :=
  match value with
  | JObject members =>
      outcome_list
        ((λ category,
            outcome_map (pair category)
              (decode_findings (default (JArray []) (dict_get members category))))
           <$> categories)
  | _ => Raises
  end.

(** The analysis with the value under ['inconsistencies'] decoded; with
    ['error'] in the analysis that value is not read. *)
Definition typed_analysis (ai_analysis : Analysis Json) : Outcome AiAnalysis :=
  let with_lists (lists : option (list (str * list Finding))) : AiAnalysis :=
    {| ai_error := ai_error ai_analysis;
       ai_intelligence_report := ai_intelligence_report ai_analysis;
       ai_inconsistencies := lists;
       ai_analysis_type := ai_analysis_type ai_analysis;
       ai_slides_analyzed := ai_slides_analyzed ai_analysis |} in
  if bool_decide (is_Some (ai_error ai_analysis))
  then Returns (with_lists None)
  else
    match ai_inconsistencies ai_analysis with
    | None => Returns (with_lists None)
    | Some value => outcome_map (λ lists, with_lists (Some lists))
                                (decode_inconsistencies value)
    end.

(** ** The dispatch of [main] *)

(** What [main] binds to [results]: the dict of the detector or the report
    of the oracle. *)
Inductive Results :=
| Detection (result : DetectionResult)
| Intelligence (report : Json).

(** [{}] as the second argument of [detect_inconsistencies]. *)
Definition no_analysis : AiAnalysis :=
  {| ai_error := None; ai_intelligence_report := None;
     ai_inconsistencies := None; ai_analysis_type := None;
     ai_slides_analyzed := None |}.

(** Lines 161-174 of [main].  [ai_analysis['intelligence_report']] raises
    [KeyError] when the key is missing. *)
Definition main_results (lower : str → str) (slides_data : Slides)
    (ai_analysis : Analysis Json) : Outcome Results :=
  if bool_decide (is_Some (ai_error ai_analysis))
  then Returns (Detection (detect_inconsistencies lower slides_data no_analysis))
  else if bool_decide (ai_analysis_type ai_analysis = Some (py "intelligence"))
  then match ai_intelligence_report ai_analysis with
       | Some report => Returns (Intelligence report)
       | None => Raises
       end
  else outcome_map (λ typed, Detection (detect_inconsistencies lower slides_data typed))
                   (typed_analysis ai_analysis).


(** ** Further notions for the rule-based scans *)

(** The slides, in the order of the mapping, that carry a date. *)
Definition slides_with_dates (slides_data : Slides) : list Z :=
  fst <$> filter (λ entry : Z * SlideData, dates entry.2 ≠ []) slides_data.

(** All findings of a mapping, whatever their category. *)
Definition all_findings (m : FindingMap) : list Finding :=
  concat (dict_values m).

(** ** Further functions of [utils/helpers.py] and [core/extractor.py] *)

(** [text.replace(c, '')] for a single character. *)
Definition remove_char (c : char) (text : str) : str :=
  filter (λ x, x ≠ c) text.

(** [re.sub(pattern, repl, text)] for a pattern that matches no empty text:
    each match, from left to right and none overlapping, is replaced by
    [repl]; [skip] counts the characters still covered by the last match. *)
Fixpoint sub_from (r : regex) (repl : str) (s : str) (skip : nat) : str :=
  match s with
  | [] => []
  | c :: s' =>
      match skip with
      | S skip' => sub_from r repl s' skip'
      | O =>
          match match_at r s with
          | Some (_ :: m') => repl ++ sub_from r repl s' (length m')
          | _ => c :: sub_from r repl s' 0
          end
      end
  end.

Definition sub (r : regex) (repl : str) (s : str) : str := sub_from r repl s 0.

Section FurtherHelpers.
(** The classes [\d], [\s] and [\w] of a [str] pattern; [\s] is also the
    white space of [str.strip] and [str.split]. *)
Variables isdigit isspace isword : char → bool.
(** [str.lower] *)
Variable lower : str → str.
(** Whether [float(text)] succeeds. *)
Variable float_ok : str → bool.

(** Shape of a currency entry: symbol, white space, one to three digits,
    groups of a comma and three digits, and possibly a point and two
    digits. *)
Definition is_currency_amount (w : str) : Prop :=
  ∃ symbol ws lead groups cents,
    w = symbol :: ws ++ lead ++ concat groups ++ cents
    ∧ currency_symbol symbol = true
    ∧ all_of isspace ws
    ∧ (1 ≤ length lead ≤ 3)%nat ∧ all_of isdigit lead
    ∧ Forall (λ g, ∃ ds, g = 44%N :: ds ∧ length ds = 3%nat ∧ all_of isdigit ds)
             groups
    ∧ (cents = [] ∨ ∃ ds, cents = 46%N :: ds ∧ length ds = 2%nat
                          ∧ all_of isdigit ds).

(** [s.lstrip()], [s.rstrip()] and [s.strip()] *)
Fixpoint lstrip (s : str) : str :=
  match s with
  | [] => []
  | c :: s' => if isspace c then lstrip s' else s
  end.

Definition rstrip (s : str) : str := reverse (lstrip (reverse s)).

Definition str_strip (s : str) : str := rstrip (lstrip s).

(** [s.split()]: the maximal runs of characters that are not white space;
    [word] is the run being read. *)
Fixpoint split_from (s word : str) : list str :=
  match s with
  | [] => if bool_decide (word = []) then [] else [word]
  | c :: s' =>
      if isspace c
      then if bool_decide (word = []) then split_from s' []
           else word :: split_from s' []
      else split_from s' (word ++ [c])
  end.

Definition str_split (s : str) : list str := split_from s [].

(** The characters the second substitution of [clean_text] leaves:
    [\w], [\s] and [. , % $], the euro, pound, yen and rupee signs,
    [- ( )]. *)
Definition kept_by_clean_text (c : char) : bool :=
  isword c || isspace c
  || bool_decide (c ∈ [46; 44; 37; 36; 8364; 163; 165; 8377; 45; 40; 41]%N).

Definition clean_text (text : str) : str :=
  if bool_decide (text = []) then []
  else
    let text := sub (Plus (Cls isspace)) (py " ") (str_strip text) in
    sub (Cls (λ c, negb (kept_by_clean_text c))) [] text.

(** [_normalize_number], [_normalize_percentage] and [_normalize_currency]
    of the detector. *)
Definition _normalize_number (number_str : str) : str :=
  let cleaned := remove_char 44 number_str in
  if float_ok cleaned then cleaned else [].

Definition _normalize_percentage (percentage_str : str) : str :=
  let cleaned := str_strip (remove_char 37 percentage_str) in
  if float_ok cleaned then cleaned else [].

Definition _normalize_currency (currency_str : str) : str :=
  let cleaned :=
    str_strip
      (remove_char 44
         (remove_char 8377
            (remove_char 165
               (remove_char 163 (remove_char 8364 (remove_char 36 currency_str))))))
  in
  if float_ok cleaned then cleaned else [].

(** The test of [_categorize_text] for a title. *)
Definition is_title (text : str) : bool :=
  bool_decide (length (str_split text) ≤ 10)%nat
  && any_in [py "title"; py "heading"; py "slide"] (lower text).

(** [_categorize_text]: the loop over [slide_data['text']], appending to
    [slide_data['titles']] and [slide_data['body_text']]. *)
Definition _categorize_text (texts titles body_text : list str)
  : list str * list str :=
  foldl (λ '(titles, body_text) text,
           if bool_decide (text = []) then (titles, body_text)
           else if is_title text then (titles ++ [text], body_text)
           else (titles, body_text ++ [text]))
        (titles, body_text) texts.

(** [_extract_from_table]: a table as the rows of the texts of its cells. *)
Definition _extract_from_table (table : list (list str)) : str :=
  let table_text :=
    foldl (λ table_text row,
             let row_text :=
               foldl (λ row_text cell,
                        if bool_decide (str_strip cell ≠ [])
                        then row_text ++ [str_strip cell] else row_text)
                     [] row in
             if bool_decide (row_text ≠ [])
             then table_text ++ [str_join (py " | ") row_text]
             else table_text)
          [] table in
  str_join (py " | ") table_text.

End FurtherHelpers.

(** ** The slide range of [main] *)

(** [max(slides_data.keys())]; [None] stands for the [ValueError] on an
    empty mapping. *)
Definition max_key (slides_data : Slides) : option Z :=
  match dict_keys slides_data with
  | [] => None
  | k :: ks => Some (foldl Z.max k ks)
  end.

(** An optional integer argument used as a condition: absent and 0 are
    false. *)
Definition given (arg : option Z) : bool :=
  match arg with
  | Some z => bool_decide (z ≠ 0)
  | None => false
  end.

(** Lines 137-146 of [main]. *)
Definition filter_slides (start_slide end_slide : option Z)
    (slides_data : Slides) : option Slides :=
  if given start_slide || given end_slide
  then
    let start := if given start_slide then default 1 start_slide else 1 in
    end_ ← (if given end_slide then end_slide else max_key slides_data);
    Some (foldl (λ filtered_slides '(slide_num, slide_data),
                   if bool_decide (start ≤ slide_num ≤ end_)
                   then dict_set slide_num slide_data filtered_slides
                   else filtered_slides)
                [] slides_data)
  else Some slides_data.

(** ** The run of [main] up to the binding of [results] *)

(** How [main] gets to line 174: [results] is bound; or the process has
    exited before, at a guard or in a handler of [main] after an exception;
    or, with a value outside the data model, the run is beyond this
    development. *)
Inductive Run :=
| Bound (results : Results)
| Exit (status : Z)
| NotModelled.

Section Main.
Variable lower : str → str.
Variable json_loads : str → option Json.
Variable re_findall : str → str → list str.
Variable re_sub : str → str → str → str.
Variable strip : str → str.
Variable _call_gemini_api : Slides → str + Response.

(** The texts the five strategies hand to [json.loads], in the order in
    which they are tried: the reply, the first fenced block, the
    brace-balanced substrings, the reply without its fence markers, the
    repaired reply. *)
Definition candidate_texts (text : str) : list str :=
  text :: option_list (head (re_findall fenced_pattern text))
       ++ re_findall object_pattern text
       ++ [cleaned_text_of strip text; _fix_common_json_issues re_sub text].

(** What is parsed from a reply: what [json.loads] makes of the first of
    these texts that it accepts. *)
Definition parsed_from (text : str) : option Json :=
  first_success json_loads (candidate_texts text).

(** Nothing to read in the reply: no candidate, a first candidate without
    text, a text of which nothing is parsed, or of which a falsy value or a
    value that is no object is parsed. *)
Definition no_usable_object (response : Response) : Prop :=
  candidates response = None
  ∨ candidates response = Some []
  ∨ (∃ others, candidates response = Some (None :: others))
  ∨ (∃ text others,
       candidates response = Some (Some text :: others)
       ∧ (parsed_from text = None
          ∨ ∃ parsed,
              parsed_from text = Some parsed
              ∧ (json_truthy parsed = false
                 ∨ ∀ members, parsed ≠ JObject members))).

(** Lines 117-174 of [main], from the slides the extractor returned: the
    two guards, the slide range, the analysis and the dispatch. *)
Definition main_run (api_key : option str) (start_slide end_slide : option Z)
    (slides_data : Slides) : Run :=
  if bool_decide (default [] api_key = []) then Exit 1
  else
    match slides_data with
    | [] => Exit 1
    | _ :: _ =>
        match filter_slides start_slide end_slide slides_data with
        | None => Exit 1
        | Some slides_data =>
            let ai_analysis :=
              analyze_inconsistencies json_loads re_findall re_sub strip
                                      _call_gemini_api api_key slides_data in
            match main_results lower slides_data ai_analysis with
            | Returns results => Bound results
            | Raises => Exit 1
            | Unmodelled => NotModelled
            end
        end
    end.

End Main.

(** ** Sample data *)


Definition finding_A : Finding :=
  {| slide_numbers := Some [1; 2]; description := Some (py "Revenue differs");
     severity := Some (py "high"); type := Some (py "revenue_conflict") |}.
Definition finding_B : Finding :=
  {| slide_numbers := Some [2; 4]; description := Some (py "Launch date differs");
     severity := Some (py "medium"); type := None |}.
(** The same slides in another order and the same description in another
    case: the key of [finding_B]. *)
Definition finding_B' : Finding :=
  {| slide_numbers := Some [4; 2]; description := Some (py "LAUNCH DATE DIFFERS");
     severity := Some (py "low"); type := None |}.
Definition finding_C : Finding :=
  {| slide_numbers := None; description := None; severity := None; type := None |}.

Definition sample_rule : FindingMap :=
  [(py "numerical_conflicts", [finding_A; finding_B])].
Definition sample_ai : FindingMap :=
  [(py "numerical_conflicts", [finding_B'; finding_C])].

Definition slide_1 : SlideData :=
  {| text := [py "Revenue increased to $500,000"];
     numbers := [py "500,000"]; percentages := [];
     currency := [py "$500,000"]; dates := [] |}.
Definition slide_3 : SlideData :=
  {| text := [py "Total revenue: $500,000"];
     numbers := [py "500,000"]; percentages := [];
     currency := [py "$500,000"]; dates := [] |}.
Definition sample_slides : Slides := [(1, slide_1); (3, slide_3)].

(** The analysis returned when the request to the oracle failed. *)
Definition sample_error : Analysis Json :=
  {| ai_error := Some (py "HTTPSConnectionPool: Max retries exceeded");
     ai_intelligence_report := None; ai_inconsistencies := None;
     ai_analysis_type := None; ai_slides_analyzed := None |}.

Definition slide_2 : SlideData :=
  {| text := [py "We are in a highly competitive market"];
     numbers := []; percentages := []; currency := []; dates := [] |}.
Definition slide_5 : SlideData :=
  {| text := [py "There are few competitors in this space"];
     numbers := []; percentages := []; currency := []; dates := [] |}.
Definition contradiction_slides : Slides := [(2, slide_2); (5, slide_5)].

(** An interpreter in which nothing parses as JSON, and a reply that is
    plain prose. *)
Definition nothing_parses : str → option Json := λ _, None.
Definition no_matches : str → str → list str := λ _ _, [].
Definition sub_nothing : str → str → str → str := λ _ _ text, text.
Definition strip_nothing : str → str := λ text, text.
Definition prose_reply : Response :=
  {| candidates := Some [Some (py "I could not analyse these slides.")] |}.

(** A slide that states one revenue figure twice. *)
Definition repeated_figure : list str := [py "Revenue $500 and sales $500"].

(** A slide with the word "unprofitable", which contains "profitable". *)
Definition slide_4 : SlideData :=
  {| text := [py "The unit was unprofitable last year"];
     numbers := []; percentages := []; currency := []; dates := [] |}.

(** Three slides, two of them with a date. *)
Definition dated_slides : Slides :=
  [ (1, {| text := [py "Kick-off on 01/02/2024"]; numbers := []; percentages := [];
           currency := []; dates := [py "01/02/2024"] |});
    (2, {| text := [py "Team"]; numbers := []; percentages := [];
           currency := []; dates := [] |});
    (3, {| text := [py "Launch on 2024-06-30"]; numbers := []; percentages := [];
           currency := []; dates := [py "2024-06-30"] |}) ].

(** The finding of the timeline scan on [dated_slides]. *)
Definition timeline_finding : Finding :=
  {| slide_numbers := Some [1; 3];
     description :=
       Some (py "Multiple dates found across slides - potential timeline conflicts");
     severity := Some (py "medium");
     type := Some (py "timeline_issues") |}.

(** The finding of the numerical scan on [sample_slides]. *)
Definition revenue_finding : Finding :=
  {| slide_numbers := Some [1; 3];
     description :=
       Some (py "Conflicting revenue figures: $500,000 appears on multiple slides");
     severity := Some (py "high");
     type := Some (py "revenue_conflict") |}.

(** The class [\w] on the ASCII range: letters, digits and the underscore. *)
Definition ascii_word (c : char) : bool :=
  ascii_digit c || bool_decide (65 ≤ c ≤ 90)%N || bool_decide (97 ≤ c ≤ 122)%N
  || bool_decide (c = 95)%N.

(** A text with white space at both ends, a run of spaces and characters
    that [clean_text] removes. *)
Definition untidy_text : str := py "  Revenue:  $500 (up 5%)! ".

(** ** Replies of the oracle *)

(** A JSON string literal. *)
Definition quoted (s : string) : str := [34%N] ++ py s ++ [34%N].

(** A reply in the legacy shape, with one list of two findings. *)
Definition legacy_text : str :=
  py "{" ++ quoted "numerical_conflicts" ++ py ": [{"
    ++ quoted "slide_numbers" ++ py ": [4, 2], "
    ++ quoted "description" ++ py ": " ++ quoted "LAUNCH DATE DIFFERS" ++ py ", "
    ++ quoted "severity" ++ py ": " ++ quoted "low" ++ py "}, {}]}".
Definition legacy_members : list (str * Json) :=
  [ (py "numerical_conflicts",
     JArray [ JObject [ (py "slide_numbers", JArray [JInt 4; JInt 2]);
                        (py "description", JString (py "LAUNCH DATE DIFFERS"));
                        (py "severity", JString (py "low")) ];
              JObject [] ]) ].

(** The empty object. *)
Definition empty_object_text : str := py "{}".

(** A report in the intelligence shape. *)
Definition intelligence_text : str :=
  py "{" ++ quoted "intelligence_report" ++ py ": {"
    ++ quoted "executive_summary" ++ py ": {"
    ++ quoted "overall_risk_level" ++ py ": " ++ quoted "high" ++ py "}}}".
Definition sample_report : Json :=
  JObject [ (py "executive_summary",
             JObject [ (py "overall_risk_level", JString (py "high")) ]) ].

(** Objects with a [null] where the detector reads. *)
Definition null_report_text : str :=
  py "{" ++ quoted "intelligence_report" ++ py ": null}".
Definition null_description_text : str :=
  py "{" ++ quoted "numerical_conflicts" ++ py ": [{"
    ++ quoted "slide_numbers" ++ py ": [1], "
    ++ quoted "description" ++ py ": null}]}".
Definition null_description_members : list (str * Json) :=
  [ (py "numerical_conflicts",
     JArray [ JObject [ (py "slide_numbers", JArray [JInt 1]);
                        (py "description", JNull) ] ]) ].

(** [json.loads] on these texts. *)
Definition sample_json_loads : str → option Json :=
  λ text,
    if bool_decide (text = legacy_text) then Some (JObject legacy_members)
    else if bool_decide (text = empty_object_text) then Some (JObject [])
    else if bool_decide (text = intelligence_text)
    then Some (JObject [(py "intelligence_report", sample_report)])
    else if bool_decide (text = null_report_text)
    then Some (JObject [(py "intelligence_report", JNull)])
    else if bool_decide (text = null_description_text)
    then Some (JObject null_description_members)
    else None.

(** The reply with one candidate, and an API that gives it. *)
Definition reply_of (text : str) : Response := {| candidates := Some [Some text] |}.
Definition answers (response : Response) : Slides → str + Response :=
  λ _, inr response.

(** The findings of [legacy_members]. *)
Definition legacy_findings (category : str) : list Finding :=
  if bool_decide (category = py "numerical_conflicts")
  then [finding_B'; finding_C] else [].

(** * Properties *)

(** ** Dictionaries *)

Section DictFacts.
Context {K V : Type} `{EqDecision K}.
Implicit Types (d : list (K * V)) (k : K).

Lemma dict_upsert_fresh k (f : V → V) dflt d :
  k ∉ dict_keys d → dict_upsert k f dflt d = d ++ [(k, f dflt)].
Proof.
  induction d as [|[k' v] d IH]; simpl; [done|].
  intros Hk. apply not_elem_of_cons in Hk as [Hne Hk].
  case_decide; [congruence|]. by rewrite IH.
Qed.

Lemma dict_get_upsert k k' (f : V → V) dflt d :
  dict_get (dict_upsert k f dflt d) k' =
  if decide (k = k') then Some (f (default dflt (dict_get d k)))
  else dict_get d k'.
Proof.
  induction d as [|[k0 v] d IH]; simpl.
  - repeat case_decide; congruence.
  - destruct (decide (k0 = k)) as [->|Hne]; simpl.
    + repeat case_decide; congruence.
    + rewrite IH. repeat case_decide; congruence.
Qed.

Lemma dict_keys_upsert_present k (f : V → V) dflt d :
  k ∈ dict_keys d → dict_keys (dict_upsert k f dflt d) = dict_keys d.
Proof.
  induction d as [|[k0 v] d IH]; simpl; [by intros ?%elem_of_nil|].
  intros Hk. case_decide; [done|]. simpl. f_equal. apply IH.
  apply elem_of_cons in Hk as [->|Hk]; [congruence|done].
Qed.

(** Setting the keys of a duplicate-free list one after the other builds
    the dict that lists them in that order. *)
Lemma foldl_dict_set (f : K → V) (ks : list K) d :
  NoDup ks → (∀ k, k ∈ ks → k ∉ dict_keys d) →
  foldl (λ acc k, dict_set k (f k) acc) d ks = d ++ ((λ k, (k, f k)) <$> ks).
Proof.
  revert d. induction ks as [|k ks IH]; intros d Hnd Hfresh; simpl.
  - by rewrite app_nil_r.
  - apply NoDup_cons in Hnd as [Hk Hnd].
    unfold dict_set at 2. rewrite dict_upsert_fresh by (apply Hfresh; left).
    rewrite IH; [by rewrite <- app_assoc|done|].
    intros k' Hk'. unfold dict_keys. rewrite fmap_app, elem_of_app. simpl.
    intros [Hin|Hin%list_elem_of_singleton].
    + by apply (Hfresh k'); [right|].
    + congruence.
Qed.

Lemma dict_get_fmap_keys (f : K → V) (ks : list K) k :
  k ∈ ks → dict_get ((λ k, (k, f k)) <$> ks) k = Some (f k).
Proof.
  induction ks as [|k0 ks IH]; simpl; [by intros ?%elem_of_nil|].
  intros Hk. case_decide; [congruence|]. apply IH.
  apply elem_of_cons in Hk as [->|Hk]; [congruence|done].
Qed.
End DictFacts.

Lemma sum_app (l1 l2 : list nat) : sum (l1 ++ l2) = (sum l1 + sum l2)%nat.
Proof. unfold sum. induction l1; simpl; lia. Qed.

Lemma NoDup_fmap_same {A B : Type} (f : A → B) (l : list A) (x y : A) :
  NoDup (f <$> l) → x ∈ l → y ∈ l → f x = f y → x = y.
Proof.
  induction l as [|a l IH]; [by intros _ ?%elem_of_nil|].
  rewrite fmap_cons, NoDup_cons.
  intros [Ha Hnd] [->|Hx]%elem_of_cons [->|Hy]%elem_of_cons Heq; try done.
  - destruct Ha. rewrite Heq. by apply list_elem_of_fmap_2.
  - destruct Ha. rewrite <- Heq. by apply list_elem_of_fmap_2.
  - by apply IH.
Qed.

Lemma categories_NoDup : NoDup categories.
Proof. apply (bool_decide_unpack (NoDup categories)). by vm_compute. Qed.

(** ** Reconciliation *)

Section Reconciliation.
Variable lower : str → str.
Implicit Types (item : Finding) (items : list Finding)
  (seen : gset (list Z * str)).

Lemma dedup_loop_acc items acc seen :
  dedup_loop lower items acc seen = acc ++ dedup_loop lower items [] seen.
Proof.
  revert acc seen. induction items as [|item items IH]; intros acc seen; simpl.
  - by rewrite app_nil_r.
  - case_decide; [|apply IH].
    rewrite IH, (IH [item]). by rewrite <- app_assoc.
Qed.

Lemma dedup_loop_cons item items seen :
  dedup_loop lower (item :: items) [] seen =
  if decide (dedup_key lower item ∈ seen) then dedup_loop lower items [] seen
  else item :: dedup_loop lower items [] ({[dedup_key lower item]} ∪ seen).
Proof.
  simpl. destruct (decide (dedup_key lower item ∈ seen)) as [Hin|Hnin].
  - rewrite decide_False; [done|]. by intros ?.
  - rewrite decide_True by done. by rewrite dedup_loop_acc.
Qed.

Lemma dedup_loop_app items1 items2 seen :
  dedup_loop lower (items1 ++ items2) [] seen =
  dedup_loop lower items1 [] seen
    ++ dedup_loop lower items2 [] (keys_of lower items1 ∪ seen).
Proof.
  revert seen. induction items1 as [|item items1 IH]; intros seen.
  - simpl. f_equal. unfold keys_of. set_solver.
  - rewrite <- app_comm_cons, !dedup_loop_cons. case_decide.
    + rewrite IH. do 2 f_equal. unfold keys_of. set_solver.
    + rewrite IH. simpl. do 3 f_equal. unfold keys_of. set_solver.
Qed.

Lemma dedup_loop_all_seen items seen :
  (∀ item, item ∈ items → dedup_key lower item ∈ seen) →
  dedup_loop lower items [] seen = [].
Proof.
  induction items as [|item items IH]; intros Hseen; [done|].
  rewrite dedup_loop_cons. rewrite decide_True by (apply Hseen; left).
  apply IH. intros ? ?. apply Hseen. by right.
Qed.

Lemma dedup_loop_sublist items seen :
  dedup_loop lower items [] seen `sublist_of` items.
Proof.
  revert seen. induction items as [|item items IH]; intros seen; [done|].
  rewrite dedup_loop_cons. case_decide.
  - by apply sublist_cons.
  - by apply sublist_skip.
Qed.

Lemma dedup_loop_unseen items seen item :
  item ∈ dedup_loop lower items [] seen → dedup_key lower item ∉ seen.
Proof.
  revert seen. induction items as [|x items IH]; intros seen; [by intros ?%elem_of_nil|].
  rewrite dedup_loop_cons. case_decide.
  - apply IH.
  - intros [->|Hin]%elem_of_cons; [done|]. apply IH in Hin. set_solver.
Qed.

Lemma dedup_loop_NoDup items seen :
  NoDup (dedup_key lower <$> dedup_loop lower items [] seen).
Proof.
  revert seen. induction items as [|x items IH]; intros seen; [constructor|].
  rewrite dedup_loop_cons. case_decide; [apply IH|].
  rewrite fmap_cons. apply NoDup_cons. split; [|apply IH].
  intros (y & Hy & Hin)%list_elem_of_fmap.
  apply dedup_loop_unseen in Hin. apply Hin. rewrite <- Hy.
  apply elem_of_union. left. by apply elem_of_singleton.
Qed.

Lemma dedup_loop_first pre item post seen :
  dedup_key lower item ∉ seen →
  dedup_key lower item ∉ (dedup_key lower <$> pre) →
  item ∈ dedup_loop lower (pre ++ item :: post) [] seen.
Proof.
  intros Hseen Hpre. rewrite dedup_loop_app, dedup_loop_cons.
  rewrite decide_False.
  - apply elem_of_app. right. left.
  - unfold keys_of. rewrite elem_of_union, elem_of_list_to_set. tauto.
Qed.

Lemma dedup_loop_fixed items seen :
  NoDup (dedup_key lower <$> items) →
  (∀ item, item ∈ items → dedup_key lower item ∉ seen) →
  dedup_loop lower items [] seen = items.
Proof.
  revert seen. induction items as [|x items IH]; intros seen Hnd Hseen; [done|].
  rewrite fmap_cons in Hnd. apply NoDup_cons in Hnd as [Hx Hnd].
  rewrite dedup_loop_cons, decide_False by (apply Hseen; left).
  f_equal. apply IH; [done|].
  intros y Hy. specialize (Hseen y (list_elem_of_further _ _ _ Hy)).
  assert (dedup_key lower y ≠ dedup_key lower x).
  { intros Heq. apply Hx. rewrite <- Heq. by apply list_elem_of_fmap_2. }
  set_solver.
Qed.

Lemma combine_results_eq (rule_based ai_based : FindingMap) :
  _combine_results lower rule_based ai_based =
  (λ category,
     (category,
      _deduplicate_items lower
        (get_list rule_based category ++ get_list ai_based category)))
    <$> categories.
Proof.
  unfold _combine_results.
  rewrite (foldl_dict_set
             (λ category, _deduplicate_items lower
                (get_list rule_based category ++ get_list ai_based category)));
    [done|apply categories_NoDup|].
  intros ? _. apply not_elem_of_nil.
Qed.

Lemma combine_results_get (rule_based ai_based : FindingMap) category :
  category ∈ categories →
  get_list (_combine_results lower rule_based ai_based) category =
  _deduplicate_items lower
    (get_list rule_based category ++ get_list ai_based category).
Proof.
  intros Hc. unfold get_list at 1. rewrite combine_results_eq.
  by rewrite (dict_get_fmap_keys _ _ _ Hc).
Qed.

(** C6. Deduplication is idempotent: a list reconciled against itself
    collapses to what deduplicating it once gives, [dedup (x ++ x) = dedup x];
    the result is the list itself exactly when no key occurs twice in it, as
    in every deduplicated list; and [_combine_results] of a mapping with
    itself holds, per category, the deduplicated list of that category. *)
Theorem C6_deduplicate_idempotent (items : list Finding) (m : FindingMap) :
  _deduplicate_items lower (items ++ items) = _deduplicate_items lower items
  ∧ (_deduplicate_items lower (items ++ items) = items
     ↔ NoDup (dedup_key lower <$> items))
  ∧ _deduplicate_items lower
      (_deduplicate_items lower items ++ _deduplicate_items lower items)
    = _deduplicate_items lower items
  ∧ _combine_results lower m m =
    (λ category, (category, _deduplicate_items lower (get_list m category)))
      <$> categories.
Proof.
  assert (Hself : ∀ l, _deduplicate_items lower (l ++ l) = _deduplicate_items lower l).
  { intros l. unfold _deduplicate_items. rewrite dedup_loop_app.
    rewrite (dedup_loop_all_seen l (keys_of lower l ∪ ∅)); [by rewrite app_nil_r|].
    intros item Hitem. apply elem_of_union. left.
    apply elem_of_list_to_set. by apply list_elem_of_fmap_2. }
  assert (Hfixed : ∀ l, NoDup (dedup_key lower <$> l) →
                        _deduplicate_items lower l = l).
  { intros l Hl. apply dedup_loop_fixed; [done|].
    intros ? _. apply not_elem_of_empty. }
  split; [apply Hself|]. split; [|split].
  - rewrite Hself. split; [|apply Hfixed].
    intros <-. apply dedup_loop_NoDup.
  - rewrite Hself. apply Hfixed, dedup_loop_NoDup.
  - rewrite combine_results_eq. apply list_fmap_ext. intros _ category _. f_equal.
    by rewrite Hself.
Qed.

(** C2. For each of the four categories on its own, [_combine_results]
    deduplicates the rule-based list followed by the oracle's list: the
    result is a sublist of that concatenation (relative order kept), holds
    every key once, and holds exactly the first occurrence of each key.  In
    particular, for a rule list [[A; B]] and an oracle list [[B'; C]] where
    [B'] has the key of [B] (and [A], [B], [C] have different keys), the
    result is [[A; B; C]]. *)
Theorem C2_combine_results_first_wins
    (rule_based ai_based : FindingMap) (category : str) (A B B' C : Finding) :
  category ∈ categories →
  let all_items := get_list rule_based category ++ get_list ai_based category in
  let merged := get_list (_combine_results lower rule_based ai_based) category in
  merged = _deduplicate_items lower all_items
  ∧ merged `sublist_of` all_items
  ∧ NoDup (dedup_key lower <$> merged)
  ∧ (∀ pre item post,
       all_items = pre ++ item :: post →
       dedup_key lower item ∉ (dedup_key lower <$> pre) →
       item ∈ merged)
  ∧ (∀ item,
       item ∈ merged →
       ∃ pre post, all_items = pre ++ item :: post
                   ∧ dedup_key lower item ∉ (dedup_key lower <$> pre))
  ∧ (get_list rule_based category = [A; B] →
     get_list ai_based category = [B'; C] →
     dedup_key lower B' = dedup_key lower B →
     dedup_key lower A ≠ dedup_key lower B →
     dedup_key lower A ≠ dedup_key lower C →
     dedup_key lower B ≠ dedup_key lower C →
     merged = [A; B; C]).
Proof.
  intros Hcat all_items merged.
  assert (Hmerged : merged = _deduplicate_items lower all_items)
    by (by apply combine_results_get).
  assert (Hfirst : ∀ pre item post,
             all_items = pre ++ item :: post →
             dedup_key lower item ∉ (dedup_key lower <$> pre) →
             item ∈ merged).
  { intros pre item post Hsplit Hpre. rewrite Hmerged, Hsplit.
    apply dedup_loop_first; [apply not_elem_of_empty|done]. }
  assert (Hnodup : NoDup (dedup_key lower <$> merged))
    by (rewrite Hmerged; apply dedup_loop_NoDup).
  assert (Hsub : merged `sublist_of` all_items)
    by (rewrite Hmerged; apply dedup_loop_sublist).
  repeat split; try done.
  - (* a kept item is the first one with its key *)
    intros item Hitem.
    assert (Hin : dedup_key lower item ∈ dedup_key lower <$> all_items).
    { apply list_elem_of_fmap_2. eapply elem_of_sublist; [exact Hitem|]. exact Hsub. }
    apply list_elem_of_split_l in Hin as (kpre & kpost & Hk & Hfresh).
    apply fmap_app_inv in Hk as (pre & rest & Hkpre & Hrest & Hall).
    symmetry in Hrest.
    apply fmap_cons_inv in Hrest as (first & post & Hkey & _ & Hrest).
    rewrite Hrest in Hall. rewrite Hkpre, Hkey in Hfresh.
    assert (Hkept : first ∈ merged) by by apply (Hfirst pre first post).
    assert (first = item) as <-; [|by exists pre, post].
    by apply (NoDup_fmap_same (dedup_key lower) merged).
  - (* the example *)
    intros HAB HBC HB' HAB' HAC HB_C.
    rewrite Hmerged. subst all_items. rewrite HAB, HBC. unfold _deduplicate_items.
    simpl app. rewrite !dedup_loop_cons, HB'.
    repeat case_decide; try done; set_solver.
Qed.

(** ** Summary *)

Lemma sum_cons (n : nat) (l : list nat) : sum (n :: l) = (n + sum l)%nat.
Proof. reflexivity. Qed.

Lemma sum_values_cons {K : Type} (k : K) (n : nat) (d : list (K * nat)) :
  sum (dict_values ((k, n) :: d)) = (n + sum (dict_values d))%nat.
Proof. reflexivity. Qed.

Lemma sum_values_upsert_S {K : Type} `{EqDecision K} (k : K) (d : list (K * nat)) :
  sum (dict_values (dict_upsert k S 0%nat d)) = S (sum (dict_values d)).
Proof.
  induction d as [|[k' n] d IH]; [done|].
  cbn [dict_upsert]. case_decide.
  - rewrite !sum_values_cons. lia.
  - rewrite !sum_values_cons, IH. lia.
Qed.

Lemma severity_fold_sum (items : list Finding) (counts : list (str * nat)) :
  sum (dict_values
         (foldl (λ severity_counts item,
                   dict_upsert (severity_label item) S 0%nat severity_counts)
                counts items))
  = (sum (dict_values counts) + length items)%nat.
Proof.
  revert counts. induction items as [|item items IH]; intros counts; simpl; [lia|].
  rewrite IH, sum_values_upsert_S. lia.
Qed.

Lemma severity_fold_get (items : list Finding) (counts : list (str * nat)) label :
  default 0%nat
    (dict_get (foldl (λ severity_counts item,
                        dict_upsert (severity_label item) S 0%nat severity_counts)
                     counts items) label)
  = (default 0%nat (dict_get counts label)
     + length (filter (λ item, severity_label item = label) items))%nat.
Proof.
  revert counts. induction items as [|item items IH]; intros counts; simpl; [lia|].
  rewrite IH, dict_get_upsert, filter_cons.
  repeat case_decide; simplify_eq/=; lia.
Qed.

Lemma flatten_acc (lists : list (list Finding)) (acc : list Finding) :
  foldl (λ flattened category_items, flattened ++ category_items) acc lists
  = acc ++ concat lists.
Proof.
  revert acc. induction lists as [|l lists IH]; intros acc; simpl.
  - by rewrite app_nil_r.
  - by rewrite IH, app_assoc.
Qed.

Lemma flatten_inconsistencies_concat (m : FindingMap) :
  _flatten_inconsistencies m = concat (dict_values m).
Proof. unfold _flatten_inconsistencies. by rewrite flatten_acc. Qed.

Lemma length_concat_sum (lists : list (list Finding)) :
  length (concat lists) = sum (length <$> lists).
Proof.
  induction lists as [|l lists IH]; [done|].
  rewrite fmap_cons, sum_cons. cbn [concat].
  by rewrite length_app, IH.
Qed.

Lemma severity_counts_sum (lists : list (list Finding)) (counts : list (str * nat)) :
  sum (dict_values
         (foldl (λ severity_counts category_items,
                   foldl (λ severity_counts item,
                            dict_upsert (severity_label item) S 0%nat severity_counts)
                         severity_counts category_items)
                counts lists))
  = (sum (dict_values counts) + sum (length <$> lists))%nat.
Proof.
  revert counts. induction lists as [|l lists IH]; intros counts; [simpl; lia|].
  rewrite fmap_cons, sum_cons. cbn [foldl].
  rewrite IH, severity_fold_sum. lia.
Qed.

Lemma severity_counts_get (lists : list (list Finding)) (counts : list (str * nat)) label :
  default 0%nat
    (dict_get
       (foldl (λ severity_counts category_items,
                 foldl (λ severity_counts item,
                          dict_upsert (severity_label item) S 0%nat severity_counts)
                       severity_counts category_items)
              counts lists) label)
  = (default 0%nat (dict_get counts label)
     + length (filter (λ item, severity_label item = label) (concat lists)))%nat.
Proof.
  revert counts. induction lists as [|l lists IH]; intros counts; simpl; [lia|].
  rewrite IH, severity_fold_get, filter_app, length_app. lia.
Qed.

Lemma category_counts_eq (f : str → list Finding) (ks : list str) :
  NoDup ks →
  foldl (λ category_counts '(category, items),
           dict_set category (length items) category_counts)
        ([] : list (str * nat)) ((λ k, (k, f k)) <$> ks)
  = (λ k, (k, length (f k))) <$> ks.
Proof.
  intros Hnd. rewrite foldl_fmap. simpl.
  rewrite (foldl_dict_set (λ k, length (f k))); [done|done|].
  intros ? _. apply not_elem_of_nil.
Qed.

(** C3. For the mapping reconciliation produces, the summary is consistent:
    the category counts add up to the total, the total is the number of
    findings, and the severity counts add up to the total.  Every category
    has an entry in [category_breakdown], empty ones with count 0, and each
    severity label (['unknown'] for a finding without severity) holds the
    number of findings carrying it. *)
Theorem C3_summary_counts_consistent
    (rule_based ai_based : FindingMap) (slides_data : Slides) (label : str) :
  let combined := _combine_results lower rule_based ai_based in
  let summary := _calculate_summary combined slides_data in
  sum (dict_values (category_breakdown summary)) = inconsistencies_found summary
  ∧ inconsistencies_found summary = sum (dict_values (severity_breakdown summary))
  ∧ inconsistencies_found summary = length (_flatten_inconsistencies combined)
  ∧ category_breakdown summary =
    (λ category, (category, length (get_list combined category))) <$> categories
  ∧ default 0%nat (dict_get (severity_breakdown summary) label) =
    length (filter (λ item, default (py "unknown") (severity item) = label)
                   (_flatten_inconsistencies combined)).
Proof.
  intros combined summary.
  set (g := λ category,
         _deduplicate_items lower
           (get_list rule_based category ++ get_list ai_based category)).
  assert (Hcomb : combined = (λ category, (category, g category)) <$> categories)
    by apply combine_results_eq.
  assert (Hget : ∀ category, category ∈ categories →
                 get_list combined category = g category)
    by (intros; by apply combine_results_get).
  assert (Hcat : category_breakdown summary =
                 (λ category, (category, length (g category))) <$> categories).
  { unfold summary. cbn [category_breakdown _calculate_summary].
    rewrite Hcomb. apply category_counts_eq, categories_NoDup. }
  split; [|split; [|split; [|split]]].
  - rewrite Hcat. unfold summary. cbn [inconsistencies_found _calculate_summary].
    rewrite Hcomb. unfold dict_values. by rewrite <- !list_fmap_compose.
  - unfold summary.
    cbn [inconsistencies_found severity_breakdown _calculate_summary].
    by rewrite severity_counts_sum.
  - unfold summary. cbn [inconsistencies_found _calculate_summary].
    by rewrite flatten_inconsistencies_concat, length_concat_sum.
  - rewrite Hcat. apply list_fmap_ext. intros i category Hi.
    rewrite Hget; [done|]. by eapply list_elem_of_lookup_2.
  - unfold summary. cbn [severity_breakdown _calculate_summary].
    by rewrite severity_counts_get, flatten_inconsistencies_concat.
Qed.

(** ** The rule-based result and the fallback on an oracle error *)

Lemma rule_based_detection_eq (slides_data : Slides) :
  _rule_based_detection lower slides_data =
  [ (py "numerical_conflicts", _detect_numerical_conflicts lower slides_data);
    (py "contradictory_statements", _detect_contradictory_statements lower slides_data);
    (py "timeline_issues", _detect_timeline_issues slides_data);
    (py "logical_inconsistencies", []) ].
Proof. reflexivity. Qed.

Lemma extract_ai_results_error (ai_analysis : AiAnalysis) :
  is_Some (ai_error ai_analysis) →
  _extract_ai_results ai_analysis = _get_empty_inconsistencies.
Proof. intros Herr. unfold _extract_ai_results. by rewrite bool_decide_eq_true_2. Qed.

Lemma extract_ai_results_no_analysis :
  _extract_ai_results no_analysis = _get_empty_inconsistencies.
Proof. reflexivity. Qed.

Lemma get_list_empty_inconsistencies (category : str) :
  get_list _get_empty_inconsistencies category = [].
Proof.
  unfold get_list, _get_empty_inconsistencies. simpl.
  repeat case_decide; done.
Qed.

(** C10. The rule-based detector fills the numerical, contradiction and
    timeline categories only: its [logical_inconsistencies] list is empty for
    every slide mapping, so that category of a combined result is the
    deduplicated list of the oracle, and each of its findings is one the
    oracle reported. *)
Theorem C10_logical_inconsistencies_from_ai_only
    (slides_data : Slides) (ai_analysis : AiAnalysis) :
  let rule_based := _rule_based_detection lower slides_data in
  let ai_results := _extract_ai_results ai_analysis in
  let result := detect_inconsistencies lower slides_data ai_analysis in
  get_list rule_based (py "logical_inconsistencies") = []
  ∧ rule_based =
    [ (py "numerical_conflicts", _detect_numerical_conflicts lower slides_data);
      (py "contradictory_statements",
       _detect_contradictory_statements lower slides_data);
      (py "timeline_issues", _detect_timeline_issues slides_data);
      (py "logical_inconsistencies", []) ]
  ∧ get_list (inconsistencies result) (py "logical_inconsistencies") =
    _deduplicate_items lower (get_list ai_results (py "logical_inconsistencies"))
  ∧ get_list (inconsistencies result) (py "logical_inconsistencies")
      ⊆ get_list ai_results (py "logical_inconsistencies").
Proof.
  intros rule_based ai_results result.
  assert (Hrule : get_list rule_based (py "logical_inconsistencies") = [])
    by reflexivity.
  assert (Hcombined :
    get_list (inconsistencies result) (py "logical_inconsistencies") =
    _deduplicate_items lower (get_list ai_results (py "logical_inconsistencies"))).
  { unfold result, detect_inconsistencies. cbn [inconsistencies].
    rewrite combine_results_get.
    - fold rule_based. by rewrite Hrule.
    - apply (bool_decide_unpack _). by vm_compute. }
  split; [done|]. split; [reflexivity|]. split; [done|].
  rewrite Hcombined. intros item Hitem.
  eapply elem_of_sublist; [exact Hitem|apply dedup_loop_sublist].
Qed.

Lemma typed_analysis_error (ai_analysis : Analysis Json) :
  is_Some (ai_error ai_analysis) →
  ∃ typed, typed_analysis ai_analysis = Returns typed
           ∧ ai_error typed = ai_error ai_analysis.
Proof.
  intros Herr. unfold typed_analysis. rewrite bool_decide_eq_true_2 by done.
  by eexists.
Qed.

(** C5. When the analysis of the oracle is a tagged error, detection still
    returns a result and raises nothing: the oracle's findings are replaced
    by the empty mapping, every category of the combined result is the
    deduplicated rule-based list, [ai_based_count] is 0, and [main] takes
    this result. *)
Theorem C5_ai_error_uses_rule_based_only
    (slides_data : Slides) (ai_analysis : Analysis Json) :
  is_Some (ai_error ai_analysis) →
  ∃ typed,
    typed_analysis ai_analysis = Returns typed
    ∧ let rule_based := _rule_based_detection lower slides_data in
      let result := detect_inconsistencies lower slides_data typed in
      _extract_ai_results typed = _get_empty_inconsistencies
      ∧ inconsistencies result =
        (λ category,
           (category, _deduplicate_items lower (get_list rule_based category)))
          <$> categories
      ∧ rule_based_count result = length (_flatten_inconsistencies rule_based)
      ∧ ai_based_count result = 0%nat
      ∧ main_results lower slides_data ai_analysis = Returns (Detection result).
Proof.
  intros Herr.
  destruct (typed_analysis_error ai_analysis Herr) as (typed & Htyped & Herr').
  exists typed. split; [done|]. intros rule_based result.
  assert (Herr'' : is_Some (ai_error typed)) by (by rewrite Herr').
  pose proof (extract_ai_results_error _ Herr'') as Hai.
  assert (Hinc : inconsistencies result =
    (λ category,
       (category, _deduplicate_items lower (get_list rule_based category)))
      <$> categories).
  { unfold result, detect_inconsistencies. cbn [inconsistencies].
    rewrite Hai, combine_results_eq. apply list_fmap_ext. intros i category _.
    by rewrite get_list_empty_inconsistencies, app_nil_r. }
  split; [done|]. split; [done|]. split; [done|]. split.
  - unfold result, detect_inconsistencies. cbn [ai_based_count]. by rewrite Hai.
  - unfold main_results. rewrite bool_decide_eq_true_2 by done.
    do 2 f_equal. unfold result, detect_inconsistencies.
    by rewrite Hai, extract_ai_results_no_analysis.
Qed.

(** ** The contradictory-statement scan *)

Lemma foldl_dict_set_pairs {K A V : Type} `{EqDecision K}
    (h : A → V) (l : list (K * A)) (d : list (K * V)) :
  NoDup (fst <$> l) → (∀ k, k ∈ fst <$> l → k ∉ dict_keys d) →
  foldl (λ acc '(k, a), dict_set k (h a) acc) d l
  = d ++ ((λ entry, (entry.1, h entry.2)) <$> l).
Proof.
  revert d. induction l as [|[k a] l IH]; intros d Hnd Hfresh.
  - by rewrite app_nil_r.
  - rewrite fmap_cons in Hnd. apply NoDup_cons in Hnd as [Hk Hnd].
    cbn [foldl]. unfold dict_set at 2.
    rewrite dict_upsert_fresh by (apply Hfresh; left).
    rewrite IH; [by rewrite <- app_assoc|done|].
    intros k' Hk'. unfold dict_keys. rewrite fmap_app, elem_of_app.
    intros [Hin|Hin%list_elem_of_singleton].
    + by apply (Hfresh k'); [right|].
    + simpl in Hin. by subst.
Qed.

Lemma collect_all_text_eq (slides_data : Slides) :
  NoDup (dict_keys slides_data) →
  collect_all_text lower slides_data
  = (λ entry, (entry.1, slide_text_of lower entry.2)) <$> slides_data.
Proof.
  intros Hnd. unfold collect_all_text.
  rewrite (foldl_dict_set_pairs (slide_text_of lower)); [done|done|].
  intros ? _. apply not_elem_of_nil.
Qed.

Lemma slides_with_patterns_acc (pattern1 pattern2 : str)
    (all_text : list (Z * str)) (acc1 acc2 : list Z) :
  foldl (λ '(slides_with_pattern1, slides_with_pattern2) '(slide_num, text),
           (if contains pattern1 text
            then slides_with_pattern1 ++ [slide_num] else slides_with_pattern1,
            if contains pattern2 text
            then slides_with_pattern2 ++ [slide_num] else slides_with_pattern2))
        (acc1, acc2) all_text
  = (acc1 ++ (fst <$> filter (λ entry, contains pattern1 entry.2 = true) all_text),
     acc2 ++ (fst <$> filter (λ entry, contains pattern2 entry.2 = true) all_text)).
Proof.
  revert acc1 acc2. induction all_text as [|[n t] all_text IH]; intros acc1 acc2.
  - by rewrite !app_nil_r.
  - cbn [foldl]. rewrite IH, !filter_cons. cbn [snd].
    destruct (contains pattern1 t), (contains pattern2 t);
      repeat case_decide; try done; by rewrite <- ?app_assoc.
Qed.

Lemma filter_text_fmap (pattern : str) (slides_data : Slides) :
  fst <$> filter (λ entry, contains pattern entry.2 = true)
            ((λ entry, (entry.1, slide_text_of lower entry.2)) <$> slides_data)
  = slides_containing lower pattern slides_data.
Proof.
  unfold slides_containing.
  induction slides_data as [|[n d] slides_data IH]; [done|].
  rewrite fmap_cons, !filter_cons. cbn [fst snd].
  case_decide; [rewrite !fmap_cons|]; by rewrite IH.
Qed.

Lemma slides_with_patterns_eq (pattern1 pattern2 : str) (slides_data : Slides) :
  NoDup (dict_keys slides_data) →
  slides_with_patterns pattern1 pattern2 (collect_all_text lower slides_data)
  = (slides_containing lower pattern1 slides_data,
     slides_containing lower pattern2 slides_data).
Proof.
  intros Hnd. unfold slides_with_patterns.
  by rewrite slides_with_patterns_acc, collect_all_text_eq, !filter_text_fmap.
Qed.

Lemma contradiction_loop_acc (slides_data : Slides)
    (patterns : list (str * str * str)) (acc : list Finding) :
  NoDup (dict_keys slides_data) →
  foldl (λ contradictions '(pattern1, pattern2, context),
           let '(slides_with_pattern1, slides_with_pattern2) :=
             slides_with_patterns pattern1 pattern2
               (collect_all_text lower slides_data) in
           if bool_decide (slides_with_pattern1 ≠ [])
              && bool_decide (slides_with_pattern2 ≠ [])
           then contradictions
                  ++ [contradiction pattern1 pattern2 context
                        (slides_with_pattern1 ++ slides_with_pattern2)]
           else contradictions)
        acc patterns
  = acc ++ concat (contradiction_of lower slides_data <$> patterns).
Proof.
  intros Hnd. revert acc.
  induction patterns as [|[[p1 p2] c] patterns IH]; intros acc.
  - by rewrite app_nil_r.
  - cbn [foldl]. rewrite slides_with_patterns_eq by done.
    rewrite IH, fmap_cons. cbn [concat]. unfold contradiction_of at 2.
    destruct (bool_decide _ && bool_decide _); by rewrite <- ?app_assoc.
Qed.

Lemma detect_contradictory_statements_eq (slides_data : Slides) :
  NoDup (dict_keys slides_data) →
  _detect_contradictory_statements lower slides_data
  = concat (contradiction_of lower slides_data <$> contradiction_patterns).
Proof.
  intros Hnd. unfold _detect_contradictory_statements.
  by rewrite contradiction_loop_acc.
Qed.

Lemma elem_of_concat {A : Type} (x : A) (ls : list (list A)) :
  x ∈ concat ls → ∃ l, x ∈ l ∧ l ∈ ls.
Proof.
  induction ls as [|l ls IH]; cbn [concat]; [by intros ?%elem_of_nil|].
  intros [Hx|Hx]%elem_of_app.
  - exists l. split; [done|left].
  - destruct (IH Hx) as (l' & ? & ?). exists l'. split; [done|by right].
Qed.

Lemma filter_all {A : Type} (P : A → Prop) `{∀ x, Decision (P x)} (l : list A) :
  (∀ x, x ∈ l → P x) → filter P l = l.
Proof.
  induction l as [|a l IH]; intros Hall; [done|].
  rewrite filter_cons_True by (apply Hall; left).
  f_equal. apply IH. intros x Hx. apply Hall. by right.
Qed.

Lemma filter_none {A : Type} (P : A → Prop) `{∀ x, Decision (P x)} (l : list A) :
  (∀ x, x ∈ l → ¬ P x) → filter P l = [].
Proof.
  induction l as [|a l IH]; intros Hall; [done|].
  rewrite filter_cons_False by (apply Hall; left).
  apply IH. intros x Hx. apply Hall. by right.
Qed.

(** Picking, from per-entry outputs tagged with pairwise different keys,
    the outputs of one entry. *)
Lemma filter_concat_tagged {A B T : Type} `{EqDecision T}
    (key : A → T) (tag : B → T) (g : A → list B) (l : list A) (e : A) :
  NoDup (key <$> l) → e ∈ l → (∀ x y, y ∈ g x → tag y = key x) →
  filter (λ y, tag y = key e) (concat (g <$> l)) = g e.
Proof.
  intros Hnd He Htag.
  assert (Hother : ∀ l', key e ∉ key <$> l' →
            filter (λ y, tag y = key e) (concat (g <$> l')) = []).
  { intros l' Hfresh. apply filter_none. intros y Hy Hty.
    apply elem_of_concat in Hy as (ys & Hy & Hys).
    apply list_elem_of_fmap in Hys as (x & -> & Hx).
    apply Hfresh. rewrite <- Hty, (Htag x y Hy). by apply list_elem_of_fmap_2. }
  induction l as [|a l IH]; [by apply elem_of_nil in He|].
  rewrite fmap_cons in Hnd. apply NoDup_cons in Hnd as [Ha Hnd].
  rewrite fmap_cons. cbn [concat]. rewrite filter_app.
  destruct (decide (key a = key e)) as [Heq|Hne].
  - rewrite Hother by (by rewrite <- Heq). rewrite app_nil_r.
    assert (a = e) as ->.
    { apply elem_of_cons in He as [->|He]; [done|].
      destruct Ha. rewrite Heq. by apply list_elem_of_fmap_2. }
    apply filter_all. intros y Hy. by apply Htag.
  - rewrite filter_none.
    + apply IH; [done|]. apply elem_of_cons in He as [->|He]; [done|done].
    + intros y Hy Hty. apply Hne. by rewrite <- (Htag a y Hy).
Qed.

Lemma contradiction_descriptions_NoDup :
  NoDup ((λ entry : str * str * str,
            description (contradiction entry.1.1 entry.1.2 entry.2 []))
           <$> contradiction_patterns).
Proof. apply (bool_decide_unpack _). by vm_compute. Qed.

(** C7. For each entry [(pattern1, pattern2, context)] of the table, the
    scan reports one finding for the pair when some slide contains
    [pattern1] and some slide contains [pattern2], and none otherwise; the
    finding lists the slides with [pattern1] followed by the slides with
    [pattern2] (a slide with both appears twice), with severity [high] and
    type [contradictory_statements].  Nothing else is reported. *)
Theorem C7_contradictory_statement_scan
    (slides_data : Slides) (pattern1 pattern2 context : str) :
  NoDup (dict_keys slides_data) →
  (pattern1, pattern2, context) ∈ contradiction_patterns →
  let slidesA := slides_containing lower pattern1 slides_data in
  let slidesB := slides_containing lower pattern2 slides_data in
  let found := _detect_contradictory_statements lower slides_data in
  let of_pair :=
    filter (λ finding,
              description finding
              = description (contradiction pattern1 pattern2 context []))
           found in
  (slidesA ≠ [] ∧ slidesB ≠ [] →
   of_pair = [ {| slide_numbers := Some (slidesA ++ slidesB);
                  description :=
                    Some (py "Contradictory " ++ context ++ py ": '" ++ pattern1
                            ++ py "' vs '" ++ pattern2 ++ py "'");
                  severity := Some (py "high");
                  type := Some (py "contradictory_statements") |} ])
  ∧ (slidesA = [] ∨ slidesB = [] → of_pair = [])
  ∧ found = concat (contradiction_of lower slides_data <$> contradiction_patterns)
  ∧ (∀ finding, finding ∈ found →
       severity finding = Some (py "high")
       ∧ type finding = Some (py "contradictory_statements")).
Proof.
  intros Hnd Hentry slidesA slidesB found of_pair.
  assert (Hfound : found
            = concat (contradiction_of lower slides_data <$> contradiction_patterns))
    by (by apply detect_contradictory_statements_eq).
  assert (Hpair : of_pair
            = contradiction_of lower slides_data (pattern1, pattern2, context)).
  { unfold of_pair. rewrite Hfound.
    apply (filter_concat_tagged
             (λ entry : str * str * str,
                description (contradiction entry.1.1 entry.1.2 entry.2 []))
             description (contradiction_of lower slides_data)
             contradiction_patterns (pattern1, pattern2, context));
      [apply contradiction_descriptions_NoDup|done|].
    intros [[p1 p2] c] y. unfold contradiction_of.
    destruct (bool_decide _ && bool_decide _);
      [by intros ->%list_elem_of_singleton|by intros ?%elem_of_nil]. }
  split; [|split; [|split; [done|]]].
  - intros [HA HB]. rewrite Hpair. unfold contradiction_of. fold slidesA slidesB.
    by rewrite !bool_decide_eq_true_2.
  - intros Hempty. rewrite Hpair. unfold contradiction_of. fold slidesA slidesB.
    destruct Hempty as [-> | ->]; [done|].
    by rewrite andb_comm.
  - intros finding Hfinding. rewrite Hfound in Hfinding.
    apply elem_of_concat in Hfinding as (fs & Hfinding & Hfs).
    apply list_elem_of_fmap in Hfs as ([[p1 p2] c] & -> & _).
    unfold contradiction_of in Hfinding.
    destruct (bool_decide _ && bool_decide _);
      [by apply list_elem_of_singleton in Hfinding as ->
      |by apply elem_of_nil in Hfinding].
Qed.

(** ** The numerical conflict scan *)

Lemma collect_ungated (words : list str) (slide_text : str) (slide_num : Z)
    (values : list str) (data : list (str * list Z)) :
  any_in words slide_text = false →
  collect words slide_text slide_num values data = data.
Proof.
  intros Hgate. unfold collect. rewrite Hgate.
  induction values as [|v values IH]; [done|]. apply IH.
Qed.

Lemma get_list_upsert {A : Type} (k k' : str) (f : list A → list A)
    (d : list (str * list A)) :
  get_list (dict_upsert k f [] d) k'
  = if decide (k = k') then f (get_list d k) else get_list d k'.
Proof. unfold get_list. rewrite dict_get_upsert. by case_decide. Qed.

Lemma collect_get (words : list str) (slide_text : str) (slide_num : Z)
    (values : list str) (data : list (str * list Z)) (value : str) :
  get_list (collect words slide_text slide_num values data) value
  = get_list data value
      ++ (if any_in words slide_text
          then replicate (length (filter (λ x, x = value) values)) slide_num
          else []).
Proof.
  destruct (any_in words slide_text) eqn:Hgate;
    [|by rewrite collect_ungated, app_nil_r].
  unfold collect. rewrite Hgate. revert data.
  induction values as [|v values IH]; intros data; cbn [foldl].
  - by rewrite app_nil_r.
  - rewrite IH, get_list_upsert, filter_cons.
    repeat case_decide; simplify_eq; [|done].
    cbn [length replicate]. by rewrite <- app_assoc.
Qed.

Lemma collect_numerical_acc (slides_data : Slides)
    (revenue_data percentage_data quantity_data : list (str * list Z)) :
  foldl (λ '(revenue_data, percentage_data, quantity_data) '(slide_num, slide_data),
           let slide_text := slide_text_of lower slide_data in
           (collect revenue_words slide_text slide_num
                    (currency slide_data) revenue_data,
            collect percentage_words slide_text slide_num
                    (percentages slide_data) percentage_data,
            collect quantity_words slide_text slide_num
                    (numbers slide_data) quantity_data))
        (revenue_data, percentage_data, quantity_data) slides_data
  = (collect_group lower revenue_words currency slides_data revenue_data,
     collect_group lower percentage_words percentages slides_data percentage_data,
     collect_group lower quantity_words numbers slides_data quantity_data).
Proof.
  revert revenue_data percentage_data quantity_data.
  induction slides_data as [|[n d] slides_data IH]; intros; [done|].
  cbn [foldl]. by rewrite IH.
Qed.

Lemma collect_group_get (words : list str) (facts : SlideData → list str)
    (slides_data : Slides) (data : list (str * list Z)) (value : str) :
  get_list (collect_group lower words facts slides_data data) value
  = get_list data value ++ occurrences lower words facts value slides_data.
Proof.
  unfold collect_group, occurrences. revert data.
  induction slides_data as [|[n d] slides_data IH]; intros data; cbn [foldl].
  - by rewrite app_nil_r.
  - rewrite IH, collect_get, fmap_cons. cbn [concat fst snd].
    by rewrite <- app_assoc.
Qed.

Lemma dict_keys_upsert {K V : Type} `{EqDecision K} (k : K) (f : V → V)
    (dflt : V) (d : list (K * V)) :
  dict_keys (dict_upsert k f dflt d)
  = if decide (k ∈ dict_keys d) then dict_keys d else dict_keys d ++ [k].
Proof.
  case_decide as Hk.
  - by apply dict_keys_upsert_present.
  - rewrite dict_upsert_fresh by done. unfold dict_keys. by rewrite fmap_app.
Qed.

Lemma elem_of_upsert {K V : Type} `{EqDecision K} (k : K) (f : V → V)
    (dflt : V) (d : list (K * V)) (entry : K * V) :
  entry ∈ dict_upsert k f dflt d →
  entry ∈ d ∨ ∃ v, entry = (k, f v).
Proof.
  induction d as [|[k' v'] d IH]; cbn [dict_upsert].
  - intros ->%list_elem_of_singleton. right. by eexists.
  - case_decide; subst.
    + intros [->|Hin]%elem_of_cons; [right; by eexists|left; by right].
    + intros [->|Hin]%elem_of_cons; [left; left|].
      destruct (IH Hin) as [?|?]; [left; by right|by right].
Qed.

Lemma grouping_ok_append (value : str) (slide_num : Z)
    (data : list (str * list Z)) :
  grouping_ok data →
  grouping_ok (dict_upsert value (λ nums, nums ++ [slide_num]) [] data).
Proof.
  intros [Hnd Hne]. split.
  - rewrite dict_keys_upsert. case_decide; [done|].
    apply NoDup_app. split; [done|]. split; [|apply NoDup_singleton].
    by intros k Hk ->%list_elem_of_singleton.
  - intros entry [Hin|[nums ->]]%elem_of_upsert; [by apply Hne|].
    cbn. by destruct nums.
Qed.

Lemma collect_group_ok (words : list str) (facts : SlideData → list str)
    (slides_data : Slides) (data : list (str * list Z)) :
  grouping_ok data → grouping_ok (collect_group lower words facts slides_data data).
Proof.
  unfold collect_group. revert data.
  induction slides_data as [|[n d] slides_data IH]; intros data Hok; [done|].
  cbn [foldl]. apply IH. unfold collect.
  generalize (facts d). intros values. revert data Hok.
  induction values as [|v values IHv]; intros data Hok; [done|].
  cbn [foldl]. apply IHv. destruct (any_in _ _); [|done].
  by apply grouping_ok_append.
Qed.

Lemma dict_get_elem_of {K V : Type} `{EqDecision K} (d : list (K * V))
    (k : K) (v : V) :
  NoDup (dict_keys d) → (k, v) ∈ d ↔ dict_get d k = Some v.
Proof.
  induction d as [|[k' v'] d IH]; cbn [dict_get dict_keys fmap list_fmap fst].
  - intros _. split; [by intros ?%elem_of_nil|done].
  - intros [Hk' Hnd]%NoDup_cons. rewrite elem_of_cons. case_decide; subst.
    + split; [|intros [= ->]; by left].
      intros [[= ->]|Hin]; [done|]. destruct Hk'.
      by apply (list_elem_of_fmap_2 fst) in Hin.
    + rewrite <- (IH Hnd). split; [by intros [[= ? ?]|?]|by right].
Qed.

Lemma report_conflicts_acc (what sev ty : str) (data : list (str * list Z))
    (conflicts : list Finding) :
  report_conflicts what sev ty data conflicts
  = conflicts
      ++ ((λ entry : str * list Z, conflict what sev ty entry.1 entry.2)
            <$> filter (λ entry : str * list Z, (1 < length entry.2)%nat) data).
Proof.
  unfold report_conflicts. revert conflicts.
  induction data as [|[m nums] data IH]; intros conflicts; cbn [foldl].
  - by rewrite app_nil_r.
  - rewrite IH, filter_cons. cbn [snd].
    case_bool_decide; case_decide; try done.
    by rewrite fmap_cons, <- app_assoc.
Qed.

Lemma conflict_inj (what sev ty metric metric' : str) (nums nums' : list Z) :
  conflict what sev ty metric nums = conflict what sev ty metric' nums' →
  metric = metric' ∧ nums = nums'.
Proof.
  intros Heq.
  pose proof (f_equal slide_numbers Heq) as Hnums.
  pose proof (f_equal description Heq) as Hdescr.
  cbn [conflict slide_numbers description] in Hnums, Hdescr.
  apply (inj Some) in Hnums, Hdescr.
  do 3 apply app_inv_head in Hdescr. by apply app_inv_tail in Hdescr.
Qed.

(** What one reporting loop emits for a value. *)
Lemma report_conflicts_value (what sev ty : str) (words : list str)
    (facts : SlideData → list str) (slides_data : Slides)
    (value : str) (nums : list Z) :
  conflict what sev ty value nums
    ∈ report_conflicts what sev ty (collect_group lower words facts slides_data []) []
  ↔ nums = occurrences lower words facts value slides_data
    ∧ (2 ≤ length nums)%nat.
Proof.
  pose proof (collect_group_ok words facts slides_data []) as [Hnd Hne].
  { split; [constructor|by intros ? ?%elem_of_nil]. }
  assert (Hget : get_list (collect_group lower words facts slides_data []) value
                 = occurrences lower words facts value slides_data)
    by (by rewrite collect_group_get).
  rewrite report_conflicts_acc. cbn [app].
  rewrite list_elem_of_fmap. split.
  - intros ([m nums'] & [-> ->]%conflict_inj & [Hlen Hin]%list_elem_of_filter).
    cbn [fst snd] in *. split; [|lia].
    apply dict_get_elem_of in Hin; [|done].
    rewrite <- Hget. unfold get_list. by rewrite Hin.
  - intros [-> Hlen]. exists (value, occurrences lower words facts value slides_data).
    split; [done|]. apply list_elem_of_filter. split; [cbn; lia|].
    apply dict_get_elem_of; [done|]. rewrite <- Hget. unfold get_list.
    destruct (dict_get _ value) as [nums|] eqn:Hv; [done|].
    rewrite <- Hget in Hlen. unfold get_list in Hlen. rewrite Hv in Hlen.
    cbn in Hlen. lia.
Qed.

Lemma detect_numerical_conflicts_eq (slides_data : Slides) :
  _detect_numerical_conflicts lower slides_data
  = report_conflicts (py "revenue figures") (py "high") (py "revenue_conflict")
      (collect_group lower revenue_words currency slides_data []) []
    ++ report_conflicts (py "percentage data") (py "high") (py "percentage_conflict")
         (collect_group lower percentage_words percentages slides_data []) []
    ++ report_conflicts (py "quantity data") (py "medium") (py "quantity_conflict")
         (collect_group lower quantity_words numbers slides_data []) [].
Proof.
  unfold _detect_numerical_conflicts, collect_numerical.
  rewrite collect_numerical_acc.
  rewrite (report_conflicts_acc (py "quantity data")),
          (report_conflicts_acc (py "percentage data")).
  rewrite (report_conflicts_acc (py "quantity data") _ _ _ []),
          (report_conflicts_acc (py "percentage data") _ _ _ []).
  cbn [app]. by rewrite <- app_assoc.
Qed.

Lemma count_NoDup (value : str) (l : list str) :
  NoDup l →
  length (filter (λ x, x = value) l)
  = if decide (value ∈ l) then 1%nat else 0%nat.
Proof.
  induction l as [|a l IH]; [done|].
  intros [Ha Hl]%NoDup_cons. specialize (IH Hl).
  destruct (decide (a = value)) as [->|Hne].
  - rewrite filter_cons_True by done. cbn [length]. rewrite IH.
    rewrite (decide_False (P := value ∈ l)) by done.
    by rewrite decide_True by left.
  - rewrite filter_cons_False by done. rewrite IH.
    destruct (decide (value ∈ l)).
    + by rewrite decide_True by (by right).
    + rewrite decide_False; [done|]. by intros [->|?]%elem_of_cons.
Qed.

(** When no slide lists a value twice, the recorded slide numbers are the
    slides stating the value, each once. *)
Lemma occurrences_distinct (words : list str) (facts : SlideData → list str)
    (value : str) (slides_data : Slides) :
  (∀ entry, entry ∈ slides_data → NoDup (facts entry.2)) →
  occurrences lower words facts value slides_data
  = slides_stating lower words facts value slides_data.
Proof.
  unfold occurrences, slides_stating.
  induction slides_data as [|[n d] slides_data IH]; intros Hnd; [done|].
  rewrite fmap_cons, filter_cons. cbn [concat fst snd].
  rewrite IH by (intros ? ?; apply Hnd; by right).
  rewrite count_NoDup by apply (Hnd (n, d)), list_elem_of_here.
  destruct (any_in words (slide_text_of lower d)) eqn:Hgate.
  - destruct (decide (value ∈ facts d)).
    + by rewrite decide_True.
    + rewrite decide_False; [done|]. by intros [_ ?].
  - rewrite decide_False; [done|]. by intros [? _].
Qed.

Lemma slides_stating_NoDup (words : list str) (facts : SlideData → list str)
    (value : str) (slides_data : Slides) :
  NoDup (dict_keys slides_data) →
  NoDup (slides_stating lower words facts value slides_data).
Proof.
  intros Hnd. unfold slides_stating.
  eapply sublist_NoDup; [exact Hnd|].
  apply fmap_sublist, sublist_filter.
Qed.

Lemma report_conflicts_type (what sev ty : str) (data : list (str * list Z))
    (finding : Finding) :
  finding ∈ report_conflicts what sev ty data [] →
  severity finding = Some sev ∧ type finding = Some ty.
Proof.
  rewrite report_conflicts_acc. cbn [app].
  by intros (entry & -> & _)%list_elem_of_fmap.
Qed.

(** The scan in general: a conflict of one of the three sub-types is
    emitted for [value] exactly when two or more occurrences of [value] were
    recorded in the grouping of that sub-type, and it lists the slide number
    of each occurrence. *)
Lemma numerical_conflicts_by_occurrences (slides_data : Slides)
    (value : str) (nums : list Z) :
  let found := _detect_numerical_conflicts lower slides_data in
  (conflict (py "revenue figures") (py "high") (py "revenue_conflict") value nums
     ∈ found
   ↔ nums = occurrences lower revenue_words currency value slides_data
     ∧ (2 ≤ length nums)%nat)
  ∧ (conflict (py "percentage data") (py "high") (py "percentage_conflict")
       value nums ∈ found
     ↔ nums = occurrences lower percentage_words percentages value slides_data
       ∧ (2 ≤ length nums)%nat)
  ∧ (conflict (py "quantity data") (py "medium") (py "quantity_conflict")
       value nums ∈ found
     ↔ nums = occurrences lower quantity_words numbers value slides_data
       ∧ (2 ≤ length nums)%nat).
Proof.
  intros found. unfold found. rewrite detect_numerical_conflicts_eq.
  rewrite !elem_of_app.
  assert (Hother : ∀ what sev ty what' sev' ty' data,
            ty ≠ ty' →
            conflict what sev ty value nums
              ∉ report_conflicts what' sev' ty' data []).
  { intros what sev ty what' sev' ty' data Hne Hin.
    apply report_conflicts_type in Hin as [_ Hty].
    cbn [conflict type] in Hty. by apply (inj Some) in Hty. }
  split; [|split]; rewrite <- report_conflicts_value.
  - split; [|by left]. intros [Hin|[Hin|Hin]]; [done| |];
      by apply Hother in Hin; [|vm_compute].
  - split; [|by right; left]. intros [Hin|[Hin|Hin]]; [|done|];
      by apply Hother in Hin; [|vm_compute].
  - split; [|by right; right]. intros [Hin|[Hin|Hin]]; [| |done];
      by apply Hother in Hin; [|vm_compute].
Qed.

(** On a mapping in which no slide lists a value twice, the scan does what
    the specification says: a conflict is emitted for [value] exactly when
    two or more different slides state it under the keywords of its
    grouping, and it lists those slides. *)
Lemma numerical_conflicts_without_repeats (slides_data : Slides)
    (value : str) (nums : list Z) :
  NoDup (dict_keys slides_data) →
  (∀ entry, entry ∈ slides_data →
     NoDup (currency entry.2) ∧ NoDup (percentages entry.2)
     ∧ NoDup (numbers entry.2)) →
  let found := _detect_numerical_conflicts lower slides_data in
  (conflict (py "revenue figures") (py "high") (py "revenue_conflict") value nums
     ∈ found
   ↔ nums = slides_stating lower revenue_words currency value slides_data
     ∧ (2 ≤ length nums)%nat)
  ∧ (conflict (py "percentage data") (py "high") (py "percentage_conflict")
       value nums ∈ found
     ↔ nums = slides_stating lower percentage_words percentages value slides_data
       ∧ (2 ≤ length nums)%nat)
  ∧ (conflict (py "quantity data") (py "medium") (py "quantity_conflict")
       value nums ∈ found
     ↔ nums = slides_stating lower quantity_words numbers value slides_data
       ∧ (2 ≤ length nums)%nat)
  ∧ NoDup (slides_stating lower revenue_words currency value slides_data)
  ∧ NoDup (slides_stating lower percentage_words percentages value slides_data)
  ∧ NoDup (slides_stating lower quantity_words numbers value slides_data).
Proof.
  intros Hkeys Hfacts found.
  destruct (numerical_conflicts_by_occurrences slides_data value nums)
    as (Hrev & Hpct & Hqty).
  rewrite !occurrences_distinct in Hrev, Hpct, Hqty
    by (intros entry Hentry; by destruct (Hfacts entry Hentry) as (? & ? & ?)).
  repeat split; try (by apply slides_stating_NoDup);
    first [by apply Hrev|by apply Hpct|by apply Hqty].
Qed.

End Reconciliation.

(** ** Pattern matching *)

Lemma star_loop_sound (body : str → (str → option str) → option str)
    (r : regex) (k : str → option str) :
  (∀ s k' rest, body s k' = Some rest →
     ∃ w s1, s = w ++ s1 ∧ matches r w ∧ k' s1 = Some rest) →
  ∀ fuel s rest, star_loop body k fuel s = Some rest →
    ∃ w s1, s = w ++ s1 ∧ matches (Star r) w ∧ k s1 = Some rest.
Proof.
  intros Hbody. induction fuel as [|fuel IH]; intros s rest; cbn [star_loop].
  - intros Hk. exists [], s. split; [done|]. split; [constructor|done].
  - destruct (body s _) as [rest'|] eqn:Hround.
    + intros [= ->]. apply Hbody in Hround as (w1 & s1 & -> & Hw1 & Hnext).
      case_bool_decide; [|done].
      apply IH in Hnext as (w2 & s2 & -> & Hw2 & Hk).
      exists (w1 ++ w2), s2. split; [by rewrite app_assoc|].
      split; [by constructor|done].
    + intros Hk. exists [], s. split; [done|]. split; [constructor|done].
Qed.

Lemma rmatch_sound (r : regex) :
  ∀ s k rest, rmatch r s k = Some rest →
    ∃ w s1, s = w ++ s1 ∧ matches r w ∧ k s1 = Some rest.
Proof.
  induction r as [p|r1 IH1 r2 IH2|r1 IH1|r1 IH1]; intros s k rest; cbn [rmatch].
  - destruct s as [|c s]; [done|]. destruct (p c) eqn:Hp; [|done].
    intros Hk. exists [c], s. split; [done|]. split; [by constructor|done].
  - intros H1. apply IH1 in H1 as (w1 & s1 & -> & Hw1 & H2).
    apply IH2 in H2 as (w2 & s2 & -> & Hw2 & Hk).
    exists (w1 ++ w2), s2. split; [by rewrite app_assoc|].
    split; [by constructor|done].
  - destruct (rmatch r1 s k) as [rest'|] eqn:H1.
    + intros [= ->]. apply IH1 in H1 as (w & s1 & -> & Hw & Hk).
      exists w, s1. split; [done|]. split; [by constructor|done].
    + intros Hk. exists [], s. split; [done|]. split; [constructor|done].
  - apply star_loop_sound, IH1.
Qed.

(** The continuation is only asked about texts no longer than the one
    matched. *)
Lemma star_loop_ext (body : str → (str → option str) → option str) :
  (∀ s k k', (∀ s1, (length s1 ≤ length s)%nat → k s1 = k' s1) →
             body s k = body s k') →
  ∀ fuel s k k', (∀ s1, (length s1 ≤ length s)%nat → k s1 = k' s1) →
    star_loop body k fuel s = star_loop body k' fuel s.
Proof.
  intros Hbody. induction fuel as [|fuel IH]; intros s k k' Hk; cbn [star_loop].
  - by apply Hk.
  - rewrite (Hk s) by done.
    erewrite (Hbody s); [reflexivity|].
    intros s1 Hs1. cbn. case_bool_decide; [|done].
    apply IH. intros s2 Hs2. apply Hk. lia.
Qed.

Lemma rmatch_ext (r : regex) :
  ∀ s k k', (∀ s1, (length s1 ≤ length s)%nat → k s1 = k' s1) →
    rmatch r s k = rmatch r s k'.
Proof.
  induction r as [p|r1 IH1 r2 IH2|r1 IH1|r1 IH1]; intros s k k' Hk; cbn [rmatch].
  - destruct s as [|c s]; [done|]. destruct (p c); [|done].
    apply Hk. cbn. lia.
  - apply IH1. intros s1 Hs1. apply IH2. intros s2 Hs2. apply Hk. lia.
  - rewrite (IH1 s k k' Hk). by rewrite (Hk s).
  - by apply star_loop_ext.
Qed.

(** Nothing matches when the continuation refuses everything. *)
Lemma rmatch_refused (r : regex) (s : str) : rmatch r s (λ _, None) = None.
Proof.
  revert s. induction r as [p|r1 IH1 r2 IH2|r1 IH1|r1 IH1]; intros s; cbn [rmatch].
  - destruct s as [|c s]; [done|]. by destruct (p c).
  - rewrite (rmatch_ext r1 s _ (λ _, None)); [apply IH1|]. intros s1 _. apply IH2.
  - by rewrite IH1.
  - generalize (length s). intros fuel. revert s.
    induction fuel as [|fuel IH]; intros s; cbn [star_loop]; [done|].
    rewrite (rmatch_ext r1 s _ (λ _, None)); [by rewrite IH1|].
    intros s1 _. cbn. by case_bool_decide.
Qed.

(** The bound on the rounds of a [*] is never what stops it. *)
Lemma star_loop_fuel (r : regex) (k : str → option str) :
  ∀ fuel fuel' s, (length s ≤ fuel)%nat → (length s ≤ fuel')%nat →
    star_loop (rmatch r) k fuel s = star_loop (rmatch r) k fuel' s.
Proof.
  assert (Hempty : ∀ fuel, star_loop (rmatch r) k fuel [] = k []).
  { intros [|fuel]; cbn [star_loop]; [done|].
    rewrite (rmatch_ext r [] _ (λ _, None)); [by rewrite rmatch_refused|].
    intros s1 Hs1. cbn. case_bool_decide; [lia|done]. }
  induction fuel as [|fuel IH]; intros fuel' s Hfuel Hfuel'.
  - destruct s; [by rewrite !Hempty|cbn in Hfuel; lia].
  - destruct fuel' as [|fuel'].
    { destruct s; [by rewrite !Hempty|cbn in Hfuel'; lia]. }
    cbn [star_loop].
    erewrite (rmatch_ext r s); [reflexivity|].
    intros s1 Hs1. cbn. case_bool_decide; [|done]. apply IH; lia.
Qed.

(** The equation of a greedy [*]: one round and the [*] again on what is
    left, or else the continuation. *)
Lemma rmatch_star_unfold (r : regex) (s : str) (k : str → option str) :
  rmatch (Star r) s k
  = match rmatch r s (λ s1, if bool_decide (length s1 < length s)%nat
                            then rmatch (Star r) s1 k else None) with
    | Some rest => Some rest
    | None => k s
    end.
Proof.
  cbn [rmatch]. destruct s as [|c s].
  - cbn [length star_loop].
    rewrite (rmatch_ext r [] _ (λ _, None)); [by rewrite rmatch_refused|].
    intros s1 Hs1. cbn. case_bool_decide; [lia|done].
  - cbn [length star_loop].
    erewrite (rmatch_ext r (c :: s)); [reflexivity|].
    intros s1 Hs1. cbn. case_bool_decide; [|done].
    apply star_loop_fuel; lia.
Qed.

Lemma match_at_sound (r : regex) (s m : str) :
  match_at r s = Some m → matches r m.
Proof.
  unfold match_at. destruct (rmatch r s Some) as [rest|] eqn:Hm; [|done].
  apply rmatch_sound in Hm as (w & s1 & -> & Hw & [= ->]).
  cbn. intros [= <-]. rewrite length_app.
  replace (length w + length rest - length rest)%nat with (length w) by lia.
  by rewrite take_app_length.
Qed.

Lemma findall_from_sound (r : regex) (s : str) (skip : nat) (m : str) :
  m ∈ findall_from r s skip → matches r m.
Proof.
  revert skip. induction s as [|c s IH]; intros skip; cbn [findall_from].
  - destruct skip; [|by intros ?%elem_of_nil].
    destruct (match_at r []) as [m'|] eqn:Hm; [|by intros ?%elem_of_nil].
    intros ->%list_elem_of_singleton. by eapply match_at_sound.
  - destruct skip as [|skip]; [|apply IH].
    destruct (match_at r (c :: s)) as [m'|] eqn:Hm; [|apply IH].
    intros [->|Hin]%elem_of_cons; [by eapply match_at_sound|by eapply IH].
Qed.

Lemma findall_sound (r : regex) (s m : str) :
  m ∈ findall r s → matches r m.
Proof. apply findall_from_sound. Qed.

Lemma matches_cls_inv (p : char → bool) (w : str) :
  matches (Cls p) w → ∃ c, w = [c] ∧ p c = true.
Proof. inversion 1; subst. by eexists. Qed.

Lemma matches_seq_inv (r1 r2 : regex) (w : str) :
  matches (Seq r1 r2) w → ∃ w1 w2, w = w1 ++ w2 ∧ matches r1 w1 ∧ matches r2 w2.
Proof. inversion 1; subst. by do 2 eexists. Qed.

Lemma matches_opt_inv (r : regex) (w : str) :
  matches (Opt r) w → w = [] ∨ matches r w.
Proof. inversion 1; subst; auto. Qed.

Lemma matches_star_cls (p : char → bool) (w : str) :
  matches (Star (Cls p)) w → all_of p w.
Proof.
  intros Hm. remember (Star (Cls p)) as r eqn:Hr.
  induction Hm as [| | | | |r w1 w2 H1 _ H2 IH2]; try done.
  - constructor.
  - injection Hr as ->. apply matches_cls_inv in H1 as (c & -> & Hc).
    constructor; [done|]. by apply IH2.
Qed.

Lemma matches_plus_cls (p : char → bool) (w : str) :
  matches (Plus (Cls p)) w → w ≠ [] ∧ all_of p w.
Proof.
  intros (w1 & w2 & -> & (c & -> & Hc)%matches_cls_inv & H2%matches_star_cls)
    %matches_seq_inv.
  split; [done|]. by constructor.
Qed.

Section FactExtraction.
Variables isdigit isspace : char → bool.
Variable re_findall : str → str → list str.

Lemma matches_percentage_pattern (w : str) :
  matches (percentage_pattern isdigit isspace) w →
  number_space_percent isdigit isspace w.
Proof.
  unfold percentage_pattern.
  intros (ds & w1 & -> & [Hne Hds]%matches_plus_cls & Hrest)%matches_seq_inv.
  apply matches_seq_inv in Hrest as (frac & w2 & -> & Hfrac & Hrest).
  apply matches_seq_inv in Hrest as (ws & pc & -> & Hws%matches_star_cls & Hpc).
  apply matches_cls_inv in Hpc as (c & -> & ->%bool_decide_eq_true).
  exists (ds ++ frac), ws. split; [by rewrite <- app_assoc|]. split; [|done].
  exists ds, frac. split; [done|]. split; [done|]. split; [done|].
  apply matches_opt_inv in Hfrac as [->|Hfrac]; [by left|right].
  apply matches_seq_inv in Hfrac as (dot & fs & -> & Hdot & [Hfs Hall]%matches_plus_cls).
  apply matches_cls_inv in Hdot as (c & -> & ->%bool_decide_eq_true).
  by exists fs.
Qed.

(** C9, as the code has it.  Every entry of the percentages sequence is a
    number (digits, optionally a point and more digits) followed by white
    space, possibly none, and then [%]; in particular every entry ends with
    [%]. *)
Theorem C9_percentage_entries_shape (text entry : str) :
  entry ∈ percentage_matches
            (extract_numbers_and_dates isdigit isspace re_findall text) →
  number_space_percent isdigit isspace entry ∧ last entry = Some 37%N.
Proof.
  unfold extract_numbers_and_dates. case_bool_decide; cbn [percentage_matches].
  - by intros ?%elem_of_nil.
  - intros Hshape%findall_sound%matches_percentage_pattern.
    split; [done|]. destruct Hshape as (n & ws & -> & _).
    by rewrite !app_assoc, last_snoc.
Qed.

End FactExtraction.
(** ** Parsing the reply and dispatching on it *)

Lemma outcome_list_returns {A B : Type} (f : A → Outcome B) (g : A → B)
    (l : list A) :
  (∀ x, x ∈ l → f x = Returns (g x)) →
  outcome_list (f <$> l) = Returns (g <$> l).
Proof.
  unfold outcome_list. induction l as [|x l IH]; intros Hall; [done|].
  rewrite !fmap_cons. cbn [foldr]. rewrite IH, (Hall x); [done|left|].
  intros y Hy. apply Hall. by right.
Qed.

Lemma outcome_list_raises {A B : Type} (f : A → Outcome B) (l : list A) (x : A) :
  x ∈ l → f x = Raises → outcome_list (f <$> l) = Raises.
Proof.
  unfold outcome_list. intros Hx Hraise.
  induction l as [|y l IH]; [by apply elem_of_nil in Hx|].
  rewrite fmap_cons. cbn [foldr].
  apply elem_of_cons in Hx as [<-|Hx].
  - by rewrite Hraise.
  - rewrite (IH Hx). by destruct (f y).
Qed.

(** The legacy dict holds what the categories of the object hold. *)
Lemma decode_inconsistencies_legacy_dict (members : list (str * Json)) :
  decode_inconsistencies (legacy_dict members)
  = decode_inconsistencies (JObject members).
Proof.
  unfold decode_inconsistencies, legacy_dict. f_equal.
Qed.

Lemma decode_inconsistencies_returns (members : list (str * Json))
    (ai_items : str → list Finding) :
  (∀ category, category ∈ categories →
     decode_findings (default (JArray []) (dict_get members category))
     = Returns (ai_items category)) →
  decode_inconsistencies (JObject members)
  = Returns ((λ category, (category, ai_items category)) <$> categories).
Proof.
  intros Hall. unfold decode_inconsistencies.
  apply (outcome_list_returns _ (λ category, (category, ai_items category))).
  intros category Hcat. by rewrite (Hall category Hcat).
Qed.

Lemma decode_inconsistencies_raises (members : list (str * Json)) (category : str) :
  category ∈ categories →
  decode_findings (default (JArray []) (dict_get members category)) = Raises →
  decode_inconsistencies (JObject members) = Raises.
Proof.
  intros Hcat Hraise. unfold decode_inconsistencies.
  apply (outcome_list_raises _ _ category Hcat). by rewrite Hraise.
Qed.

Lemma legacy_dict_no_summary (members : list (str * Json)) :
  dict_with_key (py "executive_summary") (legacy_dict members) = false.
Proof.
  unfold legacy_dict, dict_with_key. apply bool_decide_eq_false_2.
  by intros [? [=]].
Qed.

Section AnalyzerProperties.
Variable lower : str → str.
Variable json_loads : str → option Json.
Variable re_findall : str → str → list str.
Variable re_sub : str → str → str → str.
Variable strip : str → str.
Variable _call_gemini_api : Slides → str + Response.

Lemma first_success_None {A B : Type} (f : A → option B) (l : list A) :
  (∀ x, x ∈ l → f x = None) → first_success f l = None.
Proof.
  induction l as [|x l IH]; intros Hall; [done|].
  cbn [first_success]. rewrite (Hall x) by left.
  apply IH. intros y Hy. apply Hall. by right.
Qed.

Lemma robust_json_parse_fails (text : str) :
  all_strategies_fail json_loads re_findall re_sub strip text →
  _robust_json_parse json_loads re_findall re_sub strip text = None.
Proof.
  intros (H1 & H2 & H3 & H4 & H5). unfold _robust_json_parse.
  rewrite H1.
  destruct (re_findall fenced_pattern text) as [|m ms] eqn:Hfenced.
  - by rewrite (first_success_None _ _ H3), H4, H5.
  - rewrite (H2 m) by done. by rewrite (first_success_None _ _ H3), H4, H5.
Qed.

Lemma parse_response_body_default
    (response : Response) (text : str) (others : list (option str)) :
  candidates response = Some (Some text :: others) →
  all_strategies_fail json_loads re_findall re_sub strip text →
  parse_response_body json_loads re_findall re_sub strip response
  = Some _get_empty_intelligence_report.
Proof.
  intros Hcand Hfail. unfold parse_response_body. rewrite Hcand.
  cbn [mbind option_bind].
  by rewrite (robust_json_parse_fails text Hfail).
Qed.

(** C8. When the reply carries a text on which every parsing strategy
    fails, the [try] block of [_parse_analysis_response] raises nothing and
    the function returns the default empty intelligence report; and on
    every reply, whatever the block does, the function returns a report
    (the default one when the block raises). *)
Theorem C8_unparseable_reply_gives_default_report
    (response : Response) (text : str) (others : list (option str)) :
  candidates response = Some (Some text :: others) →
  all_strategies_fail json_loads re_findall re_sub strip text →
  _robust_json_parse json_loads re_findall re_sub strip text = None
  ∧ parse_response_body json_loads re_findall re_sub strip response
    = Some _get_empty_intelligence_report
  ∧ _parse_analysis_response json_loads re_findall re_sub strip response
    = _get_empty_intelligence_report
  ∧ (∀ response',
       parse_response_body json_loads re_findall re_sub strip response' = None →
       _parse_analysis_response json_loads re_findall re_sub strip response'
       = _get_empty_intelligence_report).
Proof.
  intros Hcand Hfail.
  pose proof (robust_json_parse_fails text Hfail) as Hparse.
  pose proof (parse_response_body_default response text others Hcand Hfail)
    as Hbody.
  split; [done|]. split; [done|]. split.
  - unfold _parse_analysis_response. by rewrite Hbody.
  - intros response' Hraise. unfold _parse_analysis_response. by rewrite Hraise.
Qed.

(** A tagged error comes from a missing key or from an exception of the
    request, and from nothing else. *)
Lemma tagged_error_iff (api_key : option str) (slides_data : Slides) :
  is_Some (ai_error
             (analyze_inconsistencies json_loads re_findall re_sub strip
                                      _call_gemini_api api_key slides_data))
  ↔ default [] api_key = [] ∨ ∃ e, _call_gemini_api slides_data = inl e.
Proof.
  unfold analyze_inconsistencies. case_bool_decide as Hkey.
  - cbn. split; [by left|by eexists].
  - destruct (_call_gemini_api slides_data) as [e|response].
    + cbn. split; [right; by eexists|by eexists].
    + destruct (dict_with_key _ _); cbn; (split; [by intros [? ?]|]);
        by intros [?|[? ?]].
Qed.

Lemma first_success_app {A B : Type} (f : A → option B) (l1 l2 : list A) :
  first_success f (l1 ++ l2)
  = match first_success f l1 with
    | Some y => Some y
    | None => first_success f l2
    end.
Proof.
  induction l1 as [|x l1 IH]; [done|]. cbn [app first_success].
  by destruct (f x).
Qed.

(** The cascade of [_robust_json_parse] is the search for the first
    candidate text that [json.loads] accepts. *)
Lemma robust_json_parse_eq (text : str) :
  _robust_json_parse json_loads re_findall re_sub strip text
  = parsed_from json_loads re_findall re_sub strip text.
Proof.
  unfold _robust_json_parse, parsed_from, candidate_texts.
  cbn [first_success]. destruct (json_loads text); [done|].
  rewrite !first_success_app.
  destruct (re_findall fenced_pattern text) as [|m ms]; cbn [head].
  - change (option_list None) with ([] : list str).
    cbn [first_success]. destruct (first_success json_loads _); [done|].
    by destruct (json_loads (cleaned_text_of strip text)),
                (json_loads (_fix_common_json_issues re_sub text)).
  - change (option_list (Some m)) with [m].
    cbn [first_success]. destruct (json_loads m); [done|].
    destruct (first_success json_loads _); [done|].
    by destruct (json_loads (cleaned_text_of strip text)),
                (json_loads (_fix_common_json_issues re_sub text)).
Qed.

(** What the parser returns when the reply has nothing to read. *)
Lemma no_usable_object_default (response : Response) :
  no_usable_object json_loads re_findall re_sub strip response →
  _parse_analysis_response json_loads re_findall re_sub strip response
  = _get_empty_intelligence_report.
Proof.
  intros Hcases. unfold _parse_analysis_response, parse_response_body.
  destruct Hcases as [->|[->|[[others ->]|(text & others & -> & Htext)]]];
    try done.
  cbn [mbind option_bind]. rewrite robust_json_parse_eq.
  destruct Htext as [->|(parsed & -> & [->|Hobject])]; try done.
  destruct (json_truthy parsed); [|done].
  destruct parsed as [| | | | | |members]; try done.
  by destruct (Hobject members).
Qed.

(** What the parser returns when the reply holds a non-empty object. *)
Lemma parse_analysis_response_object (response : Response) (text : str)
    (others : list (option str)) (members : list (str * Json)) :
  candidates response = Some (Some text :: others) →
  parsed_from json_loads re_findall re_sub strip text = Some (JObject members) →
  json_truthy (JObject members) = true →
  _parse_analysis_response json_loads re_findall re_sub strip response
  = default (legacy_dict members) (dict_get members (py "intelligence_report")).
Proof.
  intros Hcand Hparse Htruthy.
  unfold _parse_analysis_response, parse_response_body.
  rewrite Hcand. cbn [mbind option_bind].
  rewrite robust_json_parse_eq, Hparse, Htruthy.
  by destruct (dict_get members (py "intelligence_report")).
Qed.

(** The dispatch on an analysis built from a reply. *)
Lemma main_results_reply (api_key : option str) (slides_data : Slides)
    (response : Response) :
  default [] api_key ≠ [] →
  _call_gemini_api slides_data = inr response →
  let report :=
    _parse_analysis_response json_loads re_findall re_sub strip response in
  let ai_analysis :=
    analyze_inconsistencies json_loads re_findall re_sub strip _call_gemini_api
                            api_key slides_data in
  ai_error ai_analysis = None
  ∧ main_results lower slides_data ai_analysis
    = if dict_with_key (py "executive_summary") report
      then Returns (Intelligence report)
      else outcome_map
             (λ lists,
                Detection
                  (detect_inconsistencies lower slides_data
                     {| ai_error := None; ai_intelligence_report := None;
                        ai_inconsistencies := Some lists;
                        ai_analysis_type := Some (py "legacy");
                        ai_slides_analyzed := Some (length slides_data) |}))
             (decode_inconsistencies report).
Proof.
  intros Hkey Hcall report ai_analysis.
  unfold ai_analysis, analyze_inconsistencies.
  rewrite bool_decide_eq_false_2 by done. rewrite Hcall. fold report.
  destruct (dict_with_key (py "executive_summary") report); [done|].
  split; [done|]. unfold main_results, typed_analysis.
  cbn [ai_error ai_analysis_type ai_inconsistencies ai_intelligence_report
       ai_slides_analyzed].
  rewrite bool_decide_eq_false_2 by (by intros [? ?]).
  rewrite bool_decide_eq_false_2 by (by vm_compute).
  by destruct (decode_inconsistencies report).
Qed.

(** A reply on which every parsing strategy fails is not a tagged error:
    the analysis carries the default report as an intelligence report, and
    [main] hands that report on. *)
Lemma unparseable_reply_is_no_error (api_key : option str) (slides_data : Slides)
    (response : Response) (text : str) (others : list (option str)) :
  default [] api_key ≠ [] →
  _call_gemini_api slides_data = inr response →
  candidates response = Some (Some text :: others) →
  all_strategies_fail json_loads re_findall re_sub strip text →
  let ai_analysis :=
    analyze_inconsistencies json_loads re_findall re_sub strip _call_gemini_api
                            api_key slides_data in
  ai_error ai_analysis = None
  ∧ main_results lower slides_data ai_analysis
    = Returns (Intelligence _get_empty_intelligence_report).
Proof.
  intros Hkey Hcall Hcand Hfail ai_analysis.
  destruct (main_results_reply api_key slides_data response Hkey Hcall)
    as [Herr Hmain].
  split; [done|]. unfold ai_analysis. rewrite Hmain.
  unfold _parse_analysis_response.
  by rewrite (parse_response_body_default response text others Hcand Hfail).
Qed.



End AnalyzerProperties.

(** * Further properties *)

(** ** The rule-based scans *)

Lemma timeline_loop_acc (slides_data : Slides) (acc : list (Z * list str)) :
  NoDup (dict_keys slides_data) →
  (∀ k, k ∈ dict_keys slides_data → k ∉ dict_keys acc) →
  foldl (λ all_dates '(slide_num, slide_data),
           if bool_decide (dates slide_data ≠ [])
           then dict_set slide_num (dates slide_data) all_dates
           else all_dates)
        acc slides_data
  = acc ++ ((λ entry : Z * SlideData, (entry.1, dates entry.2))
              <$> filter (λ entry : Z * SlideData, dates entry.2 ≠ []) slides_data).
Proof.
  revert acc. induction slides_data as [|[n d] slides_data IH]; intros acc Hnd Hfresh.
  - by rewrite app_nil_r.
  - unfold dict_keys in Hnd. rewrite fmap_cons in Hnd.
    apply NoDup_cons in Hnd as [Hn Hnd].
    cbn [foldl]. rewrite filter_cons. cbn [snd].
    destruct (decide (dates d ≠ [])) as [Hd|Hd].
    + rewrite bool_decide_eq_true_2 by done. unfold dict_set.
      rewrite dict_upsert_fresh by (apply Hfresh; left).
      rewrite IH; [by rewrite fmap_cons, <- app_assoc|done|].
      intros k Hk. unfold dict_keys. rewrite fmap_app, elem_of_app.
      intros [Hin|Hin%list_elem_of_singleton].
      * by apply (Hfresh k); [right|].
      * simpl in Hin. by subst.
    + rewrite bool_decide_eq_false_2 by done. apply IH; [done|].
      intros k Hk. apply Hfresh. by right.
Qed.

Lemma detect_timeline_issues_eq (slides_data : Slides) :
  NoDup (dict_keys slides_data) →
  _detect_timeline_issues slides_data
  = if bool_decide (1 < length (slides_with_dates slides_data))%nat
    then [ {| slide_numbers := Some (slides_with_dates slides_data);
              description :=
                Some (py "Multiple dates found across slides - potential timeline conflicts");
              severity := Some (py "medium");
              type := Some (py "timeline_issues") |} ]
    else [].
Proof.
  intros Hnd. unfold _detect_timeline_issues.
  rewrite timeline_loop_acc; [|done|intros ? _; apply not_elem_of_nil].
  cbn [app]. unfold slides_with_dates, dict_keys.
  rewrite <- list_fmap_compose, length_fmap, length_fmap.
  by case_bool_decide.
Qed.

(** X1. The timeline scan reports nothing when fewer than two slides carry
    a date, and otherwise one finding of severity [medium] that lists, in
    the order of the mapping, every slide carrying a date. *)
Theorem X1_timeline_scan (slides_data : Slides) :
  NoDup (dict_keys slides_data) →
  let dated := slides_with_dates slides_data in
  ((length dated ≤ 1)%nat → _detect_timeline_issues slides_data = [])
  ∧ ((2 ≤ length dated)%nat →
     _detect_timeline_issues slides_data
     = [ {| slide_numbers := Some dated;
            description :=
              Some (py "Multiple dates found across slides - potential timeline conflicts");
            severity := Some (py "medium");
            type := Some (py "timeline_issues") |} ])
  ∧ (length (_detect_timeline_issues slides_data) ≤ 1)%nat.
Proof.
  intros Hnd dated. rewrite detect_timeline_issues_eq by done. fold dated.
  repeat split.
  - intros Hlen. by rewrite bool_decide_eq_false_2 by lia.
  - intros Hlen. by rewrite bool_decide_eq_true_2 by lia.
  - case_bool_decide; cbn; lia.
Qed.

Section FurtherDetector.
Variable lower : str → str.

Lemma occurrences_elem (words : list str) (facts : SlideData → list str)
    (value : str) (slides_data : Slides) (n : Z) :
  n ∈ occurrences lower words facts value slides_data →
  ∃ slide_data, (n, slide_data) ∈ slides_data
                ∧ any_in words (slide_text_of lower slide_data) = true
                ∧ value ∈ facts slide_data.
Proof.
  unfold occurrences.
  induction slides_data as [|[m d] slides_data IH]; [by intros ?%elem_of_nil|].
  rewrite fmap_cons. cbn [concat fst snd]. intros [Hin|Hin]%elem_of_app.
  - destruct (any_in words (slide_text_of lower d)) eqn:Hgate;
      [|by apply elem_of_nil in Hin].
    apply elem_of_replicate in Hin as [-> Hcount].
    exists d. split; [left|]. split; [done|].
    destruct (filter (λ x, x = value) (facts d)) as [|x l] eqn:Hfilter; [done|].
    assert (Hx : x ∈ filter (λ x, x = value) (facts d)) by (rewrite Hfilter; left).
    by apply list_elem_of_filter in Hx as [-> ?].
  - destruct (IH Hin) as (d' & ? & ?). exists d'. split; [by right|done].
Qed.

(** What a finding of one reporting loop is. *)
Lemma report_conflicts_inv (what sev ty : str) (words : list str)
    (facts : SlideData → list str) (slides_data : Slides) (finding : Finding) :
  finding ∈ report_conflicts what sev ty
              (collect_group lower words facts slides_data []) [] →
  ∃ value,
    finding = conflict what sev ty value
                (occurrences lower words facts value slides_data)
    ∧ (2 ≤ length (occurrences lower words facts value slides_data))%nat.
Proof.
  intros Hin. pose proof Hin as Hin'.
  rewrite report_conflicts_acc in Hin'. cbn [app] in Hin'.
  apply list_elem_of_fmap in Hin' as ([value nums] & -> & _). cbn [fst snd] in *.
  apply report_conflicts_value in Hin as [-> Hlen]. by exists value.
Qed.

(** X2. Every finding of the numerical conflict scan has one of the three
    sub-types and reports one value: its description names the value, and
    each slide it lists is a slide of the mapping whose text has a keyword
    of that sub-type and whose facts hold that value; it lists at least two
    slide numbers. *)
Theorem X2_numerical_conflict_provenance (slides_data : Slides) (finding : Finding) :
  finding ∈ _detect_numerical_conflicts lower slides_data →
  ∃ value nums,
    slide_numbers finding = Some nums ∧ (2 ≤ length nums)%nat
    ∧ ((type finding = Some (py "revenue_conflict")
        ∧ severity finding = Some (py "high")
        ∧ description finding
          = Some (py "Conflicting revenue figures: " ++ value
                    ++ py " appears on multiple slides")
        ∧ nums = occurrences lower revenue_words currency value slides_data
        ∧ ∀ n, n ∈ nums →
            ∃ slide_data, (n, slide_data) ∈ slides_data
              ∧ any_in revenue_words (slide_text_of lower slide_data) = true
              ∧ value ∈ currency slide_data)
       ∨ (type finding = Some (py "percentage_conflict")
          ∧ severity finding = Some (py "high")
          ∧ description finding
            = Some (py "Conflicting percentage data: " ++ value
                      ++ py " appears on multiple slides")
          ∧ nums = occurrences lower percentage_words percentages value slides_data
          ∧ ∀ n, n ∈ nums →
              ∃ slide_data, (n, slide_data) ∈ slides_data
                ∧ any_in percentage_words (slide_text_of lower slide_data) = true
                ∧ value ∈ percentages slide_data)
       ∨ (type finding = Some (py "quantity_conflict")
          ∧ severity finding = Some (py "medium")
          ∧ description finding
            = Some (py "Conflicting quantity data: " ++ value
                      ++ py " appears on multiple slides")
          ∧ nums = occurrences lower quantity_words numbers value slides_data
          ∧ ∀ n, n ∈ nums →
              ∃ slide_data, (n, slide_data) ∈ slides_data
                ∧ any_in quantity_words (slide_text_of lower slide_data) = true
                ∧ value ∈ numbers slide_data)).
Proof.
  rewrite detect_numerical_conflicts_eq, !elem_of_app.
  intros [Hin|[Hin|Hin]]; apply report_conflicts_inv in Hin as (value & -> & Hlen);
    eexists value, _; (split; [reflexivity|]); (split; [exact Hlen|]).
  - left. split; [done|]. split; [done|]. split; [|split; [done|]].
    + cbn [description conflict]. by f_equal.
    + apply occurrences_elem.
  - right. left. split; [done|]. split; [done|]. split; [|split; [done|]].
    + cbn [description conflict]. by f_equal.
    + apply occurrences_elem.
  - right. right. split; [done|]. split; [done|]. split; [|split; [done|]].
    + cbn [description conflict]. by f_equal.
    + apply occurrences_elem.
Qed.

Lemma slides_containing_keys (pattern : str) (slides_data : Slides) :
  slides_containing lower pattern slides_data ⊆ dict_keys slides_data.
Proof.
  unfold slides_containing, dict_keys. intros n (entry & -> & Hin)%list_elem_of_fmap.
  apply list_elem_of_filter in Hin as [_ Hin]. by apply list_elem_of_fmap_2.
Qed.

Lemma slides_with_dates_keys (slides_data : Slides) :
  slides_with_dates slides_data ⊆ dict_keys slides_data.
Proof.
  unfold slides_with_dates, dict_keys. intros n (entry & -> & Hin)%list_elem_of_fmap.
  apply list_elem_of_filter in Hin as [_ Hin]. by apply list_elem_of_fmap_2.
Qed.

Lemma all_findings_rule_based (slides_data : Slides) (finding : Finding) :
  finding ∈ all_findings (_rule_based_detection lower slides_data) ↔
  finding ∈ _detect_numerical_conflicts lower slides_data
  ∨ finding ∈ _detect_contradictory_statements lower slides_data
  ∨ finding ∈ _detect_timeline_issues slides_data.
Proof.
  rewrite rule_based_detection_eq. unfold all_findings, dict_values.
  rewrite !fmap_cons, fmap_nil. cbn [concat snd].
  rewrite !app_nil_r, !elem_of_app. tauto.
Qed.

Lemma rule_based_finding_inv (slides_data : Slides) (finding : Finding) :
  NoDup (dict_keys slides_data) →
  finding ∈ all_findings (_rule_based_detection lower slides_data) →
  (∃ nums, slide_numbers finding = Some nums ∧ nums ⊆ dict_keys slides_data)
  ∧ is_Some (description finding)
  ∧ (severity finding = Some (py "high") ∨ severity finding = Some (py "medium"))
  ∧ is_Some (type finding).
Proof.
  intros Hnd [Hin|[Hin|Hin]]%all_findings_rule_based.
  - rewrite detect_numerical_conflicts_eq, !elem_of_app in Hin.
    destruct Hin as [Hin|[Hin|Hin]];
      apply report_conflicts_inv in Hin as (value & -> & _);
      (split; [|split; [by eexists|split; [by auto|by eexists]]]);
      (eexists; split; [reflexivity|]);
      intros n (d & Hd & _)%occurrences_elem;
      by apply (list_elem_of_fmap_2 fst) in Hd.
  - rewrite detect_contradictory_statements_eq in Hin by done.
    apply elem_of_concat in Hin as (fs & Hin & Hfs).
    apply list_elem_of_fmap in Hfs as ([[p1 p2] c] & -> & _).
    unfold contradiction_of in Hin.
    destruct (bool_decide _ && bool_decide _); [|by apply elem_of_nil in Hin].
    apply list_elem_of_singleton in Hin as ->.
    split; [|split; [by eexists|split; [by left|by eexists]]].
    eexists. split; [reflexivity|]. intros n [Hn|Hn]%elem_of_app;
      by apply slides_containing_keys in Hn.
  - rewrite detect_timeline_issues_eq in Hin by done.
    case_bool_decide; [|by apply elem_of_nil in Hin].
    apply list_elem_of_singleton in Hin as ->.
    split; [|split; [by eexists|split; [by right|by eexists]]].
    eexists. split; [reflexivity|]. apply slides_with_dates_keys.
Qed.

(** X3. A finding of the rule-based detector only lists slides of the
    mapping, carries all four keys, and has severity [high] or [medium]. *)
Theorem X3_rule_based_findings_well_formed
    (slides_data : Slides) (finding : Finding) :
  NoDup (dict_keys slides_data) →
  finding ∈ all_findings (_rule_based_detection lower slides_data) →
  (∃ nums, slide_numbers finding = Some nums ∧ nums ⊆ dict_keys slides_data)
  ∧ is_Some (description finding)
  ∧ (severity finding = Some (py "high") ∨ severity finding = Some (py "medium"))
  ∧ is_Some (type finding).
Proof.
  apply rule_based_finding_inv.
Qed.

Lemma deduplicate_length (items : list Finding) :
  (length (_deduplicate_items lower items) ≤ length items)%nat
  ∧ (length (_deduplicate_items lower items) = 0%nat ↔ length items = 0%nat).
Proof.
  split; [apply sublist_length, dedup_loop_sublist|].
  destruct items as [|item items]; [done|].
  unfold _deduplicate_items. rewrite dedup_loop_cons.
  rewrite decide_False by apply not_elem_of_empty. done.
Qed.

Lemma extract_ai_results_shape (ai_analysis : AiAnalysis) :
  ∃ a1 a2 a3 a4,
    _extract_ai_results ai_analysis
    = [ (py "numerical_conflicts", a1); (py "contradictory_statements", a2);
        (py "timeline_issues", a3); (py "logical_inconsistencies", a4) ].
Proof.
  unfold _extract_ai_results. case_bool_decide; by do 4 eexists.
Qed.

Lemma all_findings_combined (r1 r2 r3 r4 a1 a2 a3 a4 : list Finding) :
  all_findings
    (_combine_results lower
       [ (py "numerical_conflicts", r1); (py "contradictory_statements", r2);
         (py "timeline_issues", r3); (py "logical_inconsistencies", r4) ]
       [ (py "numerical_conflicts", a1); (py "contradictory_statements", a2);
         (py "timeline_issues", a3); (py "logical_inconsistencies", a4) ])
  = _deduplicate_items lower (r1 ++ a1) ++ _deduplicate_items lower (r2 ++ a2)
    ++ _deduplicate_items lower (r3 ++ a3) ++ _deduplicate_items lower (r4 ++ a4).
Proof.
  rewrite combine_results_eq. unfold all_findings, dict_values, categories.
  rewrite !fmap_cons, fmap_nil. cbn [concat snd]. rewrite app_nil_r.
  reflexivity.
Qed.

(** X4. The number of findings in the summary is the number of findings
    in the combined result; it never exceeds the rule-based count plus the
    oracle's count, and it is zero only when both counts are. *)
Theorem X4_counts_of_a_detection (slides_data : Slides) (ai_analysis : AiAnalysis) :
  let result := detect_inconsistencies lower slides_data ai_analysis in
  let found := inconsistencies_found (summary result) in
  found = length (all_findings (inconsistencies result))
  ∧ (found ≤ rule_based_count result + ai_based_count result)%nat
  ∧ (found = 0%nat ↔ (rule_based_count result + ai_based_count result = 0)%nat)
  ∧ total_slides (summary result) = length slides_data.
Proof.
  intros result found. unfold found, result, detect_inconsistencies.
  cbn [summary inconsistencies rule_based_count ai_based_count].
  unfold _calculate_summary. cbn [inconsistencies_found total_slides].
  rewrite <- length_concat_sum. fold (all_findings
    (_combine_results lower (_rule_based_detection lower slides_data)
       (_extract_ai_results ai_analysis))).
  rewrite !flatten_inconsistencies_concat.
  destruct (extract_ai_results_shape ai_analysis) as (a1 & a2 & a3 & a4 & ->).
  rewrite rule_based_detection_eq.
  generalize (_detect_numerical_conflicts lower slides_data).
  generalize (_detect_contradictory_statements lower slides_data).
  generalize (_detect_timeline_issues slides_data).
  intros r3 r2 r1. rewrite all_findings_combined.
  unfold dict_values. rewrite !fmap_cons, fmap_nil. cbn [concat snd].
  rewrite !length_app. cbn [length].
  pose proof (deduplicate_length (r1 ++ a1)) as [? ?].
  pose proof (deduplicate_length (r2 ++ a2)) as [? ?].
  pose proof (deduplicate_length (r3 ++ a3)) as [? ?].
  pose proof (deduplicate_length ([] ++ a4)) as [? ?].
  rewrite !length_app in *. cbn [length] in *.
  repeat split; lia.
Qed.

Lemma sorted_permutation (l1 l2 : list Z) : l1 ≡ₚ l2 → sorted l1 = sorted l2.
Proof.
  intros Hperm. unfold sorted.
  apply (Sorted_unique Z.le); [apply Sorted_merge_sort, _..|].
  by rewrite !merge_sort_Permutation.
Qed.

(** X5. The deduplication key ignores the order of the slide numbers: a
    finding that lists the slides of an earlier finding in another order,
    and whose lowercased description has the same first 50 characters, has
    the key of the earlier one and is dropped. *)
Theorem X5_dedup_ignores_slide_order
    (items : list Finding) (earlier later : Finding) :
  earlier ∈ items →
  default [] (slide_numbers earlier) ≡ₚ default [] (slide_numbers later) →
  take 50 (lower (default [] (description earlier)))
  = take 50 (lower (default [] (description later))) →
  dedup_key lower later = dedup_key lower earlier
  ∧ _deduplicate_items lower (items ++ [later]) = _deduplicate_items lower items.
Proof.
  intros Hin Hperm Hdescr.
  assert (Hkey : dedup_key lower later = dedup_key lower earlier).
  { unfold dedup_key. by rewrite (sorted_permutation _ _ Hperm), Hdescr. }
  split; [done|]. unfold _deduplicate_items. rewrite dedup_loop_app.
  rewrite (dedup_loop_all_seen lower [later]); [by rewrite app_nil_r|].
  intros item ->%list_elem_of_singleton. rewrite Hkey.
  apply elem_of_union. left. apply elem_of_list_to_set.
  by apply list_elem_of_fmap_2.
Qed.

Lemma severity_counts_ok (items : list Finding) (counts : list (str * nat)) :
  NoDup (dict_keys counts) → (∀ entry, entry ∈ counts → (1 ≤ entry.2)%nat) →
  let counts' :=
    foldl (λ severity_counts item,
             dict_upsert (severity_label item) S 0%nat severity_counts)
          counts items in
  NoDup (dict_keys counts') ∧ ∀ entry, entry ∈ counts' → (1 ≤ entry.2)%nat.
Proof.
  revert counts. induction items as [|item items IH]; intros counts Hnd Hpos; [done|].
  cbn [foldl]. apply IH.
  - rewrite dict_keys_upsert. case_decide; [done|].
    apply NoDup_app. split; [done|]. split; [|apply NoDup_singleton].
    by intros k Hk ->%list_elem_of_singleton.
  - intros entry [Hin|[n ->]]%elem_of_upsert; [by apply Hpos|]. cbn. lia.
Qed.

Lemma severity_counts_all_ok (lists : list (list Finding))
    (counts : list (str * nat)) :
  NoDup (dict_keys counts) → (∀ entry, entry ∈ counts → (1 ≤ entry.2)%nat) →
  let counts' :=
    foldl (λ severity_counts category_items,
             foldl (λ severity_counts item,
                      dict_upsert (severity_label item) S 0%nat severity_counts)
                   severity_counts category_items)
          counts lists in
  NoDup (dict_keys counts') ∧ ∀ entry, entry ∈ counts' → (1 ≤ entry.2)%nat.
Proof.
  revert counts. induction lists as [|l lists IH]; intros counts Hnd Hpos; [done|].
  cbn [foldl]. by apply IH; apply severity_counts_ok.
Qed.

(** X6. In a summary, each severity label has one entry, and the entry
    holds the number of findings with that label, which is at least one: a
    label borne by no finding has no entry. *)
Theorem X6_severity_breakdown_entries
    (inconsistencies : FindingMap) (slides_data : Slides)
    (label : str) (count : nat) :
  let breakdown :=
    severity_breakdown (_calculate_summary inconsistencies slides_data) in
  NoDup (dict_keys breakdown)
  ∧ ((label, count) ∈ breakdown ↔
     (1 ≤ count)%nat
     ∧ count = length (filter (λ item, severity_label item = label)
                              (all_findings inconsistencies))).
Proof.
  intros breakdown.
  destruct (severity_counts_all_ok (dict_values inconsistencies) [])
    as [Hnd Hpos]; [constructor|by intros ? ?%elem_of_nil|].
  pose proof (severity_counts_get (dict_values inconsistencies) [] label) as Hget.
  change (default 0%nat (dict_get breakdown label)
          = (0 + length (filter (λ item, severity_label item = label)
                                (all_findings inconsistencies)))%nat) in Hget.
  change (NoDup (dict_keys breakdown)) in Hnd.
  change (∀ entry, entry ∈ breakdown → (1 ≤ entry.2)%nat) in Hpos.
  split; [done|]. rewrite (dict_get_elem_of breakdown label count Hnd). split.
  - intros Hsome. pose proof Hsome as Hin.
    apply (dict_get_elem_of breakdown label count Hnd), Hpos in Hin.
    rewrite Hsome in Hget. cbn in Hget, Hin. split; [done|lia].
  - intros [Hpos' ->]. destruct (dict_get breakdown label) as [n|]; cbn in Hget.
    + f_equal. lia.
    + lia.
Qed.

End FurtherDetector.

(** ** Fact extraction, further *)

Lemma matches_star_inv (r : regex) (w : str) :
  matches (Star r) w → ∃ ws, w = concat ws ∧ Forall (matches r) ws.
Proof.
  intros Hm. remember (Star r) as r' eqn:Hr.
  induction Hm as [| | | | |r0 w1 w2 H1 _ H2 IH2]; try done.
  - by exists [].
  - injection Hr as ->. destruct (IH2 eq_refl) as (ws & -> & Hws).
    exists (w1 :: ws). split; [done|by constructor].
Qed.

Ltac inv_matches :=
  repeat match goal with
  | H : matches (Cls _) _ |- _ => apply matches_cls_inv in H as (? & -> & ?)
  | H : matches (Seq _ _) _ |- _ =>
      apply matches_seq_inv in H as (? & ? & -> & ? & ?)
  | H : matches (Opt _) _ |- _ => apply matches_opt_inv in H as [->|?]
  end.

Lemma match_at_prefix (r : regex) (s m : str) :
  match_at r s = Some m → ∃ rest, s = m ++ rest.
Proof.
  unfold match_at. destruct (rmatch r s Some) as [rest|] eqn:Hm; [|done].
  apply rmatch_sound in Hm as (w & s1 & -> & Hw & [= ->]).
  cbn. intros [= <-]. exists rest. rewrite length_app.
  replace (length w + length rest - length rest)%nat with (length w) by lia.
  by rewrite take_app_length.
Qed.

Lemma findall_from_infix (r : regex) (s : str) (skip : nat) (m : str) :
  m ∈ findall_from r s skip → ∃ pre post, s = pre ++ m ++ post.
Proof.
  revert skip. induction s as [|c s IH]; intros skip; cbn [findall_from].
  - destruct skip; [|by intros ?%elem_of_nil].
    destruct (match_at r []) as [m'|] eqn:Hm; [|by intros ?%elem_of_nil].
    intros ->%list_elem_of_singleton.
    apply match_at_prefix in Hm as (rest & Hrest). by exists [], rest.
  - assert (Hlater : ∀ k, m ∈ findall_from r s k →
                          ∃ pre post, c :: s = pre ++ m ++ post).
    { intros k (pre & post & ->)%IH. by exists (c :: pre), post. }
    destruct skip as [|skip]; [|apply Hlater].
    destruct (match_at r (c :: s)) as [m'|] eqn:Hm; [|apply Hlater].
    intros [->|Hin]%elem_of_cons; [|by eapply Hlater].
    apply match_at_prefix in Hm as (rest & Hrest). by exists [], rest.
Qed.

Lemma findall_from_length (r : regex) (s : str) (skip : nat) :
  (sum (length <$> findall_from r s skip) ≤ length s - skip)%nat.
Proof.
  revert skip. induction s as [|c s IH]; intros skip; cbn [findall_from].
  - destruct skip; [|cbn; lia].
    destruct (match_at r []) as [m|] eqn:Hm; [|cbn; lia].
    apply match_at_prefix in Hm as (rest & Hrest).
    symmetry in Hrest. apply app_eq_nil in Hrest as [-> _]. cbn. lia.
  - destruct skip as [|skip].
    + destruct (match_at r (c :: s)) as [m|] eqn:Hm.
      * apply match_at_prefix in Hm as (rest & Hrest).
        apply (f_equal length) in Hrest. rewrite length_app in Hrest.
        cbn [length] in Hrest. rewrite fmap_cons, sum_cons.
        specialize (IH (length m - 1)%nat). cbn [length]. lia.
      * specialize (IH 0%nat). cbn [length]. lia.
    + specialize (IH skip). cbn [length]. lia.
Qed.

Section FurtherExtraction.
Variables isdigit isspace : char → bool.
Variable re_findall : str → str → list str.

Lemma matches_currency_pattern (w : str) :
  matches (currency_pattern isdigit isspace) w →
  is_currency_amount isdigit isspace w.
Proof.
  unfold currency_pattern, digit, Chr.
  intros (sym & w1 & -> & Hsym & Hrest)%matches_seq_inv.
  apply matches_cls_inv in Hsym as (symbol & -> & Hsymbol).
  apply matches_seq_inv in Hrest as (ws & w2 & -> & Hws%matches_star_cls & Hrest).
  apply matches_seq_inv in Hrest as (lead & w3 & -> & Hlead & Hrest).
  apply matches_seq_inv in Hrest as (gs & cents & -> & Hgs%matches_star_inv & Hcents).
  destruct Hgs as (groups & -> & Hgroups).
  assert (Hleadok : (1 ≤ length lead ≤ 3)%nat ∧ all_of isdigit lead).
  { clear -Hlead. inv_matches; (split; [cbn; lia|by repeat constructor]). }
  assert (Hcentsok : cents = [] ∨ ∃ ds, cents = 46%N :: ds ∧ length ds = 2%nat
                                        ∧ all_of isdigit ds).
  { clear -Hcents. inv_matches; [by left|right]. cbn in *.
    match goal with H : bool_decide _ = true |- _ =>
      apply bool_decide_eq_true in H as -> end.
    eexists. split; [reflexivity|]. split; [done|by repeat constructor]. }
  clear Hlead Hcents. destruct Hleadok as [? ?].
  exists symbol, ws, lead, groups, cents.
  do 5 (split; [done|]). split; [|done].
  eapply Forall_impl; [exact Hgroups|]. intros g Hg. cbn in Hg.
  clear -Hg. inv_matches. cbn in *.
  match goal with H : bool_decide _ = true |- _ =>
    apply bool_decide_eq_true in H as -> end.
  eexists. split; [reflexivity|]. split; [done|by repeat constructor].
Qed.

(** X10. Every entry of the currency sequence is a currency symbol,
    optional white space, one to three digits, any number of groups of a
    comma and three digits, and optionally a point and two digits. *)
Theorem X10_currency_entries_shape (text entry : str) :
  entry ∈ currency_matches
            (extract_numbers_and_dates isdigit isspace re_findall text) →
  is_currency_amount isdigit isspace entry.
Proof.
  unfold extract_numbers_and_dates. case_bool_decide; cbn [currency_matches].
  - by intros ?%elem_of_nil.
  - by intros ?%findall_sound%matches_currency_pattern.
Qed.

(** X11. The percentage and currency entries are pieces of the text, taken
    from left to right without overlap: each entry occurs in the text, and
    the entries of either sequence together are no longer than the text. *)
Theorem X11_entries_are_pieces_of_the_text (text entry : str) :
  let extracted := extract_numbers_and_dates isdigit isspace re_findall text in
  entry ∈ percentage_matches extracted ++ currency_matches extracted →
  (∃ before after, text = before ++ entry ++ after)
  ∧ (sum (length <$> percentage_matches extracted) ≤ length text)%nat
  ∧ (sum (length <$> currency_matches extracted) ≤ length text)%nat.
Proof.
  intros extracted. unfold extracted, extract_numbers_and_dates.
  case_bool_decide; cbn [percentage_matches currency_matches app].
  - by intros ?%elem_of_nil.
  - intros Hin. split; [|split].
    + apply elem_of_app in Hin as [Hin|Hin]; by apply findall_from_infix in Hin.
    + pose proof (findall_from_length (percentage_pattern isdigit isspace) text 0).
      unfold findall. lia.
    + pose proof (findall_from_length (currency_pattern isdigit isspace) text 0).
      unfold findall. lia.
Qed.

(** X12. A text without [%] has no percentage entry, a text without a
    currency symbol has no currency entry, and the empty text has no entry
    of any kind. *)
Theorem X12_no_sign_no_entry (text : str) :
  let extracted := extract_numbers_and_dates isdigit isspace re_findall text in
  (37%N ∉ text → percentage_matches extracted = [])
  ∧ ((∀ c, c ∈ text → currency_symbol c = false) →
     currency_matches extracted = [])
  ∧ (text = [] →
     extracted = {| number_matches := []; percentage_matches := [];
                    currency_matches := []; date_matches := [] |}).
Proof.
  intros extracted. unfold extracted, extract_numbers_and_dates.
  split; [|split].
  - intros Hno. case_bool_decide; [done|]. cbn [percentage_matches].
    destruct (findall _ text) as [|entry l] eqn:Hl; [done|].
    assert (Hentry : entry ∈ findall (percentage_pattern isdigit isspace) text)
      by (rewrite Hl; left).
    pose proof (findall_from_infix _ _ _ _ Hentry) as (before & after & Htext).
    apply findall_sound, matches_percentage_pattern in Hentry
      as (n & ws & -> & _).
    destruct Hno. rewrite Htext, !elem_of_app, list_elem_of_singleton. auto.
  - intros Hno. case_bool_decide; [done|]. cbn [currency_matches].
    destruct (findall _ text) as [|entry l] eqn:Hl; [done|].
    assert (Hentry : entry ∈ findall (currency_pattern isdigit isspace) text)
      by (rewrite Hl; left).
    pose proof (findall_from_infix _ _ _ _ Hentry) as (before & after & Htext).
    apply findall_sound, matches_currency_pattern in Hentry
      as (symbol & ws & lead & groups & cents & -> & Hsymbol & _).
    rewrite (Hno symbol) in Hsymbol; [done|].
    rewrite Htext, !elem_of_app. right. left. left.
  - by intros ->.
Qed.

End FurtherExtraction.

(** ** Stripping, cleaning and normalising *)

Lemma remove_char_absent (c : char) (text : str) : c ∉ remove_char c text.
Proof. unfold remove_char. by intros [? _]%list_elem_of_filter. Qed.

Lemma remove_char_subseteq (c : char) (text : str) : remove_char c text ⊆ text.
Proof. unfold remove_char. by intros x [_ ?]%list_elem_of_filter. Qed.

Lemma remove_char_id (c : char) (text : str) :
  c ∉ text → remove_char c text = text.
Proof.
  intros Hc. unfold remove_char. apply filter_all.
  intros x Hx ->. done.
Qed.

Section FurtherCleaning.
Variables isdigit isspace isword : char → bool.
Variable float_ok : str → bool.

Lemma lstrip_suffix (s : str) :
  ∃ spaces, s = spaces ++ lstrip isspace s ∧ all_of isspace spaces.
Proof.
  induction s as [|c s IH]; [exists []; by split; [|constructor]|].
  cbn [lstrip].
  destruct (isspace c) eqn:Hc; [|exists []; by split; [|constructor]].
  destruct IH as (spaces & Hs & Hspaces). exists (c :: spaces).
  split; [cbn; by f_equal|by constructor].
Qed.

Lemma lstrip_head (s : str) (c : char) :
  head (lstrip isspace s) = Some c → isspace c = false.
Proof.
  induction s as [|c' s IH]; [done|]. cbn [lstrip].
  destruct (isspace c') eqn:Hc; [done|]. by intros [= <-].
Qed.

Lemma lstrip_fixed (s : str) :
  (∀ c, head s = Some c → isspace c = false) → lstrip isspace s = s.
Proof.
  destruct s as [|c s]; [done|]. intros Hhead. cbn [lstrip].
  by rewrite (Hhead c).
Qed.

Lemma rstrip_snoc (s : str) (c : char) :
  rstrip isspace (s ++ [c])
  = if isspace c then rstrip isspace s else s ++ [c].
Proof.
  unfold rstrip. rewrite reverse_snoc. cbn [lstrip].
  destruct (isspace c); [done|]. by rewrite <- reverse_snoc, reverse_involutive.
Qed.

Lemma rstrip_prefix (s : str) :
  ∃ spaces, s = rstrip isspace s ++ spaces ∧ all_of isspace spaces.
Proof.
  induction s as [|c s IH] using rev_ind; [exists []; by split; [|constructor]|].
  rewrite rstrip_snoc.
  destruct (isspace c) eqn:Hc;
    [|exists []; rewrite app_nil_r; by split; [|constructor]].
  destruct IH as (spaces & Hs & Hspaces). exists (spaces ++ [c]). split.
  - rewrite app_assoc. by f_equal.
  - apply Forall_app. split; [done|by constructor].
Qed.

Lemma rstrip_head (s : str) :
  (∀ c, head s = Some c → isspace c = false) →
  ∀ c, head (rstrip isspace s) = Some c → isspace c = false.
Proof.
  induction s as [|c' s IH] using rev_ind; [done|].
  intros Hhead. rewrite rstrip_snoc. destruct (isspace c') eqn:Hc; [|done].
  destruct s as [|c0 s]; [done|]. apply IH. intros c [= <-]. by apply Hhead.
Qed.

Lemma rstrip_idemp (s : str) :
  rstrip isspace (rstrip isspace s) = rstrip isspace s.
Proof.
  induction s as [|c s IH] using rev_ind; [done|].
  rewrite rstrip_snoc. destruct (isspace c) eqn:Hc; [done|].
  by rewrite rstrip_snoc, Hc.
Qed.

Lemma str_strip_idemp (s : str) :
  str_strip isspace (str_strip isspace s) = str_strip isspace s.
Proof.
  unfold str_strip. rewrite lstrip_fixed; [apply rstrip_idemp|].
  apply rstrip_head, lstrip_head.
Qed.

Lemma str_strip_subseteq (s : str) : str_strip isspace s ⊆ s.
Proof.
  unfold str_strip. intros x Hx.
  destruct (lstrip_suffix s) as (pre & Hs & _).
  destruct (rstrip_prefix (lstrip isspace s)) as (post & Hl & _).
  rewrite Hs, Hl, !elem_of_app. auto.
Qed.

Lemma str_strip_length (s : str) :
  (length (str_strip isspace s) ≤ length s)%nat.
Proof.
  unfold str_strip.
  destruct (lstrip_suffix s) as (pre & Hs & _).
  destruct (rstrip_prefix (lstrip isspace s)) as (post & Hl & _).
  apply (f_equal length) in Hs, Hl. rewrite !length_app in Hs, Hl. lia.
Qed.

(** X13. The three normalisers of the detector are idempotent, and their
    result holds none of the characters they remove: no comma for a
    number, no [%] for a percentage, no currency symbol and no comma for a
    currency amount. *)
Theorem X13_normalisers_are_idempotent (value : str) :
  (_normalize_number float_ok (_normalize_number float_ok value)
   = _normalize_number float_ok value
   ∧ 44%N ∉ _normalize_number float_ok value)
  ∧ (_normalize_percentage isspace float_ok
       (_normalize_percentage isspace float_ok value)
     = _normalize_percentage isspace float_ok value
     ∧ 37%N ∉ _normalize_percentage isspace float_ok value)
  ∧ (_normalize_currency isspace float_ok
       (_normalize_currency isspace float_ok value)
     = _normalize_currency isspace float_ok value
     ∧ ∀ c, c ∈ [36; 8364; 163; 165; 8377; 44]%N →
            c ∉ _normalize_currency isspace float_ok value).
Proof.
  split; [|split].
  - unfold _normalize_number.
    pose proof (remove_char_absent 44 value) as Habsent.
    destruct (float_ok (remove_char 44 value)) eqn:Hok.
    + by rewrite (remove_char_id 44 (remove_char 44 value)), Hok.
    + split; [by destruct (float_ok (remove_char 44 []))|apply not_elem_of_nil].
  - unfold _normalize_percentage.
    assert (Habsent : 37%N ∉ str_strip isspace (remove_char 37 value)).
    { intros Hin%str_strip_subseteq. by apply remove_char_absent in Hin. }
    destruct (float_ok (str_strip isspace (remove_char 37 value))) eqn:Hok.
    + by rewrite remove_char_id, str_strip_idemp, Hok.
    + split; [|apply not_elem_of_nil].
      destruct (float_ok (str_strip isspace (remove_char 37 []))); reflexivity.
  - unfold _normalize_currency. cbv zeta.
    set (cleaned :=
           str_strip isspace
             (remove_char 44
                (remove_char 8377
                   (remove_char 165
                      (remove_char 163
                         (remove_char 8364 (remove_char 36 value))))))).
    assert (Habsent : ∀ c, c ∈ [36; 8364; 163; 165; 8377; 44]%N → c ∉ cleaned).
    { intros c Hc Hin%str_strip_subseteq.
      repeat (apply elem_of_cons in Hc as [->|Hc]);
        [..|by apply elem_of_nil in Hc];
        repeat first [by apply remove_char_absent in Hin
                     |apply remove_char_subseteq in Hin]. }
    destruct (float_ok cleaned) eqn:Hok.
    + split; [|exact Habsent].
      cbv iota.
      rewrite (remove_char_id 36 cleaned), (remove_char_id 8364 cleaned),
        (remove_char_id 163 cleaned), (remove_char_id 165 cleaned),
        (remove_char_id 8377 cleaned), (remove_char_id 44 cleaned)
        by (apply Habsent; set_solver).
      unfold cleaned at 1 2. rewrite str_strip_idemp. fold cleaned.
      by rewrite Hok.
    + split; [|intros; apply not_elem_of_nil].
      clear. cbv iota. destruct (float_ok _); reflexivity.
Qed.

End FurtherCleaning.

(** ** Parsing the reply, further *)

Section FurtherAnalyzer.
Variable lower : str → str.
Variable json_loads : str → option Json.
Variable re_findall : str → str → list str.
Variable re_sub : str → str → str → str.
Variable strip : str → str.
Variable _call_gemini_api : Slides → str + Response.




Lemma extract_ai_results_get (ai_analysis : AiAnalysis) (category : str) :
  ai_error ai_analysis = None → category ∈ categories →
  get_list (_extract_ai_results ai_analysis) category
  = get_list (default [] (ai_inconsistencies ai_analysis)) category.
Proof.
  intros Herr Hcat. unfold _extract_ai_results.
  rewrite bool_decide_eq_false_2 by (rewrite Herr; by intros [? ?]).
  generalize (default [] (ai_inconsistencies ai_analysis)).
  intros lists. unfold categories in Hcat.
  repeat (apply elem_of_cons in Hcat as [->|Hcat]); try reflexivity.
  by apply elem_of_nil in Hcat.
Qed.

(** X8. A reply whose first candidate parses to a non-empty JSON object
    without the key ['intelligence_report'] is taken as the legacy shape.
    When each category of the object (an absent one counts as the empty
    list) is a list of findings of the data model, [main] takes the
    detector's result, in which every category is the deduplicated
    rule-based list followed by the list of the object.  When some category
    is no list, or holds an item that is no object or whose description is
    no string, the detector raises and [main] binds no result. *)
Theorem X8_legacy_reply_is_reconciled
    (api_key : option str) (slides_data : Slides) (response : Response)
    (text : str) (others : list (option str)) (members : list (str * Json))
    (ai_items : str → list Finding) :
  default [] api_key ≠ [] →
  _call_gemini_api slides_data = inr response →
  candidates response = Some (Some text :: others) →
  _robust_json_parse json_loads re_findall re_sub strip text
  = Some (JObject members) →
  json_truthy (JObject members) = true →
  dict_get members (py "intelligence_report") = None →
  let outcome :=
    main_results lower slides_data
      (analyze_inconsistencies json_loads re_findall re_sub strip
         _call_gemini_api api_key slides_data) in
  ((∀ category, category ∈ categories →
      decode_findings (default (JArray []) (dict_get members category))
      = Returns (ai_items category)) →
   ∃ result,
     outcome = Returns (Detection result)
     ∧ ∀ category, category ∈ categories →
         get_list (inconsistencies result) category
         = _deduplicate_items lower
             (get_list (_rule_based_detection lower slides_data) category
                ++ ai_items category))
  ∧ ((∃ category, category ∈ categories
        ∧ decode_findings (default (JArray []) (dict_get members category))
          = Raises) →
     outcome = Raises).
Proof.
  intros Hkey Hcall Hcand Hparse Htruthy Hnone outcome.
  destruct (main_results_reply lower json_loads re_findall re_sub strip
              _call_gemini_api api_key slides_data response Hkey Hcall)
    as [_ Hmain].
  rewrite robust_json_parse_eq in Hparse.
  rewrite (parse_analysis_response_object json_loads re_findall re_sub strip
             response text others members Hcand Hparse Htruthy) in Hmain.
  rewrite Hnone in Hmain. cbn [default from_option id] in Hmain.
  rewrite legacy_dict_no_summary, decode_inconsistencies_legacy_dict in Hmain.
  unfold outcome. rewrite Hmain. split.
  - intros Hlists.
    rewrite (decode_inconsistencies_returns members ai_items Hlists).
    cbn [outcome_map]. eexists. split; [reflexivity|].
    intros category Hcat. unfold detect_inconsistencies. cbn [inconsistencies].
    rewrite combine_results_get by done. do 2 f_equal.
    rewrite extract_ai_results_get by done.
    cbn [ai_inconsistencies default from_option id].
    unfold get_list at 1. by rewrite dict_get_fmap_keys.
  - intros (category & Hcat & Hraise).
    by rewrite (decode_inconsistencies_raises members category Hcat Hraise).
Qed.

(** X9. When the reply offers no usable JSON object (no candidate, a
    candidate without text, a text that does not parse, or one that parses
    to a falsy value or to something that is not an object), the parser
    returns the default report, and the run hands that report on: the
    rule-based findings are not part of the result. *)
Theorem X9_useless_reply_gives_default_report
    (api_key : option str) (slides_data : Slides) (response : Response) :
  default [] api_key ≠ [] →
  _call_gemini_api slides_data = inr response →
  (candidates response = None
   ∨ candidates response = Some []
   ∨ (∃ others, candidates response = Some (None :: others))
   ∨ (∃ text others,
        candidates response = Some (Some text :: others)
        ∧ (_robust_json_parse json_loads re_findall re_sub strip text = None
           ∨ (∃ parsed,
                _robust_json_parse json_loads re_findall re_sub strip text
                = Some parsed ∧ json_truthy parsed = false)
           ∨ (∃ parsed,
                _robust_json_parse json_loads re_findall re_sub strip text
                = Some parsed ∧ ∀ members, parsed ≠ JObject members)))) →
  _parse_analysis_response json_loads re_findall re_sub strip response
  = _get_empty_intelligence_report
  ∧ main_results lower slides_data
      (analyze_inconsistencies json_loads re_findall re_sub strip
         _call_gemini_api api_key slides_data)
    = Returns (Intelligence _get_empty_intelligence_report).
Proof.
  intros Hkey Hcall Hcases.
  assert (Hdefault :
    _parse_analysis_response json_loads re_findall re_sub strip response
    = _get_empty_intelligence_report).
  { apply no_usable_object_default. unfold no_usable_object.
    destruct Hcases as [?|[?|[?|(text & others & ? & Htext)]]]; auto.
    do 3 right. exists text, others. split; [done|].
    rewrite !robust_json_parse_eq in Htext.
    destruct Htext as [?|[(parsed & ? & ?)|(parsed & ? & ?)]]; eauto. }
  split; [done|].
  destruct (main_results_reply lower json_loads re_findall re_sub strip
              _call_gemini_api api_key slides_data response Hkey Hcall)
    as [_ ->].
  by rewrite Hdefault.
Qed.

End FurtherAnalyzer.
(** ** [clean_text] and the text of a slide *)

Lemma star_loop_total (body : str → (str → option str) → option str)
    (fuel : nat) (s : str) :
  is_Some (star_loop body Some fuel s).
Proof. destruct fuel; cbn [star_loop]; [done|]. by destruct (body s _). Qed.

Lemma match_at_cls (q : char → bool) (c : char) (s : str) :
  match_at (Cls q) (c :: s) = if q c then Some [c] else None.
Proof.
  unfold match_at. cbn [rmatch]. destruct (q c); [|done].
  cbn [mbind option_bind length].
  by replace (S (length s) - length s)%nat with 1%nat by lia.
Qed.

Lemma match_at_plus_cls (p : char → bool) (c : char) (s : str) :
  if p c
  then ∃ m rest, match_at (Plus (Cls p)) (c :: s) = Some (c :: m)
                 ∧ s = m ++ rest ∧ all_of p m
  else match_at (Plus (Cls p)) (c :: s) = None.
Proof.
  destruct (p c) eqn:Hc.
  - destruct (match_at (Plus (Cls p)) (c :: s)) as [m|] eqn:Hm.
    + pose proof (match_at_prefix _ _ _ Hm) as (rest & Hrest).
      apply match_at_sound, matches_plus_cls in Hm as [Hne Hall].
      destruct m as [|c' m]; [done|]. injection Hrest as <- ->.
      exists m, rest. split; [done|]. split; [done|]. by inversion Hall.
    + unfold match_at, Plus in Hm. cbn [rmatch] in Hm. rewrite Hc in Hm.
      match type of Hm with
      | ?loop ≫= _ = None =>
          assert (is_Some loop) as [rest Hrest] by apply star_loop_total;
          by rewrite Hrest in Hm
      end.
  - unfold match_at, Plus. cbn [rmatch]. by rewrite Hc.
Qed.

Lemma sub_cls (q : char → bool) (s : str) :
  sub (Cls q) [] s = filter (λ c, q c = false) s.
Proof.
  unfold sub. induction s as [|c s IH]; [done|]. cbn [sub_from].
  rewrite match_at_cls. destruct (q c) eqn:Hc.
  - cbn [length app]. rewrite IH. by rewrite filter_cons_False by congruence.
  - rewrite IH. by rewrite filter_cons_True.
Qed.

Lemma sub_from_length (r : regex) (repl s : str) (skip : nat) :
  (length repl ≤ 1)%nat →
  (length (sub_from r repl s skip) ≤ length s - skip)%nat.
Proof.
  intros Hrepl. revert skip. induction s as [|c s IH]; intros skip; [cbn; lia|].
  cbn [sub_from]. destruct skip as [|skip]; [|apply IH].
  destruct (match_at r (c :: s)) as [[|c' m]|] eqn:Hm;
    [cbn [length]; specialize (IH 0%nat); lia| |
     cbn [length]; specialize (IH 0%nat); lia].
  apply match_at_prefix in Hm as (rest & Hrest). injection Hrest as _ ->.
  specialize (IH (length m)). rewrite length_app in IH.
  rewrite length_app. cbn [length]. rewrite length_app. lia.
Qed.

Lemma filter_filter_comm {A : Type} (P Q : A → Prop)
    `{!∀ x, Decision (P x), !∀ x, Decision (Q x)} (l : list A) :
  filter P (filter Q l) = filter Q (filter P l).
Proof. rewrite !list_filter_filter. apply list_filter_iff. tauto. Qed.

Section FurtherText.
Variables isspace isword : char → bool.
Variable lower : str → str.

Lemma sub_from_spaces_elem (s : str) (skip : nat) (c : char) :
  c ∈ sub_from (Plus (Cls isspace)) (py " ") s skip →
  c = 32%N ∨ (c ∈ s ∧ isspace c = false).
Proof.
  revert skip. induction s as [|c0 s IH]; intros skip; cbn [sub_from];
    [by intros ?%elem_of_nil|].
  assert (Hrec : ∀ skip', c ∈ sub_from (Plus (Cls isspace)) (py " ") s skip' →
                          c = 32%N ∨ (c ∈ c0 :: s ∧ isspace c = false)).
  { intros skip' [->|[? ?]]%IH; [by left|right]. split; [by right|done]. }
  destruct skip as [|skip]; [|apply Hrec].
  pose proof (match_at_plus_cls isspace c0 s) as Hm.
  destruct (isspace c0) eqn:Hc0.
  - destruct Hm as (m & rest & -> & _ & _).
    change (py " ") with [32%N].
    intros [->%list_elem_of_singleton|Hin]%elem_of_app; [by left|].
    by apply Hrec in Hin.
  - rewrite Hm. intros [->|Hin]%elem_of_cons; [|by apply Hrec in Hin].
    right. split; [left|done].
Qed.

Lemma filter_nonspace_drop (s : str) (k : nat) :
  all_of isspace (take k s) →
  filter (λ c, isspace c = false) (drop k s)
  = filter (λ c, isspace c = false) s.
Proof.
  intros Hall. rewrite <- (take_drop k s) at 2. rewrite filter_app.
  rewrite (filter_none _ (take k s)); [done|].
  intros x Hx. unfold all_of in Hall. rewrite Forall_forall in Hall.
  apply Hall in Hx. congruence.
Qed.

Lemma filter_nonspace_spaces (spaces : str) :
  all_of isspace spaces → filter (λ c, isspace c = false) spaces = [].
Proof.
  intros Hall. apply filter_none. intros x Hx.
  unfold all_of in Hall. rewrite Forall_forall in Hall.
  apply Hall in Hx. congruence.
Qed.

Lemma sub_from_spaces_nonspace (s : str) (skip : nat) :
  isspace 32 = true →
  all_of isspace (take skip s) →
  filter (λ c, isspace c = false) (sub_from (Plus (Cls isspace)) (py " ") s skip)
  = filter (λ c, isspace c = false) s.
Proof.
  intros Hsp. revert skip. induction s as [|c s IH]; intros skip Hskip; [done|].
  cbn [sub_from]. destruct skip as [|skip].
  - pose proof (match_at_plus_cls isspace c s) as Hm.
    destruct (isspace c) eqn:Hc.
    + destruct Hm as (m & rest & -> & Hs & Hall).
      change (py " ") with [32%N]. rewrite filter_app.
      rewrite filter_cons_False, filter_nil by congruence.
      rewrite filter_cons_False by congruence. cbn [app].
      apply IH. subst s. by rewrite take_app_length.
    + rewrite Hm. rewrite !filter_cons_True by done. f_equal.
      apply IH. constructor.
  - cbn [take] in Hskip. apply Forall_cons in Hskip as [Hc Hskip].
    rewrite filter_cons_False by congruence. by apply IH.
Qed.

Lemma str_strip_nonspace (s : str) :
  filter (λ c, isspace c = false) (str_strip isspace s)
  = filter (λ c, isspace c = false) s.
Proof.
  unfold str_strip.
  destruct (lstrip_suffix isspace s) as (pre & Hs & Hpre).
  destruct (rstrip_prefix isspace (lstrip isspace s)) as (post & Hl & Hpost).
  rewrite Hs at 2. rewrite Hl at 2. rewrite !filter_app.
  rewrite (filter_nonspace_spaces pre), (filter_nonspace_spaces post) by done.
  by rewrite app_nil_r.
Qed.

Lemma clean_text_eq (text : str) :
  clean_text isspace isword text
  = filter (λ c, kept_by_clean_text isspace isword c = true)
      (sub (Plus (Cls isspace)) (py " ") (str_strip isspace text)).
Proof.
  unfold clean_text. case_bool_decide as Hempty.
  - by subst text.
  - cbv zeta. rewrite sub_cls. apply list_filter_iff.
    intros c. by destruct (kept_by_clean_text isspace isword c).
Qed.

(** X14. [clean_text] only leaves characters of the classes it lists; the
    only white space left is the space character; the result is no longer
    than the text; and, white space apart, it is the text without the
    characters outside those classes, in the same order. *)
Theorem X14_clean_text_result (text : str) :
  isspace 32 = true →
  (∀ c, c ∈ clean_text isspace isword text →
        kept_by_clean_text isspace isword c = true
        ∧ (isspace c = true → c = 32%N))
  ∧ (length (clean_text isspace isword text) ≤ length text)%nat
  ∧ filter (λ c, isspace c = false) (clean_text isspace isword text)
    = filter (λ c, isspace c = false)
        (filter (λ c, kept_by_clean_text isspace isword c = true) text).
Proof.
  intros Hsp. rewrite clean_text_eq. split; [|split].
  - intros c [Hkept Hin]%list_elem_of_filter. split; [done|].
    apply sub_from_spaces_elem in Hin as [->|[_ Hc]]; [done|congruence].
  - etrans; [apply length_filter|]. unfold sub.
    etrans; [by apply sub_from_length|].
    rewrite Nat.sub_0_r. apply str_strip_length.
  - rewrite (filter_filter_comm (λ c, isspace c = false)).
    unfold sub.
    rewrite (sub_from_spaces_nonspace (str_strip isspace text) 0 Hsp)
      by constructor.
    rewrite str_strip_nonspace. apply filter_filter_comm.
Qed.

(** *** [_categorize_text] *)

Lemma categorize_text_eq (texts titles body_text : list str) :
  _categorize_text isspace lower texts titles body_text
  = (titles ++ filter (λ t, is_title isspace lower t = true)
                 (filter (λ t, t ≠ []) texts),
     body_text ++ filter (λ t, is_title isspace lower t = false)
                    (filter (λ t, t ≠ []) texts)).
Proof.
  unfold _categorize_text. revert titles body_text.
  induction texts as [|text texts IH]; intros titles body_text;
    [cbn; by rewrite !app_nil_r|].
  cbn [foldl]. case_bool_decide as Hempty.
  - rewrite IH. by rewrite (filter_cons_False _ text) by (intros ?; done).
  - rewrite (filter_cons_True _ text) by done.
    destruct (is_title isspace lower text) eqn:Htitle; rewrite IH.
    + rewrite filter_cons_True, filter_cons_False by congruence.
      by rewrite <- app_assoc.
    + rewrite filter_cons_False, filter_cons_True by congruence.
      by rewrite <- app_assoc.
Qed.

(** X15. [_categorize_text] appends every non-empty text to exactly one of
    the two lists, titles or body text, in the order of the texts: a text
    goes to the titles when the title test holds and to the body
    otherwise, and the empty texts go nowhere. *)
Theorem X15_categorize_text_partitions (texts titles body_text : list str) :
  ∃ new_titles new_body,
    _categorize_text isspace lower texts titles body_text
    = (titles ++ new_titles, body_text ++ new_body)
    ∧ new_titles ++ new_body ≡ₚ filter (λ t, t ≠ []) texts
    ∧ new_titles `sublist_of` texts ∧ new_body `sublist_of` texts
    ∧ (∀ t, t ∈ new_titles → is_title isspace lower t = true)
    ∧ (∀ t, t ∈ new_body → is_title isspace lower t = false).
Proof.
  eexists _, _. split; [apply categorize_text_eq|].
  split; [|split; [|split; [|split]]].
  - induction (filter (λ t, t ≠ []) texts) as [|t ts IH]; [done|].
    destruct (is_title isspace lower t) eqn:Htitle.
    + rewrite filter_cons_True, filter_cons_False by congruence.
      cbn [app]. by constructor.
    + rewrite filter_cons_False, filter_cons_True by congruence.
      rewrite <- Permutation_middle. by constructor.
  - etrans; apply sublist_filter.
  - etrans; apply sublist_filter.
  - by intros t [? _]%list_elem_of_filter.
  - by intros t [? _]%list_elem_of_filter.
Qed.

(** *** [_extract_from_table] *)

Lemma str_join_cons (sep p : str) (rest : list str) :
  rest ≠ [] → str_join sep (p :: rest) = p ++ sep ++ str_join sep rest.
Proof. by destruct rest. Qed.

Lemma str_join_app (sep : str) (l1 l2 : list str) :
  l1 ≠ [] → l2 ≠ [] →
  str_join sep (l1 ++ l2) = str_join sep l1 ++ sep ++ str_join sep l2.
Proof.
  intros Hl1 Hl2. induction l1 as [|p l1 IH]; [done|].
  destruct l1 as [|q l1].
  - cbn [app]. by rewrite str_join_cons.
  - change ((p :: q :: l1) ++ l2) with (p :: ((q :: l1) ++ l2)).
    rewrite str_join_cons by done. rewrite IH by done.
    rewrite (str_join_cons sep p (q :: l1)) by done.
    by rewrite <- !app_assoc.
Qed.

Lemma str_join_concat (sep : str) (rows : list (list str)) :
  Forall (λ row, row ≠ []) rows →
  str_join sep (str_join sep <$> rows) = str_join sep (concat rows).
Proof.
  induction 1 as [|row rows Hrow Hrows IH]; [done|].
  destruct rows as [|row' rows]; [cbn; by rewrite app_nil_r|].
  rewrite fmap_cons, str_join_cons by done. rewrite IH.
  cbn [concat]. rewrite (str_join_app sep row (row' ++ concat rows)); [done..|].
  apply Forall_cons in Hrows as [Hrow' _]. by destruct row'.
Qed.

Lemma concat_filter_nonempty {A : Type} (ls : list (list A)) :
  concat (filter (λ l, l ≠ []) ls) = concat ls.
Proof.
  induction ls as [|l ls IH]; [done|]. destruct l as [|a l].
  - by rewrite filter_cons_False by (intros ?; done).
  - rewrite filter_cons_True by done. cbn [concat]. by rewrite IH.
Qed.

Lemma row_text_eq (row row_text : list str) :
  foldl (λ row_text cell,
           if bool_decide (str_strip isspace cell ≠ [])
           then row_text ++ [str_strip isspace cell] else row_text)
        row_text row
  = row_text ++ filter (λ cell, cell ≠ []) (str_strip isspace <$> row).
Proof.
  revert row_text. induction row as [|cell row IH]; intros row_text;
    [cbn; by rewrite app_nil_r|].
  cbn [foldl]. rewrite IH, fmap_cons. case_bool_decide as Hcell.
  - rewrite filter_cons_True by done. by rewrite <- app_assoc.
  - rewrite filter_cons_False; [done|intros Hne; by apply Hne].
Qed.

(** X16. The text of a table is the texts of its cells, stripped, without
    the blank ones, in row-major order and joined by [" | "]: nothing
    marks where a row ends, and a table of blank cells gives the empty
    text. *)
Theorem X16_table_text_is_flat (table : list (list str)) :
  _extract_from_table isspace table
  = str_join (py " | ")
      (filter (λ cell, cell ≠ []) (str_strip isspace <$> concat table)).
Proof.
  unfold _extract_from_table. cbv zeta.
  set (cells := λ row : list str,
         filter (λ cell, cell ≠ []) (str_strip isspace <$> row)).
  assert (Hrows : ∀ table_text,
    foldl (λ table_text row,
             if bool_decide
                  (foldl (λ row_text cell,
                            if bool_decide (str_strip isspace cell ≠ [])
                            then row_text ++ [str_strip isspace cell]
                            else row_text) [] row ≠ [])
             then table_text
                  ++ [str_join (py " | ")
                        (foldl (λ row_text cell,
                                  if bool_decide (str_strip isspace cell ≠ [])
                                  then row_text ++ [str_strip isspace cell]
                                  else row_text) [] row)]
             else table_text)
          table_text table
    = table_text
      ++ (str_join (py " | ") <$> filter (λ row, row ≠ []) (cells <$> table))).
  { induction table as [|row table IH]; intros table_text;
      [cbn; by rewrite app_nil_r|].
    cbn [foldl]. rewrite IH, fmap_cons, row_text_eq. cbn [app]. fold (cells row).
    case_bool_decide as Hrow.
    - rewrite filter_cons_True by done. by rewrite fmap_cons, <- app_assoc.
    - rewrite filter_cons_False; [done|intros Hne; by apply Hne]. }
  rewrite Hrows. cbn [app]. rewrite str_join_concat.
  - rewrite concat_filter_nonempty. f_equal. clear Hrows.
    induction table as [|row table IH]; [done|].
    cbn [concat]. rewrite fmap_cons. cbn [concat].
    by rewrite fmap_app, filter_app, IH.
  - apply Forall_forall. by intros row [? _]%list_elem_of_filter.
Qed.

End FurtherText.
(** ** The slide range of [main] *)

Lemma foldl_max_ge (ks : list Z) (k0 : Z) :
  (k0 ≤ foldl Z.max k0 ks)%Z ∧ ∀ k, k ∈ ks → (k ≤ foldl Z.max k0 ks)%Z.
Proof.
  revert k0. induction ks as [|k1 ks IH]; intros k0; cbn [foldl].
  - split; [lia|by intros k ?%elem_of_nil].
  - destruct (IH (Z.max k0 k1)) as [H0 Hks]. split; [lia|].
    intros k [->|Hk]%elem_of_cons; [lia|by apply Hks].
Qed.

Lemma max_key_ge (slides_data : Slides) (m k : Z) :
  max_key slides_data = Some m → k ∈ dict_keys slides_data → (k ≤ m)%Z.
Proof.
  unfold max_key. destruct (dict_keys slides_data) as [|k0 ks]; [done|].
  intros [= <-]. destruct (foldl_max_ge ks k0) as [H0 Hks].
  intros [->|Hk]%elem_of_cons; [done|by apply Hks].
Qed.

Lemma filter_slides_loop (start end_ : Z) (slides_data filtered_slides : Slides) :
  NoDup (dict_keys slides_data) →
  (∀ k, k ∈ dict_keys slides_data → k ∉ dict_keys filtered_slides) →
  foldl (λ filtered_slides '(slide_num, slide_data),
           if bool_decide (start ≤ slide_num ≤ end_)%Z
           then dict_set slide_num slide_data filtered_slides
           else filtered_slides)
        filtered_slides slides_data
  = filtered_slides
    ++ filter (λ entry : Z * SlideData, (start ≤ entry.1 ≤ end_)%Z) slides_data.
Proof.
  revert filtered_slides.
  induction slides_data as [|[k d] slides_data IH]; intros filtered_slides Hnd Hfresh;
    [cbn; by rewrite app_nil_r|].
  cbn [foldl]. cbn [dict_keys fmap list_fmap fst] in Hnd.
  apply NoDup_cons in Hnd as [Hk Hnd].
  case_bool_decide as Hrange.
  - rewrite filter_cons_True by done.
    assert (dict_set k d filtered_slides = filtered_slides ++ [(k, d)]) as ->
      by (unfold dict_set; apply dict_upsert_fresh, Hfresh; left).
    rewrite IH; [by rewrite <- app_assoc|done|].
    intros k' Hk'. unfold dict_keys. rewrite fmap_app, elem_of_app.
    intros [Hin|Heq%list_elem_of_singleton]; [|cbn [fst] in Heq; by subst k'].
    by apply (Hfresh k'); [right|].
  - rewrite filter_cons_False by done. apply IH; [done|].
    intros k' Hk'. apply Hfresh. by right.
Qed.

(** X17. On a non-empty mapping the slide range of [main] always gives a
    mapping, which keeps the order of the slides.  Without a start and an
    end (an argument of 0 counts as absent) it is the whole mapping;
    otherwise it holds exactly the slides from the start, 1 when there is
    none, up to the end when there is one. *)
Theorem X17_slide_range (start_slide end_slide : option Z) (slides_data : Slides) :
  NoDup (dict_keys slides_data) →
  slides_data ≠ [] →
  ∃ filtered_slides,
    filter_slides start_slide end_slide slides_data = Some filtered_slides
    ∧ filtered_slides `sublist_of` slides_data
    ∧ (given start_slide || given end_slide = false →
       filtered_slides = slides_data)
    ∧ (given start_slide || given end_slide = true →
       ∀ slide_num slide_data,
         (slide_num, slide_data) ∈ filtered_slides ↔
         (slide_num, slide_data) ∈ slides_data
         ∧ ((if given start_slide then default 1 start_slide else 1)
            ≤ slide_num)%Z
         ∧ (given end_slide = true → (slide_num ≤ default 0 end_slide)%Z)).
Proof.
  intros Hnd Hne. unfold filter_slides.
  destruct (given start_slide || given end_slide) eqn:Hgiven;
    [|exists slides_data; by repeat split].
  set (start := if given start_slide then default 1 start_slide else 1).
  assert (∃ end_, (if given end_slide then end_slide else max_key slides_data)
                  = Some end_
                  ∧ (given end_slide = true → end_ = default 0 end_slide)
                  ∧ (given end_slide = false →
                     ∀ k, k ∈ dict_keys slides_data → (k ≤ end_)%Z))
    as (end_ & -> & Hend & Hmax).
  { destruct (given end_slide) eqn:Hend.
    - destruct end_slide as [z|]; [|done]. exists z. by repeat split.
    - destruct (max_key slides_data) as [m|] eqn:Hm.
      + exists m. repeat split; [done|]. intros _ k. by apply max_key_ge.
      + unfold max_key in Hm. destruct slides_data; [done|]. done. }
  cbn [mbind option_bind].
  rewrite filter_slides_loop by (done || (intros; apply not_elem_of_nil)).
  cbn [app]. eexists. split; [done|]. split; [apply sublist_filter|].
  split; [done|]. intros _ slide_num slide_data.
  rewrite list_elem_of_filter. cbn [fst]. fold start. split.
  - intros [[Hlo Hhi] Hin]. split; [done|]. split; [done|].
    intros Hg. by rewrite <- (Hend Hg).
  - intros (Hin & Hlo & Hhi). split; [|done]. split; [done|].
    destruct (given end_slide) eqn:Hg.
    + rewrite (Hend eq_refl). by apply Hhi.
    + apply (Hmax eq_refl). by apply (list_elem_of_fmap_2 fst) in Hin.
Qed.

Section FurtherMain.
Variable lower : str → str.

(** X18. With a slide range, a finding of the rule-based detector run on
    the slides [main] keeps lists no slide before the start (1 when there
    is none) and none after the end. *)
Theorem X18_findings_stay_in_the_slide_range
    (start_slide end_slide : option Z) (slides_data filtered_slides : Slides)
    (finding : Finding) :
  NoDup (dict_keys slides_data) →
  given start_slide || given end_slide = true →
  filter_slides start_slide end_slide slides_data = Some filtered_slides →
  finding ∈ all_findings (_rule_based_detection lower filtered_slides) →
  ∃ nums, slide_numbers finding = Some nums
    ∧ ∀ n, n ∈ nums →
        n ∈ dict_keys slides_data
        ∧ ((if given start_slide then default 1 start_slide else 1) ≤ n)%Z
        ∧ (given end_slide = true → (n ≤ default 0 end_slide)%Z).
Proof.
  intros Hnd Hgiven Hfilter Hin. unfold filter_slides in Hfilter.
  rewrite Hgiven in Hfilter.
  destruct (if given end_slide then end_slide else max_key slides_data)
    as [end_|] eqn:Hend; [|done].
  cbn [mbind option_bind] in Hfilter.
  rewrite filter_slides_loop in Hfilter
    by (done || (intros; apply not_elem_of_nil)).
  cbn [app] in Hfilter. injection Hfilter as <-.
  apply rule_based_finding_inv in Hin as [(nums & Hnums & Hsub) _].
  - exists nums. split; [done|]. intros n Hn. apply Hsub in Hn.
    apply list_elem_of_fmap in Hn as ([k d] & -> & [[Hlo Hhi] Hkd]%list_elem_of_filter).
    cbn [fst] in *. split; [by apply (list_elem_of_fmap_2 fst) in Hkd|].
    split; [done|]. intros Hg. rewrite Hg in Hend. by subst end_slide.
  - unfold dict_keys. eapply sublist_NoDup; [exact Hnd|].
    apply fmap_sublist, sublist_filter.
Qed.

End FurtherMain.

(** ** Instances on sample data *)

Lemma C2_combine_results_first_wins_witness :
  get_list (_combine_results ascii_lower sample_rule sample_ai)
           (py "numerical_conflicts")
  = [finding_A; finding_B; finding_C].
Proof.
  destruct (C2_combine_results_first_wins ascii_lower sample_rule sample_ai
              (py "numerical_conflicts")
              finding_A finding_B finding_B' finding_C)
    as (_ & _ & _ & _ & _ & Hexample).
  - apply (bool_decide_unpack _). by vm_compute.
  - apply Hexample; by vm_compute.
Defined.

Lemma C5_ai_error_uses_rule_based_only_witness :
  ∃ typed,
    typed_analysis sample_error = Returns typed
    ∧ ai_based_count (detect_inconsistencies ascii_lower sample_slides typed)
      = 0%nat
    ∧ main_results ascii_lower sample_slides sample_error
      = Returns (Detection (detect_inconsistencies ascii_lower sample_slides typed)).
Proof.
  destruct (C5_ai_error_uses_rule_based_only ascii_lower sample_slides sample_error)
    as (typed & Htyped & _ & _ & _ & Hcount & Hmain).
  - by eexists.
  - exists typed. by split.
Defined.

Lemma C7_contradictory_statement_scan_witness :
  filter (λ finding,
            description finding
            = description (contradiction (py "highly competitive")
                             (py "few competitors") (py "market competition") []))
         (_detect_contradictory_statements ascii_lower contradiction_slides)
  = [ {| slide_numbers := Some [2; 5];
         description :=
           Some (py "Contradictory market competition: 'highly competitive' vs 'few competitors'");
         severity := Some (py "high");
         type := Some (py "contradictory_statements") |} ].
Proof.
  destruct (C7_contradictory_statement_scan ascii_lower contradiction_slides
              (py "highly competitive") (py "few competitors")
              (py "market competition"))
    as (Hone & _).
  - apply (bool_decide_unpack _). by vm_compute.
  - apply (bool_decide_unpack _). by vm_compute.
  - rewrite Hone; [reflexivity|]. split; by vm_compute.
Defined.

(** The example of the specification, in full: slides 2 and 5 give one
    finding, for slides [2; 5]. *)
Example contradiction_slides_2_5 :
  _detect_contradictory_statements ascii_lower contradiction_slides
  = [ {| slide_numbers := Some [2; 5];
         description :=
           Some (py "Contradictory market competition: 'highly competitive' vs 'few competitors'");
         severity := Some (py "high");
         type := Some (py "contradictory_statements") |} ].
Proof. by vm_compute. Qed.

(** The two slide lists are concatenated, not united: a slide that has
    both phrases is listed twice. *)
Example contradiction_on_one_slide :
  _detect_contradictory_statements ascii_lower [(4, slide_4)]
  = [ {| slide_numbers := Some [4; 4];
         description :=
           Some (py "Contradictory profitability: 'profitable' vs 'unprofitable'");
         severity := Some (py "high");
         type := Some (py "contradictory_statements") |} ].
Proof. by vm_compute. Qed.

(** C1, where the code departs from it.  A slide that mentions revenue and
    states the figure [$500] twice is reported as a revenue conflict, with
    slide numbers [1; 1], although the value appears on one slide only. *)
Theorem C1_repeated_value_on_one_slide (re_findall : str → str → list str) :
  let slide := slide_of_text ascii_digit ascii_space re_findall repeated_figure in
  currency slide = [py "$500"; py "$500"]
  ∧ _detect_numerical_conflicts ascii_lower [(1, slide)]
    = [ {| slide_numbers := Some [1; 1];
           description :=
             Some (py "Conflicting revenue figures: $500 appears on multiple slides");
           severity := Some (py "high");
           type := Some (py "revenue_conflict") |} ].
Proof.
  intros slide. split; [by vm_compute|].
  unfold _detect_numerical_conflicts, collect_numerical. cbn [foldl].
  rewrite (collect_ungated quantity_words) by (by vm_compute).
  by vm_compute.
Qed.

(** The example of the specification: the same figure on slides 1 and 3,
    both mentioning revenue, gives one revenue conflict for slides [1; 3],
    whatever the number and date patterns extract. *)
Example revenue_slides_1_3 (re_findall : str → str → list str) :
  _detect_numerical_conflicts ascii_lower
    [ (1, slide_of_text ascii_digit ascii_space re_findall
            [py "Revenue increased to $500,000"]);
      (3, slide_of_text ascii_digit ascii_space re_findall
            [py "Total revenue: $500,000"]) ]
  = [ {| slide_numbers := Some [1; 3];
         description :=
           Some (py "Conflicting revenue figures: $500,000 appears on multiple slides");
         severity := Some (py "high");
         type := Some (py "revenue_conflict") |} ].
Proof.
  unfold _detect_numerical_conflicts, collect_numerical. cbn [foldl].
  rewrite !(collect_ungated quantity_words) by (by vm_compute).
  by vm_compute.
Qed.

Lemma C9_entry_with_space :
  py "25 %" ∈ percentage_matches
                (extract_numbers_and_dates ascii_digit ascii_space no_matches
                   (py "Growth of 25 % this year"))
  ∧ ¬ number_then_percent ascii_digit (py "25 %").
Proof.
  split; [apply (bool_decide_unpack _); by vm_compute|].
  intros (n & Hn & ds & frac & -> & _ & Hds & Hfrac).
  change (py "25 %") with ([50; 53; 32] ++ [37])%N in Hn.
  apply app_inj_tail in Hn as [Hn _].
  assert (Hin : (32 ∈ ds ++ frac)%N) by (rewrite <- Hn; set_solver).
  apply elem_of_app in Hin as [Hin|Hin].
  - unfold all_of in Hds. rewrite Forall_forall in Hds. by apply Hds in Hin.
  - destruct Hfrac as [->|(fs & -> & _ & Hfs)]; [by apply elem_of_nil in Hin|].
    apply elem_of_cons in Hin as [?|Hin]; [done|].
    unfold all_of in Hfs. rewrite Forall_forall in Hfs. by apply Hfs in Hin.
Qed.

Lemma C9_percentage_entries_shape_witness :
  number_space_percent ascii_digit ascii_space (py "12.5%")
  ∧ last (py "12.5%") = Some 37%N.
Proof.
  apply (C9_percentage_entries_shape ascii_digit ascii_space no_matches
           (py "Margin grew to 12.5% of sales")).
  apply (bool_decide_unpack _). by vm_compute.
Defined.

Lemma C8_unparseable_reply_gives_default_report_witness :
  _parse_analysis_response nothing_parses no_matches sub_nothing strip_nothing
                           prose_reply
  = _get_empty_intelligence_report.
Proof.
  destruct (C8_unparseable_reply_gives_default_report
              nothing_parses no_matches sub_nothing strip_nothing prose_reply
              (py "I could not analyse these slides.") [])
    as (_ & _ & Hdefault & _).
  - reflexivity.
  - repeat split; done.
  - exact Hdefault.
Defined.

(** C5, where the code departs from it.  A reply on which every parsing
    strategy fails is no tagged error: the analysis has no ['error'], and
    [main] takes the default report, although the rule-based detector has
    a finding for these slides. *)
Lemma C5_parse_failure_is_no_tagged_error :
  let ai_analysis :=
    analyze_inconsistencies nothing_parses no_matches sub_nothing strip_nothing
      (answers prose_reply) (Some (py "key")) sample_slides in
  all_strategies_fail nothing_parses no_matches sub_nothing strip_nothing
                      (py "I could not analyse these slides.")
  ∧ ai_error ai_analysis = None
  ∧ main_results ascii_lower sample_slides ai_analysis
    = Returns (Intelligence _get_empty_intelligence_report)
  ∧ rule_based_count (detect_inconsistencies ascii_lower sample_slides no_analysis)
    = 1%nat.
Proof.
  intros ai_analysis. split; [by repeat split|].
  split; [reflexivity|]. split; [reflexivity|]. by vm_compute.
Qed.



(** Runs that bind no result: without an API key [main] exits at its
    guard, and on a [null] where the detector reads a dict or a string the
    detector raises and [main] exits in its handler. *)
Example run_without_api_key :
  main_run ascii_lower sample_json_loads no_matches sub_nothing strip_nothing
           (answers (reply_of legacy_text)) None None None sample_slides
  = Exit 1.
Proof. reflexivity. Qed.

Example run_on_null_report :
  main_run ascii_lower sample_json_loads no_matches sub_nothing strip_nothing
           (answers (reply_of null_report_text))
           (Some (py "key")) None None sample_slides
  = Exit 1.
Proof. by vm_compute. Qed.

Example run_on_null_description :
  main_run ascii_lower sample_json_loads no_matches sub_nothing strip_nothing
           (answers (reply_of null_description_text))
           (Some (py "key")) None None sample_slides
  = Exit 1.
Proof. by vm_compute. Qed.

(** ** Instances of the further properties *)

Lemma X1_timeline_scan_witness :
  _detect_timeline_issues dated_slides
  = [ {| slide_numbers := Some [1; 3];
         description :=
           Some (py "Multiple dates found across slides - potential timeline conflicts");
         severity := Some (py "medium");
         type := Some (py "timeline_issues") |} ].
Proof.
  destruct (X1_timeline_scan dated_slides) as (_ & Htwo & _).
  - apply (bool_decide_unpack _). by vm_compute.
  - rewrite Htwo; [reflexivity|]. vm_compute. lia.
Defined.

Lemma X2_numerical_conflict_provenance_witness :
  ∃ value nums,
    slide_numbers revenue_finding = Some nums ∧ (2 ≤ length nums)%nat
    ∧ description revenue_finding
      = Some (py "Conflicting revenue figures: " ++ value
                ++ py " appears on multiple slides")
    ∧ nums = occurrences ascii_lower revenue_words currency value sample_slides.
Proof.
  destruct (X2_numerical_conflict_provenance ascii_lower sample_slides
              revenue_finding)
    as (value & nums & Hnums & Hlen & Hkind).
  - apply (bool_decide_unpack _). by vm_compute.
  - exists value, nums. split; [done|]. split; [done|].
    destruct Hkind as [(_ & _ & Hdescr & Hocc & _)|[(Hty & _)|(Hty & _)]];
      [by split|discriminate Hty..].
Defined.

Lemma X3_rule_based_findings_well_formed_witness :
  (∃ nums, slide_numbers revenue_finding = Some nums
           ∧ nums ⊆ dict_keys sample_slides)
  ∧ is_Some (description revenue_finding)
  ∧ (severity revenue_finding = Some (py "high")
     ∨ severity revenue_finding = Some (py "medium"))
  ∧ is_Some (type revenue_finding).
Proof.
  apply (X3_rule_based_findings_well_formed ascii_lower sample_slides
           revenue_finding).
  - apply (bool_decide_unpack _). by vm_compute.
  - apply (bool_decide_unpack _). by vm_compute.
Defined.

Lemma X5_dedup_ignores_slide_order_witness :
  dedup_key ascii_lower finding_B' = dedup_key ascii_lower finding_B
  ∧ _deduplicate_items ascii_lower ([finding_A; finding_B] ++ [finding_B'])
    = _deduplicate_items ascii_lower [finding_A; finding_B].
Proof.
  apply (X5_dedup_ignores_slide_order ascii_lower [finding_A; finding_B]
           finding_B finding_B').
  - apply (bool_decide_unpack _). by vm_compute.
  - apply perm_swap.
  - by vm_compute.
Defined.

Lemma X8_legacy_reply_is_reconciled_witness :
  ∃ result,
    main_results ascii_lower sample_slides
      (analyze_inconsistencies sample_json_loads no_matches sub_nothing
         strip_nothing (answers (reply_of legacy_text)) (Some (py "key"))
         sample_slides)
    = Returns (Detection result)
    ∧ ∀ category, category ∈ categories →
        get_list (inconsistencies result) category
        = _deduplicate_items ascii_lower
            (get_list (_rule_based_detection ascii_lower sample_slides) category
               ++ legacy_findings category).
Proof.
  destruct (X8_legacy_reply_is_reconciled ascii_lower sample_json_loads
              no_matches sub_nothing strip_nothing
              (answers (reply_of legacy_text)) (Some (py "key")) sample_slides
              (reply_of legacy_text) legacy_text [] legacy_members
              legacy_findings)
    as [Hlists _].
  - by vm_compute.
  - reflexivity.
  - reflexivity.
  - by vm_compute.
  - reflexivity.
  - by vm_compute.
  - apply Hlists. intros category Hcat. unfold categories in Hcat.
    repeat (apply elem_of_cons in Hcat as [->|Hcat]);
      [by vm_compute..|by apply elem_of_nil in Hcat].
Defined.

Lemma X9_useless_reply_gives_default_report_witness :
  _parse_analysis_response nothing_parses no_matches sub_nothing strip_nothing
                           prose_reply
  = _get_empty_intelligence_report
  ∧ main_results ascii_lower sample_slides
      (analyze_inconsistencies nothing_parses no_matches sub_nothing strip_nothing
         (answers prose_reply) (Some (py "key")) sample_slides)
    = Returns (Intelligence _get_empty_intelligence_report).
Proof.
  apply (X9_useless_reply_gives_default_report ascii_lower nothing_parses
           no_matches sub_nothing strip_nothing (answers prose_reply)
           (Some (py "key")) sample_slides prose_reply).
  - by vm_compute.
  - reflexivity.
  - right. right. right.
    exists (py "I could not analyse these slides."), [].
    split; [reflexivity|]. left. by vm_compute.
Defined.

Lemma X10_currency_entries_shape_witness :
  is_currency_amount ascii_digit ascii_space (py "$500,000").
Proof.
  apply (X10_currency_entries_shape ascii_digit ascii_space no_matches
           (py "Revenue increased to $500,000")).
  apply (bool_decide_unpack _). by vm_compute.
Defined.

Lemma X11_entries_are_pieces_of_the_text_witness :
  ∃ before after,
    py "Margin grew to 12.5% of sales" = before ++ py "12.5%" ++ after.
Proof.
  destruct (X11_entries_are_pieces_of_the_text ascii_digit ascii_space no_matches
              (py "Margin grew to 12.5% of sales") (py "12.5%"))
    as [Hpiece _].
  - apply (bool_decide_unpack _). by vm_compute.
  - exact Hpiece.
Defined.

Lemma X12_no_sign_no_entry_witness :
  percentage_matches
    (extract_numbers_and_dates ascii_digit ascii_space no_matches
       (py "Revenue increased to $500,000"))
  = [].
Proof.
  destruct (X12_no_sign_no_entry ascii_digit ascii_space no_matches
              (py "Revenue increased to $500,000"))
    as [Hpercent _].
  apply Hpercent. apply (bool_decide_unpack _). by vm_compute.
Defined.

Lemma X14_clean_text_result_witness :
  (∀ c, c ∈ clean_text ascii_space ascii_word untidy_text →
        kept_by_clean_text ascii_space ascii_word c = true
        ∧ (ascii_space c = true → c = 32%N))
  ∧ (length (clean_text ascii_space ascii_word untidy_text)
     ≤ length untidy_text)%nat
  ∧ filter (λ c, ascii_space c = false)
      (clean_text ascii_space ascii_word untidy_text)
    = filter (λ c, ascii_space c = false)
        (filter (λ c, kept_by_clean_text ascii_space ascii_word c = true)
           untidy_text).
Proof.
  apply (X14_clean_text_result ascii_space ascii_word untidy_text).
  reflexivity.
Defined.

Lemma X17_slide_range_witness :
  ∃ filtered_slides,
    filter_slides (Some 2%Z) None dated_slides = Some filtered_slides
    ∧ filtered_slides `sublist_of` dated_slides
    ∧ (given (Some 2%Z) || given None = false → filtered_slides = dated_slides)
    ∧ (given (Some 2%Z) || given None = true →
       ∀ slide_num slide_data,
         (slide_num, slide_data) ∈ filtered_slides ↔
         (slide_num, slide_data) ∈ dated_slides
         ∧ ((if given (Some 2%Z) then default 1 (Some 2) else 1) ≤ slide_num)%Z
         ∧ (given None = true → (slide_num ≤ default 0 None)%Z)).
Proof.
  apply (X17_slide_range (Some 2%Z) None dated_slides).
  - apply (bool_decide_unpack _). by vm_compute.
  - done.
Defined.

Lemma X18_findings_stay_in_the_slide_range_witness :
  ∃ nums, slide_numbers timeline_finding = Some nums
    ∧ ∀ n, n ∈ nums →
        n ∈ dict_keys dated_slides
        ∧ ((if given None then default 1 None else 1) ≤ n)%Z
        ∧ (given (Some 3%Z) = true → (n ≤ default 0 (Some 3))%Z).
Proof.
  apply (X18_findings_stay_in_the_slide_range ascii_lower None (Some 3%Z)
           dated_slides dated_slides timeline_finding).
  - apply (bool_decide_unpack _). by vm_compute.
  - reflexivity.
  - by vm_compute.
  - apply (bool_decide_unpack _). by vm_compute.
Defined.
